(** * samakitrack: rate limiting, TTL caching and offline caching

    A shallow embedding of the request-rate limiter (api/rate-limit.js),
    the two versions of the sheets proxy (api/sheets.js) and the two
    versions of the service worker (sw.js), with the properties the
    specification states about them.

    Conventions.  [Date.now()] readings and all durations are integers of
    milliseconds, modelled in [Z].  A JavaScript [Map] whose iteration
    order is observed by the code is an insertion-ordered association
    list ([JsMap]); one whose order is never observed is a [gmap].
    Strings are byte strings (UTF-8). *)

From Stdlib Require Import ZArith Lia Bool Ascii Sorted.
From stdpp Require Import base option list gmap strings pretty sorting.

Local Open Scope Z_scope.

(* ===================================================================== *)
(** * Part I. Definitions                                                 *)
(* ===================================================================== *)

(** ** JavaScript numbers and strings, as far as the code uses them *)
Module Js.

(** A number that is an integer, or the [Infinity] that [Math.min()]
    yields when it is given no argument. *)
Inductive num : Type :=
  | Num (z : Z)
  | Infinity.

Definition plus (a : num) (b : Z) : num :=
  match a with
  | Num z => Num (z + b)
  | Infinity => Infinity
  end.

Definition minus (a : num) (b : Z) : num :=
  match a with
  | Num z => Num (z - b)
  | Infinity => Infinity
  end.

(** [Math.min(...l)] *)
Fixpoint Math_min (l : list Z) : num :=
  match l with
  | [] => Infinity
  | x :: r =>
      match Math_min r with
      | Infinity => Num x
      | Num m => Num (Z.min x m)
      end
  end.

(** [Math.ceil(x / d)] for an integer [x] and a positive integer [d]. *)
Definition ceil_div (x d : Z) : Z := - ((- x) / d).

Definition Math_ceil_div (x : num) (d : Z) : num :=
  match x with
  | Num z => Num (ceil_div z d)
  | Infinity => Infinity
  end.

(** *** Strings *)

(** [hay.startsWith(p)] *)
Definition startsWith (hay p : string) : bool := String.prefix p hay.

(** [hay.includes(needle)] *)
Fixpoint includes (hay needle : string) : bool :=
  String.prefix needle hay ||
  match hay with
  | EmptyString => false
  | String _ rest => includes rest needle
  end.

(** [hay.endsWith(suffix)] *)
Definition endsWith (hay suffix : string) : bool :=
  String.prefix (String.rev suffix) (String.rev hay).

(** [s.split(sep)[0]]: what comes before the first separator. *)
Fixpoint split_head (sep : ascii) (s : string) : string :=
  match s with
  | EmptyString => EmptyString
  | String c rest =>
      if Ascii.eqb c sep then EmptyString else String c (split_head sep rest)
  end.

(** A string holds the bytes of its UTF-8 text. *)
Definition of_bytes (l : list N) : string :=
  fold_right (λ n acc, String (Ascii.ascii_of_N n) acc) EmptyString l.

(** The white space and line terminators that [trim] strips: tab, line
    feed, vertical tab, form feed, carriage return, space, U+00A0,
    U+1680, U+2000 to U+200A, U+2028, U+2029, U+202F, U+205F, U+3000 and
    U+FEFF. *)
Definition spaces : list string :=
  map of_bytes
    ([[9]; [10]; [11]; [12]; [13]; [32]; [194; 160]; [225; 154; 128]] ++
     map (λ n, [226; 128; n]) [128; 129; 130; 131; 132; 133; 134; 135; 136; 137; 138] ++
     [[226; 128; 168]; [226; 128; 169]; [226; 128; 175]; [226; 129; 159];
      [227; 128; 128]; [239; 187; 191]])%N.

(** What follows [p] in [s], when [s] starts with [p]. *)
Fixpoint after_prefix (p s : string) : option string :=
  match p, s with
  | EmptyString, _ => Some s
  | String a p', String b s' => if Ascii.eqb a b then after_prefix p' s' else None
  | String _ _, EmptyString => None
  end.

(** What follows the first of [ps] that [s] starts with. *)
Fixpoint after_any (ps : list string) (s : string) : option string :=
  match ps with
  | [] => None
  | p :: rest =>
      match after_prefix p s with
      | Some s' => Some s'
      | None => after_any rest s
      end
  end.

Fixpoint strip (ps : list string) (fuel : nat) (s : string) : string :=
  match fuel with
  | O => s
  | S fuel' =>
      match after_any ps s with
      | Some s' => strip ps fuel' s'
      | None => s
      end
  end.

(** [s.trimStart()] *)
Definition trimStart (s : string) : string := strip spaces (String.length s) s.

(** [s.trimEnd()]: the same from the other end. *)
Definition trimEnd (s : string) : string :=
  String.rev (strip (map String.rev spaces) (String.length s) (String.rev s)).

(** [s.trim()] *)
Definition trim (s : string) : string := trimEnd (trimStart s).

(** The UTF-16 code units of a string, each as a string of its own: a
    character of one to three bytes is one unit; a character of four
    bytes is a pair of surrogates, each written in three bytes as a
    character of its own would be. *)
Definition surrogates (b0 b1 b2 b3 : N) : list string :=
  let cp := (N.land b0 7 * 262144 + N.land b1 63 * 4096 + N.land b2 63 * 64
             + N.land b3 63 - 65536)%N in
  let unit (x : N) : string :=
    of_bytes [224 + x / 4096; 128 + N.land (x / 64) 63; 128 + N.land x 63]%N in
  [unit (55296 + cp / 1024)%N; unit (56320 + N.land cp 1023)%N].

Fixpoint code_units_of (fuel : nat) (l : list N) : list string :=
  match fuel with
  | O => []
  | S fuel' =>
      match l with
      | [] => []
      | b0 :: r =>
          if (b0 <? 192)%N then of_bytes [b0] :: code_units_of fuel' r
          else if (b0 <? 224)%N then
            of_bytes (b0 :: take 1 r) :: code_units_of fuel' (drop 1 r)
          else if (b0 <? 240)%N then
            of_bytes (b0 :: take 2 r) :: code_units_of fuel' (drop 2 r)
          else
            match r with
            | b1 :: b2 :: b3 :: r' => surrogates b0 b1 b2 b3 ++ code_units_of fuel' r'
            | _ => [of_bytes l]
            end
      end
  end.

Definition code_units (s : string) : list string :=
  let l := map Ascii.N_of_ascii (String.list_ascii_of_string s) in
  code_units_of (length l) l.

(** A string is falsy exactly when it is empty; [a || b] on an optional
    string ([None] is [undefined]). *)
Definition nonempty (o : option string) : option string :=
  match o with
  | Some s => if String.eqb s "" then None else Some s
  | None => None
  end.

Definition or_else (a b : option string) : option string :=
  match nonempty a with
  | Some s => Some s
  | None => b
  end.

(** The one-character string that holds a double quote. *)
Definition dquote : string := String (Ascii.ascii_of_N 34) EmptyString.

(** The digits of an integer in a template literal. *)
Definition of_Z (z : Z) : string := pretty z.

(** [encodeURIComponent]: every byte is escaped as [%XX] but the letters,
    the digits and [- _ . ! ~ * ' ( )]. *)
Definition hex_digit (n : N) : ascii :=
  Ascii.ascii_of_N (if (n <? 10)%N then 48 + n else 55 + n).

Definition unreserved (c : ascii) : bool :=
  let n := Ascii.N_of_ascii c in
  ((48 <=? n)%N && (n <=? 57)%N) || ((65 <=? n)%N && (n <=? 90)%N) ||
  ((97 <=? n)%N && (n <=? 122)%N) ||
  bool_decide (n ∈ [45; 95; 46; 33; 126; 42; 39; 40; 41]%N).

Fixpoint encodeURIComponent (s : string) : string :=
  match s with
  | EmptyString => EmptyString
  | String c rest =>
      if unreserved c then String c (encodeURIComponent rest)
      else
        let n := Ascii.N_of_ascii c in
        String "%" (String (hex_digit (n / 16)) (String (hex_digit (n mod 16))
          (encodeURIComponent rest)))
  end.

(** *** Values

    The values that travel as JSON between the upstream API, the cache and
    the response bodies.  Numbers are integers.  [JFun] is a built-in
    method: no JSON text holds one, but reading a property can yield
    one. *)
#[local] Unset Elimination Schemes.
Inductive json : Type :=
  | JUndefined
  | JNull
  | JBool (b : bool)
  | JNum (z : Z)
  | JStr (s : string)
  | JArr (items : list json)
  | JObj (fields : list (string * json))
  | JFun (name : string).
#[local] Set Elimination Schemes.

(** [!!v] *)
Definition truthy (v : json) : bool :=
  match v with
  | JUndefined | JNull => false
  | JBool b => b
  | JNum z => negb (z =? 0)
  | JStr s => negb (String.eqb s "")
  | JArr _ | JObj _ | JFun _ => true
  end.

(** Whether [JSON.stringify(v)] is a string: for a function and for
    [undefined] it is [undefined]. *)
Definition stringifies (v : json) : bool :=
  match v with
  | JUndefined | JFun _ => false
  | _ => true
  end.

Fixpoint field (fs : list (string * json)) (name : string) : json :=
  match fs with
  | [] => JUndefined
  | (k, v) :: rest => if String.eqb k name then v else field rest name
  end.

(** The result of an expression that may throw: the value, or the
    [message] of the error thrown. *)
Inductive completion (A : Type) : Type :=
  | Return (a : A)
  | Throw (message : string).
Arguments Return {A} a.
Arguments Throw {A} message.

Definition bind {A B} (c : completion A) (k : A → completion B) : completion B :=
  match c with
  | Return a => k a
  | Throw m => Throw m
  end.

(** [v.name], for the four names the handlers read: [sheets],
    [properties], [title] and [values].  Reading a property of
    [undefined] or [null] throws a TypeError; an object yields its own
    field; an array inherits the method [values]; no other value has a
    property of one of these names, own or inherited, and yields
    [undefined]. *)
Definition prop (v : json) (name : string) : completion json :=
  match v with
  | JUndefined =>
      Throw ("Cannot read properties of undefined (reading '" +:+ name +:+ "')")
  | JNull =>
      Throw ("Cannot read properties of null (reading '" +:+ name +:+ "')")
  | JObj fs => Return (field fs name)
  | JArr _ => Return (if String.eqb name "values" then JFun "values" else JUndefined)
  | _ => Return JUndefined
  end.

(** [items.map(f)] for an [f] that may throw. *)
Fixpoint map_completion {A B} (f : A → completion B) (l : list A) : completion (list B) :=
  match l with
  | [] => Return []
  | x :: r => bind (f x) (λ y, bind (map_completion f r) (λ ys, Return (y :: ys)))
  end.

End Js.

(** ** A [Map] whose insertion order the code observes *)
Module JsMap.

Section Ordered.

Context {V : Type}.

(** The entries, earliest inserted first; no key occurs twice. *)
Definition t : Type := list (string * V).

Definition empty : t := [].

(** [m.get(k)] ([None] is [undefined]) *)
Fixpoint get (m : t) (k : string) : option V :=
  match m with
  | [] => None
  | (k', v) :: rest => if String.eqb k' k then Some v else get rest k
  end.

(** [m.has(k)] *)
Definition has (m : t) (k : string) : bool := bool_decide (is_Some (get m k)).

(** [m.set(k, v)]: a key that is present keeps its place; a new key goes
    to the end. *)
Fixpoint set (m : t) (k : string) (v : V) : t :=
  match m with
  | [] => [(k, v)]
  | (k', v') :: rest =>
      if String.eqb k' k then (k, v) :: rest else (k', v') :: set rest k v
  end.

(** [m.delete(k)] *)
Fixpoint delete (m : t) (k : string) : t :=
  match m with
  | [] => []
  | (k', v') :: rest =>
      if String.eqb k' k then rest else (k', v') :: delete rest k
  end.

(** [m.size] *)
Definition size (m : t) : Z := Z.of_nat (length m).

(** [m.keys().next().value] ([None] is [undefined]) *)
Definition first_key (m : t) : option string := head (map fst m).

(** [m.delete(m.keys().next().value)]: deleting [undefined] deletes
    nothing. *)
Definition delete_first (m : t) : t :=
  match first_key m with
  | Some k => delete m k
  | None => m
  end.

Definition keys (m : t) : list string := map fst m.

End Ordered.

Arguments t : clear implicits.

End JsMap.

(** ** What a serverless handler receives and answers *)
Module Http.

(** The request, as far as the handlers read it. *)
Record request : Type := mkRequest {
  method : string;
  x_forwarded_for : option string;   (* req.headers['x-forwarded-for'] *)
  x_real_ip : option string;         (* req.headers['x-real-ip'] *)
  remoteAddress : option string;     (* req.socket / req.connection *)
  query_sheet : option string;       (* req.query.sheet *)
  query_action : option string       (* req.query.action *)
}.

(** The response: the status, the headers the properties speak of, and
    the JSON body ([None] for [res.end()]). *)
Record response : Type := mkResponse {
  status : Z;
  retry_after : option Z;            (* the Retry-After header *)
  x_cache : option string;           (* the X-Cache header *)
  body : option Js.json
}.

(** What [fetch] of the upstream URL comes to. *)
Record upstream_response : Type := mkUpstream {
  up_status : Z;
  up_text : string;                        (* await response.text() *)
  up_json : Js.completion Js.json          (* await response.json() *)
}.

Inductive fetch_outcome : Type :=
  | Resolved (r : upstream_response)
  | Rejected (message : string).           (* the transport failed *)

(** [response.ok] *)
Definition ok (r : upstream_response) : bool :=
  (200 <=? up_status r) && (up_status r <=? 299).

(** The process the handler runs in.  [text_length v] is
    [JSON.stringify(v).length] for a value that has a JSON text; the
    texts themselves are not built. *)
Record env : Type := mkEnv {
  API_KEY : option string;                 (* process.env.GOOGLE_SHEETS_API_KEY *)
  SPREADSHEET_ID : option string;          (* process.env.SPREADSHEET_ID *)
  NODE_ENV : option string;                (* process.env.NODE_ENV *)
  fetch : string → fetch_outcome;          (* the upstream, by URL *)
  text_length : Js.json → Z
}.

(** What a handler did besides answering. *)
Inductive effect : Type :=
  | RateCheck (ip : string)
  | CacheSweep
  | CacheGet (key : string)
  | CacheSet (key : string)
  | Fetch (url : string).

(** An environment variable in a template literal. *)
Definition template (o : option string) : string := default "undefined" o.

(** A [{ data, timestamp }] cache entry. *)
Record entry : Type := mkEntry {
  data : Js.json;
  timestamp : Z
}.

(** [data.sheets.map(s => s.properties.title)], as both sheets handlers
    have it. *)
Definition sheet_titles (d : Js.json) : Js.completion Js.json :=
  Js.bind (Js.prop d "sheets") (λ sheets,
    match sheets with
    | Js.JArr items =>
        Js.bind
          (Js.map_completion
             (λ s, Js.bind (Js.prop s "properties") (λ p, Js.prop p "title"))
             items)
          (λ titles, Js.Return (Js.JArr titles))
    | Js.JUndefined =>
        Js.Throw "Cannot read properties of undefined (reading 'map')"
    | Js.JNull =>
        Js.Throw "Cannot read properties of null (reading 'map')"
    | _ => Js.Throw "data.sheets.map is not a function"
    end).

(** The code inside a [try]: it acts on a world [W] (the cache, and the
    record of what was done) and returns or throws. *)
Definition M (W A : Type) : Type := W → Js.completion A * W.

Definition ret {W A} (a : A) : M W A := λ w, (Js.Return a, w).

Definition bind {W A B} (m : M W A) (k : A → M W B) : M W B :=
  λ w, match m w with
       | (Js.Return a, w') => k a w'
       | (Js.Throw msg, w') => (Js.Throw msg, w')
       end.

Definition lift {W A} (c : Js.completion A) : M W A := λ w, (c, w).

Declare Scope handler_scope.
Delimit Scope handler_scope with handler.
Notation "x <- m ;; k" := (bind m (λ x, k))
  (at level 100, m at next level, right associativity) : handler_scope.

End Http.

(** ** api/rate-limit.js: the [RateLimiter] class *)
Module RateLimiter.

Record t : Type := mk {
  maxRequests : Z;
  windowMs : Z;
  requests : gmap string (list Z)
}.

(** [new RateLimiter(maxRequests, windowMs)] *)
Definition new (maxRequests windowMs : Z) : t :=
  {| maxRequests := maxRequests; windowMs := windowMs; requests := ∅ |}.

(** [export const rateLimiter = new RateLimiter(30, 60000)] *)
Definition rateLimiter : t := new 30 60000.

Record result : Type := mkResult {
  allowed : bool;
  remaining : Z;
  resetAt : Js.num
}.

(** The timestamps [t] of [ts] with [t > windowStart]. *)
Definition prune (windowStart : Z) (ts : list Z) : list Z :=
  filter (λ t, windowStart < t) ts.

(** [check(identifier)], with [now] the reading of [Date.now()]. *)
Definition check (rl : t) (identifier : string) (now : Z) : result * t :=
  let windowStart := now - windowMs rl in
  (* Clean old requests *)
  let cleaned :=
    match requests rl !! identifier with
    | Some ts => <[identifier := prune windowStart ts]> (requests rl)
    | None => requests rl
    end in
  (* Check limit *)
  let reqs := default [] (cleaned !! identifier) in
  if bool_decide (maxRequests rl ≤ Z.of_nat (length reqs)) then
    ({| allowed := false;
        remaining := 0;
        resetAt := Js.plus (Js.Math_min reqs) (windowMs rl) |},
     mk (maxRequests rl) (windowMs rl) cleaned)
  else
    (* Add new request *)
    let reqs' := reqs ++ [now] in
    ({| allowed := true;
        remaining := maxRequests rl - Z.of_nat (length reqs');
        resetAt := Js.Num (now + windowMs rl) |},
     mk (maxRequests rl) (windowMs rl) (<[identifier := reqs']> cleaned)).

(** [reset(identifier)] *)
Definition reset (rl : t) (identifier : string) : t :=
  mk (maxRequests rl) (windowMs rl) (delete identifier (requests rl)).

(** [cleanup()], run every five minutes by [setInterval]. *)
Definition cleanup (rl : t) (now : Z) : t :=
  let windowStart := now - windowMs rl in
  mk (maxRequests rl) (windowMs rl)
     (omap (λ ts, match prune windowStart ts with
                  | [] => None
                  | v => Some v
                  end) (requests rl)).

(** The answer of the endpoint of api/rate-limit.js: the status, the three
    rate-limit headers, and the two fields of the body of a 429 (the body
    of a 200 is [{ ok: true }]). *)
Record answer : Type := mkAnswer {
  status : Z;
  X_RateLimit_Limit : Z;
  X_RateLimit_Remaining : Z;
  X_RateLimit_Reset : Js.num;
  error : option string;
  retryAfter : option Js.num
}.

(** [x-forwarded-for?.split(',')[0] || x-real-ip || 'unknown'] *)
Definition identifier_of (req : Http.request) : string :=
  default "unknown"
    (Js.or_else (Js.split_head "," <$> Http.x_forwarded_for req)
                (Js.nonempty (Http.x_real_ip req))).

(** [handler(req, res)]; [now] is the reading of [Date.now()] in [check]
    and [now'] the one in the body of the 429 answer. *)
Definition handler (rl : t) (req : Http.request) (now now' : Z) : answer * t :=
  let identifier := identifier_of req in
  let '(result, rl') := check rl identifier now in
  if negb (allowed result) then
    ({| status := 429;
        X_RateLimit_Limit := maxRequests rl;
        X_RateLimit_Remaining := remaining result;
        X_RateLimit_Reset := resetAt result;
        error := Some "សូមរង់ចាំបន្តិច ប្រើប្រាស់ញឹកញាប់ពេក";
        retryAfter := Some (Js.Math_ceil_div (Js.minus (resetAt result) now') 1000) |},
     rl')
  else
    ({| status := 200;
        X_RateLimit_Limit := maxRequests rl;
        X_RateLimit_Remaining := remaining result;
        X_RateLimit_Reset := resetAt result;
        error := None;
        retryAfter := None |},
     rl').

(** The window the limiter holds for an identifier ([[]] when it holds none). *)
Definition window (rl : t) (identifier : string) : list Z :=
  default [] (requests rl !! identifier).

(** What happens to a limiter between its construction and a given
    moment: calls of [check], and runs of the periodic [cleanup]. *)
Inductive event : Type :=
  | Check (identifier : string) (now : Z)
  | Cleanup (now : Z).

Definition event_time (e : event) : Z :=
  match e with
  | Check _ now => now
  | Cleanup now => now
  end.

(** One line of the log of a run: a [check] call and what it returned. *)
Record call : Type := mkCall {
  call_id : string;
  call_time : Z;
  call_result : result
}.

(** Runs the events in order; returns the final limiter and the log of
    the [check] calls. *)
Fixpoint run (rl : t) (es : list event) : t * list call :=
  match es with
  | [] => (rl, [])
  | Check identifier now :: es' =>
      let '(r, rl') := check rl identifier now in
      let '(rl'', log) := run rl' es' in
      (rl'', mkCall identifier now r :: log)
  | Cleanup now :: es' => run (cleanup rl now) es'
  end.

Definition admitted_by (identifier : string) (c : call) : Prop :=
  call_id c = identifier ∧ allowed (call_result c) = true.

(** The admitted calls of an identifier, oldest first, and their times. *)
Definition admitted_calls (identifier : string) (log : list call) : list call :=
  filter (admitted_by identifier) log.

Definition admitted (identifier : string) (log : list call) : list Z :=
  map call_time (admitted_calls identifier log).

End RateLimiter.

(** ** api/sheets.js (src/api/sheets.js) *)
Module Sheets.

Import Http.

Definition CACHE_DURATION : Z := 5 * 60 * 1000.
Definition RATE_LIMIT_WINDOW : Z := 60000.
Definition MAX_REQUESTS_PER_MINUTE : Z := 30.

(** The two module-level maps; nothing iterates them in an order that
    shows. *)
Record state : Type := mkState {
  serverCache : gmap string entry;
  rateLimitMap : gmap string (list Z)
}.

Definition initial : state := mkState ∅ ∅.

(** [checkRateLimit(ip)].  The array [requests] is stored in the map
    before [push] extends it, so the map holds the extended array. *)
Definition checkRateLimit (m : gmap string (list Z)) (ip : string) (now : Z)
    : bool * gmap string (list Z) :=
  let windowStart := now - RATE_LIMIT_WINDOW in
  let m1 := if bool_decide (is_Some (m !! ip)) then m else <[ip := []]> m in
  let requests := filter (λ time, time > windowStart) (default [] (m1 !! ip)) in
  let m2 := <[ip := requests]> m1 in
  if bool_decide (Z.of_nat (length requests) >= MAX_REQUESTS_PER_MINUTE) then
    (false, m2)
  else
    (true, <[ip := requests ++ [now]]> m2).

(** [cleanExpiredCache()] *)
Definition cleanExpiredCache (c : gmap string entry) (now : Z) : gmap string entry :=
  filter (λ kv, ¬ (now - timestamp kv.2 > CACHE_DURATION)) c.

Record world : Type := mkWorld {
  w_cache : gmap string entry;
  w_log : list effect
}.

Definition M : Type → Type := Http.M world.

Definition log (ev : effect) : M unit :=
  λ w, (Js.Return tt, mkWorld (w_cache w) (w_log w ++ [ev])).

Local Open Scope handler_scope.

(** [getCachedData(cacheKey, fetchFunction)]; [now] is read before the
    upstream is asked, and is the timestamp of what is stored. *)
Definition getCachedData (cacheKey : string) (now : Z) (fetchFunction : M Js.json)
    : M Js.json :=
  (* Cache miss or expired - fetch new data, store in cache *)
  let refetch : M Js.json :=
    d <- fetchFunction ;;
    λ w, (Js.Return d,
          mkWorld (<[cacheKey := mkEntry d now]> (w_cache w))
                  (w_log w ++ [CacheSet cacheKey])) in
  _ <- log (CacheGet cacheKey) ;;
  λ w,
    (* Check if cached data exists and is still valid *)
    match w_cache w !! cacheKey with
    | Some cached =>
        if bool_decide (now - timestamp cached < CACHE_DURATION)
        then (Js.Return (data cached), w)
        else refetch w
    | None => refetch w
    end.

Definition list_url (e : env) : string :=
  "https://sheets.googleapis.com/v4/spreadsheets/" +:+ template (SPREADSHEET_ID e)
  +:+ "?key=" +:+ template (API_KEY e).

Definition values_url (e : env) (sheet : string) : string :=
  "https://sheets.googleapis.com/v4/spreadsheets/" +:+ template (SPREADSHEET_ID e)
  +:+ "/values/" +:+ Js.encodeURIComponent sheet +:+ "?key=" +:+ template (API_KEY e).

(** The two fetch functions handed to [getCachedData]. *)
Definition fetch_names (e : env) : M Js.json :=
  _ <- log (Fetch (list_url e)) ;;
  match fetch e (list_url e) with
  | Rejected message => lift (Js.Throw message)
  | Resolved r =>
      if negb (ok r)
      then lift (Js.Throw "Failed to fetch sheet names from Google Sheets")
      else d <- lift (up_json r) ;; lift (sheet_titles d)
  end.

Definition fetch_sheet (e : env) (sheet : string) : M Js.json :=
  _ <- log (Fetch (values_url e sheet)) ;;
  match fetch e (values_url e sheet) with
  | Rejected message => lift (Js.Throw message)
  | Resolved r =>
      if negb (ok r)
      then lift (Js.Throw ("Failed to fetch sheet " +:+ Js.dquote +:+ sheet
                           +:+ Js.dquote +:+ " from Google Sheets"))
      else lift (up_json r)
  end.

(** The four readings of [Date.now()]: in [checkRateLimit], in
    [cleanExpiredCache], in [getCachedData] and for [cacheAge]. *)
Record clock : Type := mkClock {
  at_limit : Z;
  at_sweep : Z;
  at_lookup : Z;
  at_age : Z
}.

(** [{ ...data }]: the own enumerable properties of the value spread:
    the fields of an object, the items of an array and the code units of
    a string, each under its index. *)
Definition spread (d : Js.json) : list (string * Js.json) :=
  match d with
  | Js.JObj fs => fs
  | Js.JArr items => imap (λ i v, (pretty i, v)) items
  | Js.JStr s => imap (λ i u, (pretty i, Js.JStr u)) (Js.code_units s)
  | _ => []
  end.

(** [cached] and [cacheAge] of a 200 body. *)
Definition cache_fields (c : gmap string entry) (cacheKey : string) (now : Z)
    (fields : list (string * Js.json)) : list (string * Js.json) :=
  JsMap.set
    (JsMap.set fields "cached" (Js.JBool (bool_decide (is_Some (c !! cacheKey)))))
    "cacheAge"
    (Js.JNum (match c !! cacheKey with
              | Some en => (now - timestamp en) / 1000
              | None => 0
              end)).

Definition sweepM (now : Z) : M unit :=
  λ w, (Js.Return tt,
        mkWorld (cleanExpiredCache (w_cache w) now) (w_log w ++ [CacheSweep])).

(** The body of [try]. *)
Definition try_body (e : env) (c : clock) (req : request) : M response :=
  (* Clean expired cache entries *)
  _ <- sweepM (at_sweep c) ;;
  if bool_decide (query_action req = Some "list") then
    let cacheKey := "sheet-names-list" in
    sheets <- getCachedData cacheKey (at_lookup c) (fetch_names e) ;;
    λ w, (Js.Return
            (mkResponse 200 None None
               (Some (Js.JObj (cache_fields (w_cache w) cacheKey (at_age c)
                                 [("sheets", sheets)])))), w)
  else
    match Js.nonempty (query_sheet req) with
    | None =>
        ret (mkResponse 400 None None
               (Some (Js.JObj [("error", Js.JStr "Sheet name is required")])))
    | Some sheet =>
        let cacheKey := "sheet-data-" +:+ sheet in
        d <- getCachedData cacheKey (at_lookup c) (fetch_sheet e sheet) ;;
        λ w, (Js.Return
                (mkResponse 200 None None
                   (Some (Js.JObj (cache_fields (w_cache w) cacheKey (at_age c)
                                     (spread d))))), w)
    end.

Local Close Scope handler_scope.

(** [x-forwarded-for?.split(',')[0] || x-real-ip ||
    connection.remoteAddress || 'unknown'] *)
Definition ip_of (req : request) : string :=
  default "unknown"
    (Js.or_else (Js.split_head "," <$> x_forwarded_for req)
       (Js.or_else (x_real_ip req) (Js.nonempty (remoteAddress req)))).

Record outcome : Type := mkOutcome {
  response_of : response;
  state_of : state;
  effects_of : list effect
}.

(** [handler(req, res)] *)
Definition handler (e : env) (c : clock) (st : state) (req : request) : outcome :=
  if String.eqb (method req) "OPTIONS" then
    mkOutcome (mkResponse 200 None None None) st []
  else
    let ip := ip_of req in
    (* Rate limiting check *)
    let '(admitted, rl') := checkRateLimit (rateLimitMap st) ip (at_limit c) in
    if negb admitted then
      mkOutcome
        (mkResponse 429 None None
           (Some (Js.JObj
              [("error",
                Js.JStr "កំពុងមានអ្នកប្រើប្រាស់ច្រើនពេក។ សូមព្យាយាមមួយម៉ោងទៀត។")])))
        (mkState (serverCache st) rl') [RateCheck ip]
    else
      let '(r, w) := try_body e c req (mkWorld (serverCache st) [RateCheck ip]) in
      mkOutcome
        (match r with
         | Js.Return resp => resp
         | Js.Throw message =>
             mkResponse 500 None None
               (Some (Js.JObj [("error", Js.JStr "មិនអាចទាញយកទិន្នន័យបានទេ");
                               ("details", Js.JStr message)]))
         end)
        (mkState (w_cache w) rl') (w_log w).

End Sheets.

(** ** The consolidated api/sheets.js (src/unnamed/part_001) *)
Module SheetsConsolidated.

Import Http.

Definition CACHE_TTL : Z := 5 * 60 * 1000.
Definition MAX_CACHE_SIZE : Z := 100.
Definition RATE_WINDOW : Z := 60000.
Definition MAX_REQUESTS : Z := 30.

(** The two module-level maps. *)
Record state : Type := mkState {
  cache : JsMap.t entry;
  rateLimits : JsMap.t (list Z)
}.

Definition initial : state := mkState JsMap.empty JsMap.empty.

(** [getCacheKey(sheet, action)]; [None] is [null] or a missing argument. *)
Definition getCacheKey (sheet action : option string) : string :=
  match Js.nonempty action with
  | Some a => a
  | None => "sheet:" +:+ default "null" sheet
  end.

(** [getCache(key)]: the data, or [null]; an expired entry is deleted. *)
Definition getCache (c : JsMap.t entry) (key : string) (now : Z)
    : Js.json * JsMap.t entry :=
  match JsMap.get c key with
  | None => (Js.JNull, c)
  | Some item =>
      if bool_decide (now - timestamp item > CACHE_TTL)
      then (Js.JNull, JsMap.delete c key)
      else (data item, c)
  end.

(** [setCache(key, data)] *)
Definition setCache (c : JsMap.t entry) (key : string) (d : Js.json) (now : Z)
    : JsMap.t entry :=
  let c' :=
    if bool_decide (JsMap.size c >= MAX_CACHE_SIZE)
    then JsMap.delete_first c
    else c in
  JsMap.set c' key (mkEntry d now).

(** [cleanCache()], run every two minutes by [setInterval]. *)
Definition cleanCache (c : JsMap.t entry) (now : Z) : JsMap.t entry :=
  filter (λ kv, ¬ (now - timestamp kv.2 > CACHE_TTL)) c.

(** [checkRateLimit(ip)] *)
Definition checkRateLimit (rl : JsMap.t (list Z)) (ip : string) (now : Z)
    : bool * JsMap.t (list Z) :=
  let userRequests := default [] (JsMap.get rl ip) in
  (* Remove old requests *)
  let validRequests := filter (λ t, now - t < RATE_WINDOW) userRequests in
  if bool_decide (Z.of_nat (length validRequests) >= MAX_REQUESTS) then
    (false, rl)
  else
    let rl' := JsMap.set rl ip (validRequests ++ [now]) in
    (* Cleanup old entries *)
    (true, if bool_decide (JsMap.size rl' > 1000) then JsMap.delete_first rl' else rl').

(** The map of windows after a sequence of [checkRateLimit(ip)] calls,
    each with its reading of the clock. *)
Definition run_checks (rl : JsMap.t (list Z)) (calls : list (string * Z))
    : JsMap.t (list Z) :=
  fold_left (λ acc call, (checkRateLimit acc call.1 call.2).2) calls rl.

(** Between requests the map has no key twice and at most 1000 keys. *)
Definition bounded (rl : JsMap.t (list Z)) : Prop :=
  NoDup (JsMap.keys rl) ∧ JsMap.size rl ≤ 1000.

(** [fetchFromGoogleSheets(endpoint)], given what [fetch] comes to. *)
Definition fetchFromGoogleSheets (o : fetch_outcome) : Js.completion Js.json :=
  match o with
  | Rejected message => Js.Throw message
  | Resolved r =>
      if negb (ok r) then
        Js.Throw ("Google Sheets API error: " +:+ Js.of_Z (up_status r)
                  +:+ " - " +:+ up_text r)
      else up_json r
  end.

(** [shouldCompress(data)]: [JSON.stringify(data).length > 1000].  When
    [JSON.stringify(data)] is [undefined], reading its [length] throws a
    TypeError. *)
Definition shouldCompress (e : env) (d : Js.json) : Js.completion bool :=
  if Js.stringifies d
  then Js.Return (bool_decide (text_length e d > 1000))
  else Js.Throw "Cannot read properties of undefined (reading 'length')".

(** [result.values || []] *)
Definition sheet_values (result : Js.json) : Js.completion Js.json :=
  Js.bind (Js.prop result "values") (λ v,
    Js.Return (if Js.truthy v then v else Js.JArr [])).

(** The four readings of [Date.now()] a request can make: in
    [checkRateLimit], in the first [getCache], in [setCache] (after the
    upstream answered) and in the [getCache] of the X-Cache header. *)
Record clock : Type := mkClock {
  at_limit : Z;
  at_lookup : Z;
  at_store : Z;
  at_header : Z
}.

(** The part of the handler inside [try]: it reads and writes the cache,
    may throw, and keeps a record of what it did. *)
Record world : Type := mkWorld {
  w_cache : JsMap.t entry;
  w_log : list effect
}.

Definition M : Type → Type := Http.M world.

Definition getCacheM (key : string) (now : Z) : M Js.json :=
  λ w, let '(v, c') := getCache (w_cache w) key now in
       (Js.Return v, mkWorld c' (w_log w ++ [CacheGet key])).

Definition setCacheM (key : string) (d : Js.json) (now : Z) : M unit :=
  λ w, (Js.Return tt,
        mkWorld (setCache (w_cache w) key d now) (w_log w ++ [CacheSet key])).

Definition fetchM (e : env) (url : string) : M Js.json :=
  λ w, (fetchFromGoogleSheets (fetch e url), mkWorld (w_cache w) (w_log w ++ [Fetch url])).

Definition json_error (st : Z) (fields : list (string * Js.json)) : response :=
  mkResponse st None None (Some (Js.JObj fields)).

Definition hit_or_miss (again : Js.json) : string :=
  match again with
  | Js.JNull => "MISS"
  | _ => "HIT"
  end.

Definition list_url (e : env) : string :=
  "https://sheets.googleapis.com/v4/spreadsheets/" +:+ template (SPREADSHEET_ID e)
  +:+ "?key=" +:+ template (API_KEY e) +:+ "&fields=sheets.properties.title".

Definition values_url (e : env) (sheet : string) : string :=
  "https://sheets.googleapis.com/v4/spreadsheets/" +:+ template (SPREADSHEET_ID e)
  +:+ "/values/" +:+ Js.encodeURIComponent sheet +:+ "?key=" +:+ template (API_KEY e).

Definition configured (e : env) : bool :=
  bool_decide (is_Some (Js.nonempty (API_KEY e))) &&
  bool_decide (is_Some (Js.nonempty (SPREADSHEET_ID e))).

Local Open Scope handler_scope.

(** The body of [try].  The X-Cache header compares the data with a
    second [getCache] by identity: the two are the same object unless the
    second reading finds the entry expired.  What [shouldCompress]
    returns decides the Content-Encoding header, which the response
    record does not keep; that it may throw is kept. *)
Definition try_body (e : env) (c : clock) (req : request) : M response :=
  (* Validate environment variables *)
  if negb (configured e) then
    ret (json_error 500 [("error", Js.JStr "Server configuration error")])
  else if bool_decide (query_action req = Some "list") then
    (* Handle sheet names list *)
    let cacheKey := getCacheKey None (Some "list") in
    cached <- getCacheM cacheKey (at_lookup c) ;;
    sheets <- (if Js.truthy cached then ret cached
               else
                 d <- fetchM e (list_url e) ;;
                 titles <- lift (sheet_titles d) ;;
                 _ <- setCacheM cacheKey titles (at_store c) ;;
                 ret titles) ;;
    again <- getCacheM cacheKey (at_header c) ;;
    ret (mkResponse 200 None (Some (hit_or_miss again))
           (Some (Js.JObj [("sheets", sheets)])))
  else
    (* Handle specific sheet data *)
    match Js.nonempty (query_sheet req) with
    | None =>
        ret (json_error 400
               [("error", Js.JStr "ត្រូវការឈ្មោះសន្លឹក (sheet name required)")])
    | Some sheet =>
        let cacheKey := getCacheKey (Some sheet) None in
        cached <- getCacheM cacheKey (at_lookup c) ;;
        d <- (if Js.truthy cached then ret cached
              else
                result <- fetchM e (values_url e sheet) ;;
                values <- lift (sheet_values result) ;;
                _ <- setCacheM cacheKey values (at_store c) ;;
                ret values) ;;
        again <- getCacheM cacheKey (at_header c) ;;
        (* Compress if needed *)
        _ <- lift (shouldCompress e d) ;;
        ret (mkResponse 200 None (Some (hit_or_miss again))
               (Some (Js.JObj [("values", d); ("range", Js.JStr sheet);
                               ("cached", Js.JBool true)])))
    end.

Local Close Scope handler_scope.

(** The [catch] block. *)
Definition classify (e : env) (message : string) : response :=
  if Js.includes message "404" then
    json_error 404 [("error", Js.JStr "រកមិនឃើញសន្លឹកនេះ");
                    ("details", Js.JStr "Sheet not found")]
  else if Js.includes message "403" || Js.includes message "401" then
    json_error 403 [("error", Js.JStr "មិនមានសិទ្ធិចូលប្រើ");
                    ("details", Js.JStr "Permission denied or invalid API key")]
  else if Js.includes message "ECONNREFUSED" || Js.includes message "ETIMEDOUT" then
    json_error 503 [("error", Js.JStr "មិនអាចភ្ជាប់ទៅ Google Sheets");
                    ("details", Js.JStr "Network error")]
  else
    json_error 500 [("error", Js.JStr "មានបញ្ហាក្នុងការទាញយកទិន្នន័យ");
                    ("details", Js.JStr
                       (if bool_decide (NODE_ENV e = Some "development")
                        then message else "Internal server error"))].

(** [x-forwarded-for?.split(',')[0]?.trim() || x-real-ip ||
    socket.remoteAddress || 'unknown'] *)
Definition ip_of (req : request) : string :=
  default "unknown"
    (Js.or_else ((λ h, Js.trim (Js.split_head "," h)) <$> x_forwarded_for req)
       (Js.or_else (x_real_ip req) (Js.nonempty (remoteAddress req)))).

(** What a request comes to: the response, the two maps afterwards, and
    what was done on the way. *)
Record outcome : Type := mkOutcome {
  response_of : response;
  state_of : state;
  effects_of : list effect
}.

(** [handler(req, res)] *)
Definition handler (e : env) (c : clock) (st : state) (req : request) : outcome :=
  if String.eqb (method req) "OPTIONS" then
    mkOutcome (mkResponse 200 None None None) st []
  else if negb (String.eqb (method req) "GET") then
    (* Only allow GET *)
    mkOutcome (json_error 405 [("error", Js.JStr "Method not allowed")]) st []
  else
    let ip := ip_of req in
    (* Check rate limit *)
    let '(admitted, rl') := checkRateLimit (rateLimits st) ip (at_limit c) in
    if negb admitted then
      mkOutcome
        (mkResponse 429 (Some (Js.ceil_div RATE_WINDOW 1000)) None
           (Some (Js.JObj
              [("error", Js.JStr "សូមរង់ចាំបន្តិច - ប្រើប្រាស់ញឹកញាប់ពេក");
               ("retryAfter", Js.JNum (Js.ceil_div RATE_WINDOW 1000))])))
        (mkState (cache st) rl') [RateCheck ip]
    else
      let '(r, w) := try_body e c req (mkWorld (cache st) [RateCheck ip]) in
      mkOutcome
        (match r with
         | Js.Return resp => resp
         | Js.Throw message => classify e message
         end)
        (mkState (w_cache w) rl') (w_log w).

(** A request that gets as far as asking the upstream for [url]: a GET
    whose address is admitted, on a configured server, for the list of
    sheets or for a sheet, that finds nothing usable in the cache. *)
Definition asks_upstream (e : env) (c : clock) (st : state) (req : request)
    (url : string) : Prop :=
  method req = "GET" ∧
  (checkRateLimit (rateLimits st) (ip_of req) (at_limit c)).1 = true ∧
  configured e = true ∧
  ((query_action req = Some "list" ∧
    Js.truthy (getCache (cache st) "list" (at_lookup c)).1 = false ∧
    url = list_url e)
   ∨
   (query_action req ≠ Some "list" ∧
    ∃ sheet, Js.nonempty (query_sheet req) = Some sheet ∧
      Js.truthy (getCache (cache st) ("sheet:" +:+ sheet) (at_lookup c)).1 = false ∧
      url = values_url e sheet)).

(** The message carries none of the markers the [catch] block looks for. *)
Definition unclassified (message : string) : Prop :=
  Js.includes message "404" = false ∧
  Js.includes message "403" = false ∧
  Js.includes message "401" = false ∧
  Js.includes message "ECONNREFUSED" = false ∧
  Js.includes message "ETIMEDOUT" = false.

(** The cache between requests: no key twice, and no more entries than
    [MAX_CACHE_SIZE]. *)
Definition cache_ok (c : JsMap.t entry) : Prop :=
  NoDup (JsMap.keys c) ∧ JsMap.size c ≤ MAX_CACHE_SIZE.

(** A step of the handler that keeps the cache so. *)
Definition keeps_cache {A} (m : M A) : Prop :=
  ∀ w, cache_ok (w_cache w) → cache_ok (w_cache (m w).2).

(** The two maps after a sequence of requests, each with the process it
    meets and its readings of the clock. *)
Definition serve (st : state) (calls : list (env * clock * request)) : state :=
  fold_left (λ acc x, state_of (handler x.1.1 x.1.2 acc x.2)) calls st.

End SheetsConsolidated.

(** ** api/SheetNames.js (src/api/SheetNames.js) *)
Module SheetNames.

Import Http.

(** What [fetch] comes to here: the response also shows its status text. *)
Inductive fetched : Type :=
  | Answered (r : upstream_response) (statusText : string)
  | Unreachable (message : string).

Record env : Type := mkEnv {
  API_KEY : option string;
  SPREADSHEET_ID : option string;
  fetch : string → fetched
}.

Definition url_of (e : env) : string :=
  "https://sheets.googleapis.com/v4/spreadsheets/" +:+ template (SPREADSHEET_ID e)
  +:+ "?key=" +:+ template (API_KEY e).

(** The body of [try]: the data to send, or the message thrown; with the
    URLs fetched on the way. *)
Definition try_body (e : env) : Js.completion Js.json * list effect :=
  match Js.nonempty (API_KEY e), Js.nonempty (SPREADSHEET_ID e) with
  | Some _, Some _ =>
      match fetch e (url_of e) with
      | Unreachable message => (Js.Throw message, [Fetch (url_of e)])
      | Answered r statusText =>
          if negb (ok r) then
            (Js.Throw ("Google Sheets API error: " +:+ Js.of_Z (up_status r)
                       +:+ " " +:+ statusText),
             [Fetch (url_of e)])
          else (up_json r, [Fetch (url_of e)])
      end
  | _, _ => (Js.Throw "API key or Spreadsheet ID not configured", [])
  end.

(** [handler(req, res)]: the response and what was fetched. *)
Definition handler (e : env) : response * list effect :=
  match try_body e with
  | (Js.Return d, log) => (mkResponse 200 None None (Some d), log)
  | (Js.Throw message, log) =>
      (mkResponse 500 None None
         (Some (Js.JObj [("error", Js.JStr "មិនអាចទាញយកឈ្មោះស៊ីតបានទេ");
                         ("details", Js.JStr message)])),
       log)
  end.

End SheetNames.

(** ** What a service worker sees: requests, responses, named cache stores *)
Module Worker.

(** A response body: some text, or the text [JSON.stringify] makes of a
    value. *)
Inductive body : Type :=
  | Text (s : string)
  | Stringified (v : Js.json).

Record response : Type := mkResponse {
  status : Z;
  statusText : string;
  headers : list (string * string);
  content : body
}.

(** An intercepted request: its method, its URL, which is its identity
    in a cache store, the parts [new URL(request.url)] gives, and its
    destination. *)
Record request : Type := mkRequest {
  method : string;
  url : string;
  origin : string;
  hostname : string;
  pathname : string;
  destination : string
}.

(** What [fetch(request)] comes to. *)
Inductive net : Type :=
  | Resolved (r : response)
  | Failed.

(** One cache store, by URL; and [caches], the named stores in the order
    of their creation. *)
Definition caches : Type := JsMap.t (gmap string response).

(** [caches.open(name)] creates the store when there is none. *)
Definition caches_open (cs : caches) (name : string) : caches :=
  if JsMap.has cs name then cs else JsMap.set cs name ∅.

Definition store_of (cs : caches) (name : string) : gmap string response :=
  default ∅ (JsMap.get cs name).

(** A store holds the responses to GET requests only: [cache.put]
    rejects with a TypeError for a request of another method, and
    [cache.match] finds nothing for one. *)
Definition cacheable (req : request) : bool := String.eqb (method req) "GET".

(** What [cache.put] does to the store [name] when it accepts the
    request, which is kept under its URL. *)
Definition cache_put (cs : caches) (name u : string) (r : response) : caches :=
  JsMap.set cs name (<[u := r]> (store_of cs name)).

(** [cache.match(url)] on the store [name], for a URL, which stands for
    the GET request of it ([None] is [undefined]). *)
Definition cache_match (cs : caches) (name u : string) : option response :=
  store_of cs name !! u.

(** [cache.match(request)] on the store [name]. *)
Definition cache_match_request (cs : caches) (name : string) (req : request)
    : option response :=
  if cacheable req then cache_match cs name (url req) else None.

(** [caches.match(url)]: the first store that has it. *)
Fixpoint caches_match (cs : caches) (u : string) : option response :=
  match cs with
  | [] => None
  | (_, st) :: rest =>
      match st !! u with
      | Some r => Some r
      | None => caches_match rest u
      end
  end.

(** [caches.match(request)] *)
Definition caches_match_request (cs : caches) (req : request) : option response :=
  if cacheable req then caches_match cs (url req) else None.

(** What a strategy comes to: what [respondWith] receives ([None] is
    [undefined], which fails the request), the stores once every
    [cache.put] it started is done, and those writes in order. *)
Record result : Type := mkResult {
  answer : option response;
  caches_after : caches;
  puts : list (string * string * response)
}.

(** The stores after a sequence of writes. *)
Definition apply_puts (cs : caches) (ps : list (string * string * response)) : caches :=
  fold_left (λ acc p, cache_put acc p.1.1 p.1.2 p.2) ps cs.

(** [if (networkResponse && networkResponse.status === 200)
    cache.put(request, networkResponse.clone())]: the stores afterwards
    and the write made, or [None] when [cache.put] rejects. *)
Definition put_if_200 (cs : caches) (name : string) (req : request) (r : response)
    : option (caches * list (string * string * response)) :=
  if status r =? 200 then
    if cacheable req
    then Some (cache_put cs name (url req) r, [(name, url req, r)])
    else None
  else Some (cs, []).

(** Letters of header names compare without regard to case. *)
Definition lower (c : ascii) : ascii :=
  let n := Ascii.N_of_ascii c in
  if (65 <=? n)%N && (n <=? 90)%N then Ascii.ascii_of_N (n + 32) else c.

Fixpoint lowercase (s : string) : string :=
  match s with
  | EmptyString => EmptyString
  | String c rest => String (lower c) (lowercase rest)
  end.

Definition same_name (a b : string) : bool :=
  String.eqb (lowercase a) (lowercase b).

(** [headers.get(name)] ([None] is [null]) *)
Fixpoint headers_get (hs : list (string * string)) (name : string) : option string :=
  match hs with
  | [] => None
  | (k, v) :: rest =>
      if String.eqb (lowercase k) (lowercase name) then Some v
      else headers_get rest name
  end.

(** [headers.delete(name)] *)
Definition headers_delete (hs : list (string * string)) (name : string)
    : list (string * string) :=
  filter (λ kv, same_name kv.1 name = false) hs.

(** [headers.set(name, value)]: the first header of that name takes the
    value and the others of that name go; without one the header is
    appended. *)
Fixpoint headers_set (hs : list (string * string)) (name value : string)
    : list (string * string) :=
  match hs with
  | [] => [(name, value)]
  | (k, v) :: rest =>
      if same_name k name then (k, value) :: headers_delete rest name
      else (k, v) :: headers_set rest name value
  end.

End Worker.

(** ** sw.js, version 2.0.0 (src/sw.js) *)
Module SW.

Import Worker.

Definition VERSION : string := "2.0.0".
Definition CACHE_STATIC : string := "samaki-static-v" +:+ VERSION.
Definition CACHE_DYNAMIC : string := "samaki-dynamic-v" +:+ VERSION.
Definition CACHE_API : string := "samaki-api-v" +:+ VERSION.

(** The URLs of [STATIC_ASSETS], resolved against the worker's origin. *)
Definition STATIC_ASSETS (self_origin : string) : list string :=
  [ self_origin +:+ "/";
    self_origin +:+ "/index.html";
    self_origin +:+ "/tracking.html";
    self_origin +:+ "/manifest.json";
    "https://cdn.jsdelivr.net/npm/bootstrap@5.3.0/dist/css/bootstrap.min.css";
    "https://cdnjs.cloudflare.com/ajax/libs/font-awesome/6.4.0/css/all.min.css";
    "https://fonts.googleapis.com/css2?family=Battambang:wght@300;400;600;700&family=Moul&display=swap" ].

(** The install event: [cache.addAll] stores every asset, or none when one
    of them cannot be fetched with an ok status. *)
Definition install (self_origin : string) (fetch : string → net) (cs : caches) : caches :=
  let cs := caches_open cs CACHE_STATIC in
  match
    mapM (λ u, match fetch u with
               | Resolved r =>
                   if (200 <=? status r) && (status r <=? 299) then Some (u, r) else None
               | Failed => None
               end) (STATIC_ASSETS self_origin)
  with
  | Some entries =>
      fold_left (λ acc ur, cache_put acc CACHE_STATIC ur.1 ur.2) entries cs
  | None => cs
  end.

(** The first of the two activate listeners (46-69): the stores of other
    versions are deleted. *)
Definition activate (cs : caches) : caches :=
  filter (λ kv, ¬ (Js.startsWith kv.1 "samaki-" = true ∧
                   Js.includes kv.1 VERSION = false)) cs.

(** [handleAPIRequest]: network first, with a short cache.  The [catch]
    block is entered when the fetch fails and also when the awaited
    [cache.put] rejects. *)
Definition handleAPIRequest (cs : caches) (req : request) (n : net) : result :=
  let cs := caches_open cs CACHE_API in
  let catch :=
    match cache_match_request cs CACHE_API req with
    | Some cachedResponse =>
        (* Add header to indicate cached response *)
        mkResult
          (Some (mkResponse (status cachedResponse) (statusText cachedResponse)
                   (headers_set (headers cachedResponse) "X-Cached" "true")
                   (content cachedResponse)))
          cs []
    | None =>
        mkResult
          (Some (mkResponse 503 ""
                   [("Content-Type", "application/json")]
                   (Stringified (Js.JObj
                      [("error", Js.JStr "អ៊ីនធឺណិតមានបញ្ហា");
                       ("offline", Js.JBool true);
                       ("cached", Js.JBool false)]))))
          cs []
    end in
  match n with
  | Resolved networkResponse =>
      match put_if_200 cs CACHE_API req networkResponse with
      | Some (cs', ps) => mkResult (Some networkResponse) cs' ps
      | None => catch
      end
  | Failed => catch
  end.

(** The shape [handleStaticRequest] and [handleDynamicRequest] share:
    cache first; a cached copy is refreshed in the background, where a
    [cache.put] that rejects is not waited for and changes nothing.
    [new Response(text, { status: 503 })] has the content type of a
    text. *)
Definition cache_first (name offline_text : string) (cs : caches) (req : request)
    (n : net) : result :=
  let cs := caches_open cs name in
  match cache_match_request cs name req with
  | Some cachedResponse =>
      (* Update cache in background *)
      match n with
      | Resolved networkResponse =>
          match put_if_200 cs name req networkResponse with
          | Some (cs', ps) => mkResult (Some cachedResponse) cs' ps
          | None => mkResult (Some cachedResponse) cs []
          end
      | Failed => mkResult (Some cachedResponse) cs []
      end
  | None =>
      let catch :=
        mkResult
          (Some (mkResponse 503 "" [("content-type", "text/plain;charset=UTF-8")]
                   (Text offline_text)))
          cs [] in
      match n with
      | Resolved networkResponse =>
          match put_if_200 cs name req networkResponse with
          | Some (cs', ps) => mkResult (Some networkResponse) cs' ps
          | None => catch
          end
      | Failed => catch
      end
  end.


(** [handleStaticRequest] *)
Definition handleStaticRequest : caches → request → net → result :=
  cache_first CACHE_STATIC "Offline".

(** [handleDynamicRequest] *)
Definition handleDynamicRequest : caches → request → net → result :=
  cache_first CACHE_DYNAMIC "Resource unavailable offline".

(** [handleDocumentRequest]: network first; in the [catch] block, which a
    failed fetch and a rejected [cache.put] both reach, the copy in the
    dynamic store, else [cache.match('/index.html')] on that same store. *)
Definition handleDocumentRequest (self_origin : string) (cs : caches) (req : request)
    (n : net) : result :=
  let cs := caches_open cs CACHE_DYNAMIC in
  let catch :=
    match cache_match_request cs CACHE_DYNAMIC req with
    | Some cachedResponse => mkResult (Some cachedResponse) cs []
    | None =>
        (* Return offline page *)
        mkResult (cache_match cs CACHE_DYNAMIC (self_origin +:+ "/index.html")) cs []
    end in
  match n with
  | Resolved networkResponse =>
      match put_if_200 cs CACHE_DYNAMIC req networkResponse with
      | Some (cs', ps) => mkResult (Some networkResponse) cs' ps
      | None => catch
      end
  | Failed => catch
  end.

Definition staticExtensions : list string :=
  [".css"; ".js"; ".woff"; ".woff2"; ".ttf"; ".svg"; ".png"; ".jpg"; ".jpeg"; ".gif"].

Definition staticHosts : list string :=
  ["cdn.jsdelivr.net"; "cdnjs.cloudflare.com"; "fonts.googleapis.com"; "fonts.gstatic.com"].

(** [isStaticAsset(url)] *)
Definition isStaticAsset (req : request) : bool :=
  existsb (λ ext, Js.endsWith (pathname req) ext) staticExtensions ||
  existsb (λ host, Js.includes (hostname req) host) staticHosts.

(** The strategy the fetch listener picks. *)
Inductive strategy : Type :=
  | NotIntercepted
  | Api
  | Static
  | Document
  | Dynamic.

Definition route (self_origin : string) (req : request) : strategy :=
  (* Skip cross-origin requests except for specific CDNs *)
  if negb (String.eqb (origin req) self_origin) &&
     negb (Js.includes (hostname req) "cdn.jsdelivr.net") &&
     negb (Js.includes (hostname req) "cdnjs.cloudflare.com") &&
     negb (Js.includes (hostname req) "fonts.googleapis.com") &&
     negb (Js.includes (hostname req) "fonts.gstatic.com")
  then NotIntercepted
  else if Js.startsWith (pathname req) "/api/" then Api
  else if isStaticAsset req then Static
  else if String.eqb (destination req) "document" then Document
  else Dynamic.

(** The fetch listener; [None] when the request is left to the browser. *)
Definition on_fetch (self_origin : string) (cs : caches) (req : request) (n : net)
    : option result :=
  match route self_origin req with
  | NotIntercepted => None
  | Api => Some (handleAPIRequest cs req n)
  | Static => Some (handleStaticRequest cs req n)
  | Document => Some (handleDocumentRequest self_origin cs req n)
  | Dynamic => Some (handleDynamicRequest cs req n)
  end.

(** The message event: [type] is [event.data.type], when there is one.
    The result tells whether [skipWaiting] was called, what [caches] holds
    afterwards, and the version posted back. *)
Record message_result : Type := mkMessageResult {
  skipped_waiting : bool;
  stores : caches;
  version_reply : option string
}.

Definition on_message (type : option string) (cs : caches) : message_result :=
  {| skipped_waiting := bool_decide (type = Some "SKIP_WAITING");
     stores := if bool_decide (type = Some "CLEAR_CACHE") then [] else cs;
     version_reply :=
       if bool_decide (type = Some "GET_VERSION") then Some VERSION else None |}.

(** [CACHE_EXPIRY] *)
Definition EXPIRY_static : Z := 7 * 24 * 60 * 60 * 1000.
Definition EXPIRY_dynamic : Z := 24 * 60 * 60 * 1000.
Definition EXPIRY_api : Z := 5 * 60 * 1000.

(** The [maxAge] that [cleanupOldCaches] picks for a store. *)
Definition maxAge_of (cacheName : string) : Z :=
  let maxAge := EXPIRY_dynamic in
  let maxAge := if Js.includes cacheName "static" then EXPIRY_static else maxAge in
  if Js.includes cacheName "api" then EXPIRY_api else maxAge.

(** [new Date(response.headers.get('date'))], in milliseconds: a missing
    header is [null], whose date is the epoch; a header that does not
    parse gives an invalid date ([None]).  [parse] is [Date.parse]. *)
Definition cacheDate (parse : string → option Z) (r : response) : option Z :=
  match headers_get (headers r) "date" with
  | None => Some 0
  | Some text => parse text
  end.

(** [age > maxAge]; no comparison with an invalid date holds. *)
Definition too_old (parse : string → option Z) (now : Z) (cacheName : string)
    (r : response) : bool :=
  match cacheDate parse r with
  | Some date => bool_decide (now - date > maxAge_of cacheName)
  | None => false
  end.

(** [cleanupOldCaches()], on the stores that [caches.keys()] lists;
    [clock name u] is the reading of [new Date()] when the entry [u] of
    the store [name] is looked at. *)
Definition cleanupOldCaches (parse : string → option Z) (clock : string → string → Z)
    (cs : caches) : caches :=
  map (λ kv : string * gmap string response,
         if Js.startsWith kv.1 "samaki-" then
           (kv.1,
            filter (λ ur : string * response,
                      too_old parse (clock kv.1 ur.1) kv.1 ur.2 = false) kv.2)
         else kv) cs.

(** A store of another version, which the first activate listener
    deletes. *)
Definition old_version (name : string) : bool :=
  Js.startsWith name "samaki-" && negb (Js.includes name VERSION).

(** The activate event.  sw.js registers two listeners for it: [activate]
    above (46-69) and a second one (345-348) that runs
    [cleanupOldCaches].  Each reads [caches.keys()] as the event starts
    and goes on asynchronously.  The first deletes the stores of other
    versions; the second examines every [samaki-] store that was listed,
    opening it by name, which creates a store of another version again,
    empty, when its deletion came first: [reopened name] tells whether it
    did.  The stores created again are the last. *)
Definition on_activate (parse : string → option Z) (clock : string → string → Z)
    (reopened : string → bool) (cs : caches) : caches :=
  activate (cleanupOldCaches parse clock cs) ++
  map (λ kv : string * gmap string response, (kv.1, ∅))
    (filter (λ kv : string * gmap string response,
               old_version kv.1 = true ∧ reopened kv.1 = true) cs).

(** The store a strategy works on. *)
Definition store_name (s : strategy) : string :=
  match s with
  | Api => CACHE_API
  | Static => CACHE_STATIC
  | Document | Dynamic => CACHE_DYNAMIC
  | NotIntercepted => ""
  end.

(** The writes of a strategy, as the properties describe them: one, of
    the network response into its own store, when the fetch resolved
    with status 200 for a GET request; none otherwise. *)
Definition writes_of (name : string) (req : request) (n : net)
    : list (string * string * response) :=
  match n with
  | Resolved r =>
      if bool_decide (status r = 200) && cacheable req then [(name, url req, r)] else []
  | Failed => []
  end.

End SW.

(** ** sw.js, version 1.0.0 (src/unnamed/part_000) *)
Module SWv1.

Import Worker.

Definition STATIC_CACHE : string := "samaki-static-v1".
Definition DYNAMIC_CACHE : string := "samaki-dynamic-v1".

(** [caches.open(DYNAMIC_CACHE).then(cache => cache.put(request, r))],
    which nothing waits for: the store is opened, and the write is made
    unless [cache.put] rejects. *)
Definition put_dynamic (cs : caches) (req : request) (r : response)
    : caches * list (string * string * response) :=
  let cs := caches_open cs DYNAMIC_CACHE in
  if cacheable req
  then (cache_put cs DYNAMIC_CACHE (url req) r, [(DYNAMIC_CACHE, url req, r)])
  else (cs, []).

(** The fetch listener.  API calls are never cached; everything else is
    served cache first, from whichever store has it. *)
Definition on_fetch (self_origin : string) (cs : caches) (req : request) (n : net)
    : result :=
  if Js.startsWith (pathname req) "/api/" then
    (* Skip caching for API calls (always fetch fresh) *)
    match n with
    | Resolved networkResponse => mkResult (Some networkResponse) cs []
    | Failed =>
        mkResult
          (Some (mkResponse 503 ""
                   [("Content-Type", "application/json")]
                   (Stringified (Js.JObj
                      [("error",
                        Js.JStr "អ៊ីនធឺណិតមានបញ្ហា។ សូមពិនិត្យការតភ្ជាប់របស់អ្នក");
                       ("offline", Js.JBool true)]))))
          cs []
    end
  else
    match caches_match_request cs req with
    | Some cachedResponse =>
        (* Update cache in background *)
        match n with
        | Resolved networkResponse =>
            if status networkResponse =? 200 then
              let '(cs', ps) := put_dynamic cs req networkResponse in
              mkResult (Some cachedResponse) cs' ps
            else mkResult (Some cachedResponse) cs []
        | Failed => mkResult (Some cachedResponse) cs []
        end
    | None =>
        (* Not in cache - fetch from network *)
        match n with
        | Resolved networkResponse =>
            if negb (status networkResponse =? 200) then
              mkResult (Some networkResponse) cs []
            else
              (* Cache the new response *)
              let '(cs', ps) := put_dynamic cs req networkResponse in
              mkResult (Some networkResponse) cs' ps
        | Failed =>
            (* Network failed and not in cache *)
            if String.eqb (destination req) "document" then
              mkResult (caches_match cs (self_origin +:+ "/index.html")) cs []
            else
              mkResult
                (Some (mkResponse 503 "Service Unavailable"
                         [("Content-Type", "text/plain; charset=utf-8")]
                         (Text "Offline - មិនមានអ៊ីនធឺណិត")))
                cs []
        end
    end.

(** The URLs of [STATIC_ASSETS], resolved against the worker's origin. *)
Definition STATIC_ASSETS (self_origin : string) : list string :=
  [ self_origin +:+ "/";
    self_origin +:+ "/index.html";
    self_origin +:+ "/tracking.html";
    "https://cdn.jsdelivr.net/npm/bootstrap@5.3.0/dist/css/bootstrap.min.css";
    "https://cdnjs.cloudflare.com/ajax/libs/font-awesome/6.4.0/css/all.min.css";
    "https://cdn.jsdelivr.net/npm/chart.js";
    "https://cdn.jsdelivr.net/npm/bootstrap@5.3.0/dist/js/bootstrap.bundle.min.js";
    "https://fonts.googleapis.com/css2?family=Battambang:wght@100;300;400;700;900&family=Moul&family=Siemreap&display=swap";
    "https://upload.wikimedia.org/wikipedia/commons/4/4a/Emblem_of_the_Ministry_of_Education%2C_Youth_and_Sport_%28Cambodia%29.svg" ].

(** The install event: [cache.addAll] stores every asset, or none. *)
Definition install (self_origin : string) (fetch : string → net) (cs : caches) : caches :=
  let cs := caches_open cs STATIC_CACHE in
  match
    mapM (λ u, match fetch u with
               | Resolved r =>
                   if (200 <=? status r) && (status r <=? 299) then Some (u, r) else None
               | Failed => None
               end) (STATIC_ASSETS self_origin)
  with
  | Some entries =>
      fold_left (λ acc ur, cache_put acc STATIC_CACHE ur.1 ur.2) entries cs
  | None => cs
  end.

(** The activate event: every store but the two of this version goes. *)
Definition activate (cs : caches) : caches :=
  filter (λ kv, ¬ (kv.1 ≠ STATIC_CACHE ∧ kv.1 ≠ DYNAMIC_CACHE)) cs.

(** The message event: whether [skipWaiting] was called, and the stores
    afterwards. *)
Definition on_message (type : option string) (cs : caches) : bool * caches :=
  (bool_decide (type = Some "SKIP_WAITING"),
   if bool_decide (type = Some "CLEAR_CACHE") then [] else cs).

End SWv1.

(** ** Concrete inputs for the examples *)
Module Scenario.

(** A cache that holds [MAX_CACHE_SIZE] sheets, [sheet:0] the earliest
    inserted, all written at [t = 0]. *)
Definition full_cache : JsMap.t Http.entry :=
  map (λ i : nat, ("sheet:" +:+ pretty i, Http.mkEntry (Js.JArr []) 0)) (seq 0 100).

(** Thirty requests of [10.0.0.0] at [t = 0], then one request of each
    of 999 other addresses. *)
Definition busy_history : list (string * Z) :=
  replicate 30 ("10.0.0.0", 0) ++
  map (λ i : nat, ("10.0.0." +:+ pretty i, 0)) (seq 1 999).

(** A request for the sheet [Roster] from [203.0.113.7], and one from the
    same address that names no sheet. *)
Definition roster_request : Http.request :=
  Http.mkRequest "GET" (Some "203.0.113.7") None None (Some "Roster") None.

Definition bare_request : Http.request :=
  Http.mkRequest "GET" (Some "203.0.113.7") None None None None.

(** That address has used its thirty requests at [t = 0]. *)
Definition exhausted : SheetsConsolidated.state :=
  SheetsConsolidated.mkState [] [("203.0.113.7", replicate 30 0)].

Definition exhausted_legacy : Sheets.state :=
  Sheets.mkState ∅ {[ "203.0.113.7" := replicate 30 0 ]}.

Definition exhausted_limiter : RateLimiter.t :=
  RateLimiter.mk 30 60000 {[ "203.0.113.7" := replicate 30 0 ]}.

(** Every reading of the clock is [t]. *)
Definition at_time (t : Z) : SheetsConsolidated.clock :=
  SheetsConsolidated.mkClock t t t t.

Definition at_time_legacy (t : Z) : Sheets.clock :=
  Sheets.mkClock t t t t.

(** A configured server whose upstream answers every request with the
    given outcome; and a server without its credentials. *)
Definition server (o : Http.fetch_outcome) : Http.env :=
  Http.mkEnv (Some "key") (Some "sheet-id") None (λ _, o) (λ _, 2).

Definition unconfigured : Http.env :=
  Http.mkEnv None None None (λ _, Http.Rejected "fetch failed") (λ _, 2).

(** The upstream denies access, and its error text happens to hold the
    digits 404. *)
Definition denied : Http.fetch_outcome :=
  Http.Resolved
    (Http.mkUpstream 403
       "The caller does not have permission (project 74040412)"
       (Js.Throw "unused")).

(** The upstream does not know the sheet. *)
Definition not_found : Http.fetch_outcome :=
  Http.Resolved
    (Http.mkUpstream 404 "Requested entity was not found." (Js.Throw "unused")).

(** The upstream returns the sheet [Roster]. *)
Definition roster_rows : Js.json :=
  Js.JArr [Js.JArr [Js.JStr "Name"; Js.JStr "Grade"];
           Js.JArr [Js.JStr "Sokha"; Js.JStr "7A"]].

Definition roster : Http.fetch_outcome :=
  Http.Resolved
    (Http.mkUpstream 200 "unused"
       (Js.Return (Js.JObj [("range", Js.JStr "Roster!A1:B2");
                            ("majorDimension", Js.JStr "ROWS");
                            ("values", roster_rows)]))).

(** The worker of [https://samakischool.app], freshly installed while
    every asset could be fetched; a navigation to a page that was never
    visited; and a call of the API. *)
Definition app_origin : string := "https://samakischool.app".

(** The assets are served with a Date header; [Date_parse] is
    [Date.parse] on that one date, and activation happens a minute
    later. *)
Definition fetched_at : string := "Mon, 02 Nov 2026 08:00:00 GMT".

Definition Date_parse (text : string) : option Z :=
  if String.eqb text fetched_at then Some 1793606400000 else None.

Definition asset (u : string) : Worker.response :=
  Worker.mkResponse 200 "OK" [("date", fetched_at)] (Worker.Text u).

Definition installed : Worker.caches :=
  SW.on_activate Date_parse (λ _ _, 1793606460000) (λ _, true)
    (SW.install app_origin (λ u, Worker.Resolved (asset u)) JsMap.empty).

Definition reports_page : Worker.request :=
  Worker.mkRequest "GET" (app_origin +:+ "/reports") app_origin "samakischool.app"
    "/reports" "document".

Definition api_call : Worker.request :=
  Worker.mkRequest "GET" (app_origin +:+ "/api/sheets?sheet=Roster") app_origin
    "samakischool.app" "/api/sheets" "".

(** A POST to the rate-limit endpoint, which answers 200 to any method. *)
Definition api_post : Worker.request :=
  Worker.mkRequest "POST" (app_origin +:+ "/api/rate-limit") app_origin
    "samakischool.app" "/api/rate-limit" "".

(** A stylesheet of the application. *)
Definition stylesheet : Worker.request :=
  Worker.mkRequest "GET" (app_origin +:+ "/app.css") app_origin "samakischool.app"
    "/app.css" "style".

(** A static store with an entry that carries no Date header, as a
    response made by a script does. *)
Definition undated : Worker.caches :=
  [(SW.CACHE_STATIC,
    {[ app_origin +:+ "/index.html"
       := Worker.mkResponse 200 "OK" [] (Worker.Text "<!doctype html>") ]})].

(** The upstream answers with a bare array. *)
Definition bare_array : Http.fetch_outcome :=
  Http.Resolved (Http.mkUpstream 200 "unused" (Js.Return (Js.JArr []))).

(** The windows that history leaves. *)
Definition busy_map : JsMap.t (list Z) :=
  ("10.0.0.0", replicate 30 0) ::
  map (λ i : nat, ("10.0.0." +:+ pretty i, [0])) (seq 1 999).

End Scenario.

(** Membership in a list that is written out. *)
Ltac in_list := repeat first [apply list_elem_of_here | apply list_elem_of_further].

(* ===================================================================== *)
(** * Part II. Properties                                                 *)
(* ===================================================================== *)

(** ** The string helpers on small inputs *)
Section StringExamples.

Example includes_examples :
  Js.includes "Google Sheets API error: 404 - Not Found" "404" = true ∧
  Js.includes "connect ECONNREFUSED 10.0.0.1:443" "ECONNREFUSED" = true ∧
  Js.includes "fetch failed" "ETIMEDOUT" = false ∧
  Js.includes "40" "404" = false ∧
  Js.includes "" "" = true.
Proof. repeat split; reflexivity. Qed.

Example endsWith_examples :
  Js.endsWith "/assets/app.css" ".css" = true ∧
  Js.endsWith "/tracking.html" ".js" = false ∧
  Js.endsWith "js" ".js" = false.
Proof. repeat split; reflexivity. Qed.

Example header_examples :
  Js.trim (Js.split_head "," " 203.0.113.7 , 10.0.0.1") = "203.0.113.7" ∧
  Js.split_head "," "" = "" ∧
  Js.or_else (Some "") (Some "10.0.0.9") = Some "10.0.0.9".
Proof. repeat split; reflexivity. Qed.

Example trim_examples :
  Js.trim (Js.of_bytes [194; 160; 32]%N +:+ "10.0.0.1" +:+ Js.of_bytes [239; 187; 191; 9]%N)
  = "10.0.0.1" ∧
  Js.trim (Js.of_bytes [226; 128; 139]%N +:+ "x") = Js.of_bytes [226; 128; 139]%N +:+ "x" ∧
  Js.trim (Js.of_bytes [32; 226; 128; 168]%N) = "".
Proof. repeat split; reflexivity. Qed.

Example spread_examples :
  Sheets.spread (Js.JStr "ab") = [("0", Js.JStr "a"); ("1", Js.JStr "b")] ∧
  Sheets.spread (Js.JStr (Js.of_bytes [225; 158; 128; 240; 159; 152; 128]%N))
  = [("0", Js.JStr (Js.of_bytes [225; 158; 128]%N));
     ("1", Js.JStr (Js.of_bytes [237; 160; 189]%N));
     ("2", Js.JStr (Js.of_bytes [237; 184; 128]%N))] ∧
  Sheets.spread (Js.JArr [Js.JNum 7]) = [("0", Js.JNum 7)] ∧
  Sheets.spread Js.JNull = [].
Proof. repeat split; reflexivity. Qed.

Example prop_examples :
  Js.prop (Js.JArr []) "values" = Js.Return (Js.JFun "values") ∧
  Js.prop (Js.JArr []) "sheets" = Js.Return Js.JUndefined ∧
  Js.prop (Js.JObj [("values", Js.JArr [])]) "values" = Js.Return (Js.JArr []) ∧
  Js.prop (Js.JStr "values") "values" = Js.Return Js.JUndefined.
Proof. repeat split; reflexivity. Qed.

Example headers_examples :
  Worker.headers_set [("Content-Type", "text/html"); ("x-cached", "false")]
    "X-Cached" "true"
  = [("Content-Type", "text/html"); ("x-cached", "true")] ∧
  Worker.headers_set [("Content-Type", "text/html")] "X-Cached" "true"
  = [("Content-Type", "text/html"); ("X-Cached", "true")] ∧
  Worker.headers_get [("X-Cached", "true")] "x-cached" = Some "true".
Proof. repeat split; reflexivity. Qed.

Example encodeURIComponent_example :
  Js.encodeURIComponent "Grade 7/A" = "Grade%207%2FA".
Proof. reflexivity. Qed.

Example ceil_examples :
  Js.ceil_div 60000 1000 = 60 ∧ Js.ceil_div 1 1000 = 1 ∧
  Js.ceil_div 0 1000 = 0 ∧ Js.ceil_div (-1) 1000 = 0.
Proof. repeat split; reflexivity. Qed.

End StringExamples.

(** ** Lists of timestamps *)
Section Timestamps.

Lemma prune_prune (a b : Z) (ts : list Z) :
  a ≤ b → RateLimiter.prune b (RateLimiter.prune a ts) = RateLimiter.prune b ts.
Proof.
  intros Hab. unfold RateLimiter.prune.
  apply list_filter_filter_l. intros x. lia.
Qed.

Lemma prune_app (a : Z) (l1 l2 : list Z) :
  RateLimiter.prune a (l1 ++ l2) = RateLimiter.prune a l1 ++ RateLimiter.prune a l2.
Proof. apply filter_app. Qed.

Lemma prune_length_mono (a b : Z) (ts : list Z) :
  a ≤ b →
  (length (RateLimiter.prune b ts) ≤ length (RateLimiter.prune a ts))%nat.
Proof.
  intros Hab. rewrite <- (prune_prune a b) by done.
  apply length_filter.
Qed.

Lemma Math_min_least (ts : list Z) (m : Z) :
  Js.Math_min ts = Js.Num m ↔ m ∈ ts ∧ Forall (λ t, m ≤ t) ts.
Proof.
  revert m. induction ts as [|x r IH]; intros m; simpl.
  - split; [done|]. intros [H _]. by apply elem_of_nil in H.
  - destruct (Js.Math_min r) as [m'|] eqn:E.
    + pose proof (proj1 (IH m') eq_refl) as [Hin Hall].
      split.
      * intros [= <-]. split.
        -- destruct (Z.min_spec x m') as [[_ ->]|[_ ->]];
             [apply list_elem_of_here | by apply list_elem_of_further].
        -- constructor; [lia|]. eapply Forall_impl; [exact Hall|]. simpl. lia.
      * intros [Hm Hle]. f_equal.
        apply Forall_cons in Hle as [Hx Hr].
        rewrite Forall_forall in Hr, Hall.
        apply elem_of_cons in Hm as [->|Hm].
        -- specialize (Hr _ Hin). lia.
        -- specialize (Hr _ Hin). specialize (Hall _ Hm). lia.
    + assert (r = []) as -> by (destruct r as [|y r']; [done|]; simpl in E;
        destruct (Js.Math_min r'); done).
      split.
      * intros [= <-]. split; [apply list_elem_of_here|]. by repeat constructor.
      * intros [Hm _]. apply list_elem_of_singleton in Hm. by subst.
Qed.

End Timestamps.

(** ** The rate limiter of api/rate-limit.js *)
Section RateLimiterProperties.

Import RateLimiter.

Lemma check_config (rl : t) (id : string) (now : Z) :
  maxRequests (check rl id now).2 = maxRequests rl ∧
  windowMs (check rl id now).2 = windowMs rl.
Proof. unfold check. by case_bool_decide. Qed.

(** The window [check] works on, after its pruning step. *)
Lemma check_pruned_window (rl : t) (id : string) (now : Z) :
  default [] (match requests rl !! id with
              | Some ts => <[id := prune (now - windowMs rl) ts]> (requests rl)
              | None => requests rl
              end !! id)
  = prune (now - windowMs rl) (window rl id).
Proof.
  unfold window. destruct (requests rl !! id) as [ts|] eqn:E.
  - by rewrite lookup_insert_eq.
  - by rewrite E.
Qed.

(** [check], read through the window of the identifier it is called for. *)
Lemma check_unfold (rl : t) (id : string) (now : Z) :
  let w := prune (now - windowMs rl) (window rl id) in
  (maxRequests rl ≤ Z.of_nat (length w) ∧
   (check rl id now).1 = mkResult false 0 (Js.plus (Js.Math_min w) (windowMs rl)) ∧
   prune (now - windowMs rl) (window (check rl id now).2 id) = w)
  ∨
  (Z.of_nat (length w) < maxRequests rl ∧
   (check rl id now).1 =
     mkResult true (maxRequests rl - Z.of_nat (length (w ++ [now])))
              (Js.Num (now + windowMs rl)) ∧
   window (check rl id now).2 id = w ++ [now]).
Proof.
  intros w. unfold check. rewrite check_pruned_window. fold w.
  case_bool_decide as Hfull.
  - left. split; [done|]. split; [done|].
    unfold window at 1. simpl.
    destruct (requests rl !! id) as [ts|] eqn:E.
    + rewrite lookup_insert_eq. simpl. subst w. unfold window. rewrite E. simpl.
      by apply prune_prune.
    + rewrite E. simpl. subst w. unfold window. by rewrite E.
  - right. split; [lia|]. split; [done|].
    unfold window at 1. simpl. by rewrite lookup_insert_eq.
Qed.

(** A call for one identifier leaves the windows of the others alone. *)
Lemma check_other (rl : t) (id id' : string) (now : Z) :
  id ≠ id' → window (check rl id now).2 id' = window rl id'.
Proof.
  intros Hne. unfold check, window.
  case_bool_decide; simpl; destruct (requests rl !! id);
    by rewrite ?lookup_insert_ne.
Qed.

Lemma cleanup_window (rl : t) (id : string) (now : Z) :
  window (cleanup rl now) id = prune (now - windowMs rl) (window rl id).
Proof.
  unfold cleanup, window. simpl. rewrite lookup_omap.
  destruct (requests rl !! id) as [ts|]; simpl; [|done].
  by destruct (prune (now - windowMs rl) ts).
Qed.

Lemma run_app (rl : t) (es1 es2 : list event) :
  run rl (es1 ++ es2) =
  ((run (run rl es1).1 es2).1, (run rl es1).2 ++ (run (run rl es1).1 es2).2).
Proof.
  revert rl. induction es1 as [|[id now|now] es1 IH]; intros rl; simpl.
  - by destruct (run rl es2).
  - destruct (check rl id now) as [r rl'].
    rewrite IH. by destruct (run rl' es1) as [rl'' log].
  - apply IH.
Qed.

Lemma run_config (rl : t) (es : list event) :
  maxRequests (run rl es).1 = maxRequests rl ∧
  windowMs (run rl es).1 = windowMs rl.
Proof.
  revert rl. induction es as [|[id now|now] es IH]; intros rl; simpl; [done|..].
  - pose proof (check_config rl id now) as [Hm Hw].
    destruct (check rl id now) as [r rl']. simpl in *.
    specialize (IH rl'). destruct (run rl' es). simpl in *.
    destruct IH. split; congruence.
  - apply (IH (cleanup rl now)).
Qed.

Lemma admitted_app (id : string) (l1 l2 : list call) :
  admitted id (l1 ++ l2) = admitted id l1 ++ admitted id l2.
Proof. unfold admitted, admitted_calls. by rewrite filter_app, map_app. Qed.

(** The times in the log never exceed the time of the latest event. *)
Lemma run_log_times (rl : t) (es : list event) (now : Z) :
  Forall (λ e, event_time e ≤ now) es →
  Forall (λ c, call_time c ≤ now) (run rl es).2.
Proof.
  revert rl. induction es as [|[id t0|t0] es IH]; intros rl Hall; simpl.
  - constructor.
  - apply Forall_cons in Hall as [Ht Hall].
    destruct (check rl id t0) as [r rl'].
    specialize (IH rl' Hall). destruct (run rl' es). simpl in *.
    by constructor.
  - apply Forall_cons in Hall as [_ Hall]. by apply IH.
Qed.

(** The invariant that links the state to the history: seen from any
    moment not before the latest event, the window the limiter holds for
    an identifier and the admitted calls of that identifier have the same
    surviving timestamps. *)
Lemma window_is_admitted (M W : Z) (es : list event) (id : string) (now : Z) :
  StronglySorted Z.le (map event_time es) →
  Forall (λ e, event_time e ≤ now) es →
  prune (now - W) (window (run (new M W) es).1 id)
  = prune (now - W) (admitted id (run (new M W) es).2).
Proof.
  revert now. induction es as [|e es IH] using rev_ind; intros now Hsorted Hnow.
  - done.
  - rewrite map_app in Hsorted. apply StronglySorted_app in Hsorted as (Hle & Hs1 & _).
    apply Forall_app in Hnow as [Hnow1 Hnow2].
    rewrite Forall_singleton in Hnow2.
    assert (Hprev : Forall (λ e', event_time e' ≤ event_time e) es).
    { apply Forall_forall. intros e' He'. apply Hle.
      - by apply list_elem_of_fmap_2.
      - simpl. by left. }
    rewrite run_app. simpl.
    pose proof (run_config (new M W) es) as [HM HW]. simpl in HM, HW.
    specialize (IH (event_time e) Hs1 Hprev).
    destruct (run (new M W) es) as [rl log]. simpl in *.
    destruct e as [id' t0|t0]; simpl in *.
    + destruct (check rl id' t0) as [r rl'] eqn:Echk. simpl.
      rewrite admitted_app, prune_app.
      destruct (decide (id' = id)) as [->|Hne].
      * pose proof (check_unfold rl id t0) as Hcases. rewrite Echk, HW in Hcases.
        simpl in Hcases. destruct Hcases as [(_ & Hr & Hwin)|(_ & Hr & Hwin)].
        -- subst r. unfold admitted at 2, admitted_calls.
           rewrite filter_cons_False
             by (unfold admitted_by; simpl; intros [_ ?]; done).
           simpl. rewrite app_nil_r.
           rewrite <- (prune_prune (t0 - W) (now - W)) by lia.
           rewrite Hwin, IH. apply prune_prune. lia.
        -- subst r. unfold admitted at 2, admitted_calls.
           rewrite filter_cons_True by (unfold admitted_by; simpl; done).
           simpl. rewrite Hwin, prune_app, IH. f_equal.
           apply prune_prune. lia.
      * pose proof (check_other rl id' id t0 Hne) as Hoth. rewrite Echk in Hoth.
        simpl in Hoth. rewrite Hoth.
        unfold admitted at 2, admitted_calls.
        rewrite filter_cons_False
          by (unfold admitted_by; simpl; intros [? _]; done).
        simpl. rewrite app_nil_r.
        rewrite <- (prune_prune (t0 - W) (now - W)) by lia.
        rewrite IH. apply prune_prune. lia.
    + rewrite app_nil_r, cleanup_window, HW.
      rewrite prune_prune by lia.
      rewrite <- (prune_prune (t0 - W) (now - W)) by lia.
      rewrite IH. apply prune_prune. lia.
Qed.

(** What the last admitted call of an identifier returned: the quota
    minus the admitted calls that were in the window at that moment, the
    call itself included. *)
Lemma last_admitted_remaining (M W : Z) (es : list event) (id : string) (c : call) :
  StronglySorted Z.le (map event_time es) →
  last (admitted_calls id (run (new M W) es).2) = Some c →
  ∃ before,
    admitted id (run (new M W) es).2 = before ++ [call_time c] ∧
    Z.of_nat (length (prune (call_time c - W) before)) < M ∧
    remaining (call_result c)
      = M - Z.of_nat (length (prune (call_time c - W) before)) - 1.
Proof.
  revert c. induction es as [|e es IH] using rev_ind; intros c Hsorted Hlast.
  - done.
  - rewrite map_app in Hsorted.
    apply StronglySorted_app in Hsorted as (Hle & Hs1 & _).
    assert (Hprev : Forall (λ e', event_time e' ≤ event_time e) es).
    { apply Forall_forall. intros e' He'. apply Hle.
      - by apply list_elem_of_fmap_2.
      - simpl. by left. }
    pose proof (window_is_admitted M W es id (event_time e) Hs1 Hprev) as Hinv.
    rewrite run_app in Hlast |- *. simpl in Hlast |- *.
    pose proof (run_config (new M W) es) as [HM HW]. simpl in HM, HW.
    specialize (IH c Hs1).
    destruct (run (new M W) es) as [rl log]. simpl in *.
    destruct e as [id' t0|t0]; simpl in *.
    + destruct (check rl id' t0) as [r rl'] eqn:Echk. simpl in *.
      rewrite admitted_app. unfold admitted_calls in Hlast.
      rewrite filter_app in Hlast.
      destruct (decide (id' = id)) as [->|Hne].
      * pose proof (check_unfold rl id t0) as Hcases.
        rewrite Echk, HW, HM in Hcases. simpl in Hcases.
        destruct Hcases as [(_ & Hr & _)|(Hlt & Hr & _)]; subst r.
        -- unfold admitted at 2, admitted_calls.
           rewrite filter_cons_False in Hlast |- *
             by (unfold admitted_by; simpl; intros [_ ?]; done).
           simpl in *. rewrite app_nil_r in Hlast |- *. by apply IH.
        -- unfold admitted at 2, admitted_calls.
           rewrite filter_cons_True in Hlast |- *
             by (unfold admitted_by; simpl; done).
           rewrite filter_nil in Hlast |- *. rewrite last_snoc in Hlast.
           injection Hlast as <-.
           simpl. exists (admitted id log). split; [done|].
           rewrite <- Hinv. rewrite length_app in *. simpl. split; lia.
      * unfold admitted at 2, admitted_calls.
        rewrite filter_cons_False in Hlast |- *
          by (unfold admitted_by; simpl; intros [? _]; done).
        simpl in *. rewrite app_nil_r in Hlast |- *. by apply IH.
    + rewrite app_nil_r in Hlast |- *. by apply IH.
Qed.

(** C1. After exactly [maxRequests] admitted calls of an identifier
    within [windowMs], the next [check] of that identifier is rejected
    with [remaining = 0] and [resetAt] the earliest surviving timestamp
    plus [windowMs]; and the last admitted call before it returned
    [remaining = 0].  The history is any sequence of [check] calls (of any
    identifiers) and periodic cleanups on a fresh limiter, in the order of
    their clock readings. *)
Theorem rate_limit_exhausted (M W : Z) (es : list event) (id : string) (now : Z) :
  let rl := (run (new M W) es).1 in
  let log := (run (new M W) es).2 in
  let surviving := prune (now - W) (window rl id) in
  0 < M →
  StronglySorted Z.le (map event_time (es ++ [Check id now])) →
  length (prune (now - W) (admitted id log)) = Z.to_nat M →
  ∃ earliest last_call,
    (check rl id now).1 = mkResult false 0 (Js.Num (earliest + W)) ∧
    earliest ∈ surviving ∧
    Forall (λ t, earliest ≤ t) surviving ∧
    last (admitted_calls id log) = Some last_call ∧
    allowed (call_result last_call) = true ∧
    remaining (call_result last_call) = 0.
Proof.
  intros rl log surviving HM Hsorted Hcount.
  rewrite map_app in Hsorted.
  apply StronglySorted_app in Hsorted as (Hle & Hs1 & _).
  assert (Hprev : Forall (λ e', event_time e' ≤ now) es).
  { apply Forall_forall. intros e' He'. apply Hle.
    - by apply list_elem_of_fmap_2.
    - simpl. by left. }
  pose proof (window_is_admitted M W es id now Hs1 Hprev) as Hinv.
  pose proof (run_config (new M W) es) as [HcM HcW]. simpl in HcM, HcW.
  pose proof (run_log_times (new M W) es now Hprev) as Htimes.
  fold rl in Hinv, HcM, HcW. fold log in Hinv, Htimes. fold surviving in Hinv.
  (* the rejection *)
  pose proof (check_unfold rl id now) as Hcases.
  rewrite HcM, HcW in Hcases. simpl in Hcases. fold surviving in Hcases.
  destruct Hcases as [(_ & Hr & _)|(Hlt & _)]; [|rewrite Hinv in Hlt; lia].
  destruct (Js.Math_min surviving) as [earliest|] eqn:Emin.
  2:{ destruct surviving as [|x r] eqn:Es.
      - rewrite <- Hinv in Hcount. simpl in Hcount. lia.
      - simpl in Emin. by destruct (Js.Math_min r). }
  apply Math_min_least in Emin as [Hin Hall].
  (* the last admitted call *)
  destruct (last (admitted_calls id log)) as [c|] eqn:Elast.
  2:{ apply last_None in Elast. unfold admitted in Hcount.
      rewrite Elast in Hcount. simpl in Hcount. lia. }
  pose proof (last_admitted_remaining M W es id c Hs1 Elast)
    as (before & Hadm & Hbelow & Hrem).
  fold log in Hadm.
  assert (Hc : admitted_by id c ∧ call_time c ≤ now).
  { apply last_Some in Elast as [l' El'].
    assert (Hmem : c ∈ admitted_calls id log).
    { rewrite El'. apply elem_of_app. right. apply list_elem_of_here. }
    unfold admitted_calls in Hmem. apply list_elem_of_filter in Hmem as [Hadmit Hmem].
    split; [done|]. rewrite Forall_forall in Htimes. by apply Htimes. }
  destruct Hc as [[_ Hallowed] Htc].
  exists earliest, c. repeat split; try done.
  rewrite Hrem.
  rewrite Hadm, prune_app, length_app in Hcount.
  pose proof (prune_length_mono (call_time c - W) (now - W) before ltac:(lia)).
  pose proof (length_filter (λ t, now - W < t) [call_time c]) as Hone.
  unfold prune in Hcount at 2. simpl length in Hone. lia.
Qed.

(** The scenario of the specification: [maxRequests = 3],
    [windowMs = 1000]; three calls at [t = 0] are admitted, a fourth at
    [t = 100] is rejected with [resetAt = 1000]. *)
Lemma rate_limit_exhausted_witness :
  ∃ earliest last_call,
    (check (run (new 3 1000) [Check "a" 0; Check "a" 0; Check "a" 0]).1 "a" 100).1
      = mkResult false 0 (Js.Num (earliest + 1000)) ∧
    earliest ∈ prune (100 - 1000)
      (window (run (new 3 1000) [Check "a" 0; Check "a" 0; Check "a" 0]).1 "a") ∧
    Forall (λ t, earliest ≤ t) (prune (100 - 1000)
      (window (run (new 3 1000) [Check "a" 0; Check "a" 0; Check "a" 0]).1 "a")) ∧
    last (admitted_calls "a"
      (run (new 3 1000) [Check "a" 0; Check "a" 0; Check "a" 0]).2) = Some last_call ∧
    allowed (call_result last_call) = true ∧
    remaining (call_result last_call) = 0.
Proof.
  apply (rate_limit_exhausted 3 1000 [Check "a" 0; Check "a" 0; Check "a" 0] "a" 100).
  - lia.
  - simpl. repeat constructor; lia.
  - vm_compute. reflexivity.
Defined.

(** The scenario in full: the fifth call, at [t = 1001], is admitted
    again. *)
Example rate_limit_scenario :
  map (λ c, (allowed (call_result c), resetAt (call_result c)))
      (run (new 3 1000)
         [Check "a" 0; Check "a" 0; Check "a" 0; Check "a" 100; Check "a" 1001]).2
  = [(true, Js.Num 1000); (true, Js.Num 1000); (true, Js.Num 1000);
     (false, Js.Num 1000); (true, Js.Num 2001)].
Proof. vm_compute. reflexivity. Qed.

End RateLimiterProperties.

(** ** Insertion-ordered maps *)
Section JsMapProperties.

Context {V : Type}.
Implicit Types (m : JsMap.t V) (k : string) (v : V).

Lemma get_set_eq m k v : JsMap.get (JsMap.set m k v) k = Some v.
Proof.
  induction m as [|[k' v'] m IH]; simpl.
  - by rewrite String.eqb_refl.
  - destruct (String.eqb_spec k' k) as [->|Hne]; simpl.
    + by rewrite String.eqb_refl.
    + by rewrite (proj2 (String.eqb_neq k' k) Hne).
Qed.

Lemma get_set_ne m k k' v :
  k ≠ k' → JsMap.get (JsMap.set m k v) k' = JsMap.get m k'.
Proof.
  intros Hne. induction m as [|[k0 v0] m IH]; simpl.
  - by rewrite (proj2 (String.eqb_neq k k') Hne).
  - destruct (String.eqb_spec k0 k) as [->|Hne0]; simpl.
    + by rewrite (proj2 (String.eqb_neq k k') Hne).
    + by rewrite IH.
Qed.

Lemma get_None_keys m k : JsMap.get m k = None ↔ k ∉ JsMap.keys m.
Proof.
  unfold JsMap.keys. induction m as [|[k' v'] m IH]; simpl.
  - split; [intros _; apply not_elem_of_nil | done].
  - rewrite not_elem_of_cons. destruct (String.eqb_spec k' k) as [->|Hne].
    + split; [done | intros [? _]; done].
    + rewrite IH. split; [intros ?; split; [congruence | done] | intros [_ ?]; done].
Qed.

Lemma get_cons_ne m k k' v : k' ≠ k → JsMap.get ((k', v) :: m) k = JsMap.get m k.
Proof. intros Hne. simpl. by rewrite (proj2 (String.eqb_neq k' k) Hne). Qed.

(** Setting a key that is absent appends the entry. *)
Lemma set_absent m k v : JsMap.get m k = None → JsMap.set m k v = m ++ [(k, v)].
Proof.
  induction m as [|[k' v'] m IH]; simpl; [done|].
  destruct (String.eqb k' k); [done|]. intros H. by rewrite IH.
Qed.

(** Setting a key that is present changes no key and no position. *)
Lemma keys_set_present m k v :
  is_Some (JsMap.get m k) → JsMap.keys (JsMap.set m k v) = JsMap.keys m.
Proof.
  unfold JsMap.keys. induction m as [|[k' v'] m IH]; simpl.
  - by intros [? ?].
  - destruct (String.eqb_spec k' k) as [->|Hne]; simpl; [done|].
    intros H. by rewrite IH.
Qed.

Lemma length_set m k v :
  length (JsMap.set m k v)
  = match JsMap.get m k with
    | Some _ => length m
    | None => S (length m)
    end.
Proof.
  induction m as [|[k' v'] m IH]; simpl; [done|].
  destruct (String.eqb k' k); simpl; [done|].
  rewrite IH. by destruct (JsMap.get m k).
Qed.

Lemma delete_first_cons k v m : JsMap.delete_first ((k, v) :: m) = m.
Proof. unfold JsMap.delete_first. simpl. by rewrite String.eqb_refl. Qed.

Lemma NoDup_keys_set m k v :
  NoDup (JsMap.keys m) → NoDup (JsMap.keys (JsMap.set m k v)).
Proof.
  intros Hnd. destruct (JsMap.get m k) as [v0|] eqn:E.
  - by rewrite keys_set_present.
  - rewrite set_absent by done. unfold JsMap.keys in *. rewrite map_app. simpl.
    apply NoDup_app. split; [done|]. split.
    + intros x Hx Hx'. apply list_elem_of_singleton in Hx'. subst x.
      by apply get_None_keys in E.
    + apply NoDup_singleton.
Qed.

Lemma NoDup_keys_delete_first m :
  NoDup (JsMap.keys m) → NoDup (JsMap.keys (JsMap.delete_first m)).
Proof.
  destruct m as [|[k v] m]; [done|]. rewrite delete_first_cons.
  unfold JsMap.keys. simpl. by intros [_ ?]%NoDup_cons.
Qed.

End JsMapProperties.

(** ** The TTL cache of the consolidated handler *)
Section ConsolidatedCache.

Import Http SheetsConsolidated.

Lemma getCache_setCache (c : JsMap.t entry) (key : string) (value : Js.json)
    (t0 t1 : Z) :
  (getCache (setCache c key value t0) key t1).1
  = if bool_decide (t1 - t0 > CACHE_TTL) then Js.JNull else value.
Proof.
  unfold getCache, setCache. rewrite get_set_eq. simpl.
  by case_bool_decide.
Qed.

Lemma getCache_expired (c : JsMap.t entry) (key : string) (en : entry) (now : Z) :
  JsMap.get c key = Some en →
  now - timestamp en > CACHE_TTL →
  getCache c key now = (Js.JNull, JsMap.delete c key).
Proof.
  intros Hget Hold. unfold getCache. rewrite Hget. by rewrite bool_decide_eq_true_2.
Qed.

(** What [getCache] returns other than [null] is the data of an entry
    written no more than [CACHE_TTL] ago. *)
Lemma getCache_fresh (c : JsMap.t entry) (key : string) (now : Z) :
  (getCache c key now).1 ≠ Js.JNull →
  ∃ en, JsMap.get c key = Some en ∧
        (getCache c key now).1 = data en ∧
        now - timestamp en ≤ CACHE_TTL.
Proof.
  unfold getCache. destruct (JsMap.get c key) as [en|]; [|done].
  case_bool_decide; [done|]. intros _. exists en. split; [done|]. split; [done|lia].
Qed.

End ConsolidatedCache.

(** ** The cache of api/sheets.js *)
Section SheetsCache.

Import Http Sheets.

(** A miss stores what the fetch function returned, stamped with the
    reading taken before the upstream was asked. *)
Lemma getCachedData_miss (key : string) (now : Z) (f : M Js.json) (w w' : world)
    (d : Js.json) :
  (∀ en, w_cache w !! key = Some en → ¬ (now - timestamp en < CACHE_DURATION)) →
  f (mkWorld (w_cache w) (w_log w ++ [CacheGet key])) = (Js.Return d, w') →
  getCachedData key now f w
  = (Js.Return d,
     mkWorld (<[key := mkEntry d now]> (w_cache w')) (w_log w' ++ [CacheSet key])).
Proof.
  intros Hmiss Hf. unfold getCachedData, Http.bind, log. simpl.
  destruct (w_cache w !! key) as [en|] eqn:E.
  - rewrite bool_decide_eq_false_2 by (by apply Hmiss). by rewrite Hf.
  - by rewrite Hf.
Qed.

(** A fresh entry is returned as it is; the fetch function is not run. *)
Lemma getCachedData_hit (key : string) (now : Z) (f : M Js.json) (w : world)
    (en : entry) :
  w_cache w !! key = Some en →
  now - timestamp en < CACHE_DURATION →
  getCachedData key now f w
  = (Js.Return (data en), mkWorld (w_cache w) (w_log w ++ [CacheGet key])).
Proof.
  intros Hget Hfresh. unfold getCachedData, Http.bind, log. simpl.
  rewrite Hget. by rewrite bool_decide_eq_true_2.
Qed.

(** An entry as old as [CACHE_DURATION] is not returned: the answer is
    the fetch function's. *)
Lemma getCachedData_expired (key : string) (now : Z) (f : M Js.json) (w : world)
    (en : entry) (msg : string) (w' : world) :
  w_cache w !! key = Some en →
  CACHE_DURATION ≤ now - timestamp en →
  f (mkWorld (w_cache w) (w_log w ++ [CacheGet key])) = (Js.Throw msg, w') →
  getCachedData key now f w = (Js.Throw msg, w').
Proof.
  intros Hget Hold Hf. unfold getCachedData, Http.bind, log. simpl.
  rewrite Hget. rewrite bool_decide_eq_false_2 by lia. by rewrite Hf.
Qed.

End SheetsCache.

(** In api/sheets.js [getCachedData] is both the write and the read: what
    a miss stored is returned untouched while it is younger than
    [CACHE_DURATION], and is not returned once it is as old. *)
Lemma getCachedData_after_store (key : string) (value : Js.json) (t0 t1 : Z)
    (w w' : Sheets.world) (f g : Sheets.M Js.json) (msg : string) :
  let stored := (Sheets.getCachedData key t0 f w).2 in
  (∀ en, Sheets.w_cache w !! key = Some en →
         ¬ (t0 - Http.timestamp en < Sheets.CACHE_DURATION)) →
  f (Sheets.mkWorld (Sheets.w_cache w) (Sheets.w_log w ++ [Http.CacheGet key]))
    = (Js.Return value, w') →
  (t1 - t0 < Sheets.CACHE_DURATION →
   Sheets.getCachedData key t1 g stored
   = (Js.Return value,
      Sheets.mkWorld (Sheets.w_cache stored)
        (Sheets.w_log stored ++ [Http.CacheGet key]))) ∧
  (Sheets.CACHE_DURATION ≤ t1 - t0 →
   (∀ x, (g x).1 = Js.Throw msg) →
   (Sheets.getCachedData key t1 g stored).1 = Js.Throw msg).
Proof.
  intros stored Hmiss Hf. subst stored.
  rewrite (getCachedData_miss key t0 f w w' value Hmiss Hf). simpl.
  split.
  - intros Hfresh.
    rewrite (getCachedData_hit key t1 g _ (Http.mkEntry value t0)); simpl; try done.
    by rewrite lookup_insert_eq.
  - intros Hold Hg.
    pose proof (Hg (Sheets.mkWorld
                      (<[key := Http.mkEntry value t0]> (Sheets.w_cache w'))
                      ((Sheets.w_log w' ++ [Http.CacheSet key]) ++ [Http.CacheGet key])))
      as Hg1.
    destruct (g _) as [r wg] eqn:Eg in Hg1. simpl in Hg1. subst r.
    rewrite (getCachedData_expired key t1 g _ (Http.mkEntry value t0) msg wg);
      simpl; try done.
    by rewrite lookup_insert_eq.
Qed.

Section CacheFreshness.

Import Http SheetsConsolidated.

(** C2. A [setCache] followed by a [getCache] of the same key returns
    exactly the stored value while the TTL has not elapsed, and a miss
    ([null]) once it has; whatever the state, [getCache] returns a miss for
    an entry written more than the TTL ago, and anything else it returns
    is the data of an entry no older than the TTL. *)
Theorem cache_get_after_set
    (c : JsMap.t entry) (key : string) (value : Js.json) (t0 t1 : Z) :
  let get_after_set := (getCache (setCache c key value t0) key t1).1 in
  (get_after_set = if bool_decide (t1 - t0 > CACHE_TTL) then Js.JNull else value) ∧
  (t1 - t0 < CACHE_TTL → get_after_set = value) ∧
  (t1 - t0 > CACHE_TTL → get_after_set = Js.JNull) ∧
  (∀ en, JsMap.get c key = Some en →
         t1 - timestamp en > CACHE_TTL →
         (getCache c key t1).1 = Js.JNull) ∧
  ((getCache c key t1).1 ≠ Js.JNull →
   ∃ en, JsMap.get c key = Some en ∧
         (getCache c key t1).1 = data en ∧
         t1 - timestamp en ≤ CACHE_TTL).
Proof.
  intros get_after_set. subst get_after_set.
  rewrite getCache_setCache.
  split; [done|]. split; [intros; by rewrite bool_decide_eq_false_2 by lia|].
  split; [intros; by rewrite bool_decide_eq_true_2 by lia|].
  split; [intros en Hget Hold; by rewrite (getCache_expired c key en t1)|].
  apply getCache_fresh.
Qed.

(** A value set at [t = 0] is read back one second later, and is a miss
    one millisecond after the five minutes. *)
Lemma cache_get_after_set_witness :
  (getCache (setCache [] "list" (Js.JArr [Js.JStr "Roster"]) 0) "list" 1000).1
    = Js.JArr [Js.JStr "Roster"] ∧
  (getCache (setCache [] "list" (Js.JArr [Js.JStr "Roster"]) 0) "list" 300001).1
    = Js.JNull.
Proof.
  pose proof (cache_get_after_set [] "list" (Js.JArr [Js.JStr "Roster"]) 0 1000)
    as (_ & Hhit & _).
  pose proof (cache_get_after_set [] "list" (Js.JArr [Js.JStr "Roster"]) 0 300001)
    as (_ & _ & Hmiss & _).
  split.
  - apply Hhit. vm_compute. reflexivity.
  - apply Hmiss. vm_compute. reflexivity.
Defined.

End CacheFreshness.

(** ** Eviction from the cache of the consolidated handler *)
Section ConsolidatedEviction.

Import Http SheetsConsolidated.

(** At capacity, a key that is not in the cache takes the place of the
    earliest inserted entry: that entry goes, every other entry stays
    where it was, and the new entry is the latest. *)
Lemma setCache_new_key_at_capacity (c : JsMap.t entry) (key : string)
    (value : Js.json) (now : Z) :
  JsMap.size c >= MAX_CACHE_SIZE →
  JsMap.get c key = None →
  ∃ oldest rest,
    c = oldest :: rest ∧
    setCache c key value now = rest ++ [(key, mkEntry value now)].
Proof.
  intros Hfull Hnew. unfold setCache. rewrite bool_decide_eq_true_2 by done.
  destruct c as [|[k0 e0] rest].
  - unfold JsMap.size, MAX_CACHE_SIZE in Hfull. simpl in Hfull. lia.
  - exists (k0, e0), rest. split; [done|].
    rewrite delete_first_cons. apply set_absent.
    simpl in Hnew. by destruct (String.eqb k0 key).
Qed.

(** Below capacity nothing is evicted. *)
Lemma setCache_below_capacity (c : JsMap.t entry) (key : string)
    (value : Js.json) (now : Z) :
  JsMap.size c < MAX_CACHE_SIZE →
  setCache c key value now = JsMap.set c key (mkEntry value now).
Proof. intros Hroom. unfold setCache. by rewrite bool_decide_eq_false_2 by lia. Qed.

(** C3, where the code departs from it.  At capacity [setCache] deletes
    the earliest inserted entry whether or not the key is new: overwriting
    a key that is present, and is not the earliest, evicts the earliest
    entry all the same, and the cache ends one entry short. *)
Theorem setCache_overwrite_evicts (c : JsMap.t entry) (key oldest : string)
    (e0 : entry) (rest : JsMap.t entry) (value : Js.json) (now : Z) :
  NoDup (JsMap.keys c) →
  JsMap.size c >= MAX_CACHE_SIZE →
  c = (oldest, e0) :: rest →
  oldest ≠ key →
  is_Some (JsMap.get c key) →
  setCache c key value now = JsMap.set rest key (mkEntry value now) ∧
  JsMap.get (setCache c key value now) oldest = None ∧
  JsMap.size (setCache c key value now) = JsMap.size c - 1.
Proof.
  intros Hnd Hfull -> Hne Hpresent. unfold setCache.
  rewrite bool_decide_eq_true_2 by done. rewrite delete_first_cons.
  split; [done|].
  unfold JsMap.keys in Hnd. simpl in Hnd. apply NoDup_cons in Hnd as [Hnotin _].
  rewrite get_cons_ne in Hpresent by done.
  split.
  - rewrite get_set_ne by done. by apply get_None_keys.
  - unfold JsMap.size. rewrite length_set.
    destruct Hpresent as [en ->]. simpl length. lia.
Qed.

(** A full cache; [sheet:5] is refreshed; [sheet:0] is gone and 99 entries
    are left. *)
Lemma setCache_overwrite_evicts_witness :
  JsMap.get (setCache Scenario.full_cache "sheet:5" (Js.JArr []) 1000) "sheet:0" = None ∧
  JsMap.size (setCache Scenario.full_cache "sheet:5" (Js.JArr []) 1000) = 99.
Proof.
  pose proof (setCache_overwrite_evicts Scenario.full_cache "sheet:5" "sheet:0"
                (mkEntry (Js.JArr []) 0) (tail Scenario.full_cache) (Js.JArr []) 1000)
    as H.
  destruct H as (_ & Hgone & Hsize).
  - apply (bool_decide_unpack _). vm_compute. reflexivity.
  - vm_compute. discriminate.
  - vm_compute. reflexivity.
  - discriminate.
  - vm_compute. eexists. reflexivity.
  - split; [exact Hgone|]. rewrite Hsize. vm_compute. reflexivity.
Defined.

End ConsolidatedEviction.

(** ** The windows of the consolidated handler *)
Section ConsolidatedRateLimit.

Import Http SheetsConsolidated.

Lemma checkRateLimit_bounded (rl : JsMap.t (list Z)) (ip : string) (now : Z) :
  bounded rl → bounded (checkRateLimit rl ip now).2.
Proof.
  intros [Hnd Hsize]. unfold checkRateLimit.
  case_bool_decide; [done|]. simpl.
  set (w := filter _ _ ++ [now]).
  pose proof (NoDup_keys_set rl ip w Hnd) as Hnd'.
  pose proof (length_set rl ip w) as Hlen.
  case_bool_decide as Hover.
  - split; [by apply NoDup_keys_delete_first|].
    destruct (JsMap.set rl ip w) as [|[k0 w0] rest] eqn:E.
    + unfold JsMap.size in Hover. simpl in Hover. lia.
    + rewrite delete_first_cons. unfold JsMap.size in *. simpl length in *.
      destruct (JsMap.get rl ip); lia.
  - split; [done|lia].
Qed.

Lemma run_checks_bounded (rl : JsMap.t (list Z)) (calls : list (string * Z)) :
  bounded rl → bounded (run_checks rl calls).
Proof.
  revert rl. induction calls as [|[ip now] calls IH]; intros rl Hb; [done|].
  simpl. apply IH. by apply checkRateLimit_bounded.
Qed.

(** A new identifier that arrives when the map holds 1000 is admitted, and
    the earliest inserted identifier is deleted with its whole window. *)
Lemma checkRateLimit_evicts_oldest (oldest ip : string) (w : list Z)
    (rest : JsMap.t (list Z)) (now : Z) :
  JsMap.size ((oldest, w) :: rest) = 1000 →
  JsMap.get ((oldest, w) :: rest) ip = None →
  checkRateLimit ((oldest, w) :: rest) ip now = (true, rest ++ [(ip, [now])]).
Proof.
  intros Hsize Hnew. unfold checkRateLimit. rewrite Hnew. simpl default.
  rewrite filter_nil. simpl length.
  rewrite bool_decide_eq_false_2 by (unfold MAX_REQUESTS; lia).
  rewrite (set_absent _ _ _ Hnew).
  rewrite bool_decide_eq_true_2.
  - change (((oldest, w) :: rest) ++ [(ip, [] ++ [now])])
      with ((oldest, w) :: (rest ++ [(ip, [now])])).
    by rewrite delete_first_cons.
  - unfold JsMap.size in *. rewrite length_app. simpl length in *. lia.
Qed.

(** An identifier with [MAX_REQUESTS] timestamps inside the window is
    rejected, and the map is left as it was. *)
Lemma checkRateLimit_full (rl : JsMap.t (list Z)) (ip : string) (now : Z) :
  Z.of_nat (length (filter (λ t, now - t < RATE_WINDOW)
                      (default [] (JsMap.get rl ip)))) >= MAX_REQUESTS →
  checkRateLimit rl ip now = (false, rl).
Proof. intros Hfull. unfold checkRateLimit. by rewrite bool_decide_eq_true_2. Qed.

(** An identifier the map does not hold is admitted. *)
Lemma checkRateLimit_absent (rl : JsMap.t (list Z)) (ip : string) (now : Z) :
  JsMap.get rl ip = None → (checkRateLimit rl ip now).1 = true.
Proof.
  intros Habs. unfold checkRateLimit. rewrite Habs. simpl default.
  rewrite filter_nil. simpl length.
  by rewrite bool_decide_eq_false_2 by (unfold MAX_REQUESTS; lia).
Qed.

(** C10. After every [checkRateLimit] of the consolidated handler the map
    of windows holds at most 1001 identifiers (at most 1000, in fact); and
    when an admitted call of a new identifier finds 1000 identifiers in
    the map, the earliest inserted identifier is deleted with its whole
    window, whatever timestamps it holds, so that its next request is
    admitted as if it had made none. *)
Theorem rate_limit_map_bounded (calls : list (string * Z)) (ip : string) (now : Z) :
  let before := run_checks JsMap.empty calls in
  let after := (checkRateLimit before ip now).2 in
  JsMap.size after ≤ 1001 ∧
  JsMap.size after ≤ 1000 ∧
  (∀ oldest w rest later,
     before = (oldest, w) :: rest →
     JsMap.size before = 1000 →
     JsMap.get before ip = None →
     (checkRateLimit before ip now).1 = true ∧
     after = rest ++ [(ip, [now])] ∧
     JsMap.get after oldest = None ∧
     (checkRateLimit after oldest later).1 = true).
Proof.
  intros before after.
  assert (Hb : bounded before).
  { apply run_checks_bounded. split; [apply NoDup_nil_2|]. unfold JsMap.size. simpl. lia. }
  pose proof (checkRateLimit_bounded before ip now Hb) as [_ Hsize]. fold after in Hsize.
  split; [lia|]. split; [done|].
  intros oldest w rest later Hbefore H1000 Hnew.
  subst after. rewrite Hbefore in *.
  rewrite (checkRateLimit_evicts_oldest oldest ip w rest now H1000 Hnew). simpl.
  assert (Hgone : JsMap.get (rest ++ [(ip, [now])]) oldest = None).
  { destruct Hb as [Hnd _]. unfold JsMap.keys in Hnd. simpl in Hnd.
    apply NoDup_cons in Hnd as [Hnotin _].
    apply get_None_keys. unfold JsMap.keys. rewrite map_app. simpl.
    rewrite not_elem_of_app. split; [done|].
    rewrite list_elem_of_singleton. intros ->.
    simpl in Hnew. by rewrite String.eqb_refl in Hnew. }
  split; [done|]. split; [done|]. split; [done|].
  by apply checkRateLimit_absent.
Qed.

Lemma busy_history_runs :
  run_checks JsMap.empty Scenario.busy_history = Scenario.busy_map.
Proof. vm_compute. reflexivity. Qed.

(** [10.0.0.0] has used its thirty requests at [t = 0]; 999 other
    addresses follow; the request of one more address deletes the window
    of [10.0.0.0], whose next request, rejected before, is admitted. *)
Lemma rate_limit_map_bounded_witness :
  (checkRateLimit (run_checks JsMap.empty Scenario.busy_history) "10.0.0.0" 2).1 = false ∧
  (checkRateLimit
     (checkRateLimit (run_checks JsMap.empty Scenario.busy_history) "10.0.1.0" 1).2
     "10.0.0.0" 2).1 = true.
Proof.
  pose proof (rate_limit_map_bounded Scenario.busy_history "10.0.1.0" 1) as (_ & _ & H).
  rewrite busy_history_runs in H |- *.
  split; [vm_compute; reflexivity|].
  destruct (H "10.0.0.0" (replicate 30 0) (tail Scenario.busy_map) 2)
    as (_ & _ & _ & Hadmitted).
  - reflexivity.
  - vm_compute. reflexivity.
  - vm_compute. reflexivity.
  - exact Hadmitted.
Defined.

End ConsolidatedRateLimit.

(** ** The consolidated handler *)
Section ConsolidatedHandler.

Import Http SheetsConsolidated.

Lemma checkRateLimit_rejected (rl : JsMap.t (list Z)) (ip : string) (now : Z) :
  (checkRateLimit rl ip now).1 = false → checkRateLimit rl ip now = (false, rl).
Proof. unfold checkRateLimit. by case_bool_decide. Qed.

(** A GET that the limiter rejects. *)
Lemma handler_rejected (e : env) (c : clock) (st : state) (req : request) :
  method req = "GET" →
  (checkRateLimit (rateLimits st) (ip_of req) (at_limit c)).1 = false →
  handler e c st req
  = mkOutcome
      (mkResponse 429 (Some 60) None
         (Some (Js.JObj
            [("error", Js.JStr "សូមរង់ចាំបន្តិច - ប្រើប្រាស់ញឹកញាប់ពេក");
             ("retryAfter", Js.JNum 60)])))
      st [RateCheck (ip_of req)].
Proof.
  intros Hget Hrej. unfold handler. rewrite Hget. simpl.
  rewrite (checkRateLimit_rejected _ _ _ Hrej). simpl. by destruct st.
Qed.

(** A GET that the limiter admits goes through the body of [try]. *)
Lemma handler_admitted (e : env) (c : clock) (st : state) (req : request) :
  method req = "GET" →
  (checkRateLimit (rateLimits st) (ip_of req) (at_limit c)).1 = true →
  let body := try_body e c req (mkWorld (cache st) [RateCheck (ip_of req)]) in
  handler e c st req
  = mkOutcome
      (match body.1 with
       | Js.Return resp => resp
       | Js.Throw message => classify e message
       end)
      (mkState (w_cache body.2)
               (checkRateLimit (rateLimits st) (ip_of req) (at_limit c)).2)
      (w_log body.2).
Proof.
  intros Hget Hadm body. unfold handler. rewrite Hget. simpl.
  destruct (checkRateLimit _ _ _) as [a rl'] eqn:E. simpl in Hadm. subst a. simpl.
  subst body. by destruct (try_body _ _ _ _) as [r w].
Qed.

(** When the upstream is asked and fails, the answer is the one the
    [catch] block makes of the message. *)
Lemma handler_upstream_failure (e : env) (c : clock) (st : state) (req : request)
    (url message : string) :
  asks_upstream e c st req url →
  fetchFromGoogleSheets (fetch e url) = Js.Throw message →
  response_of (handler e c st req) = classify e message.
Proof.
  intros (Hget & Hadm & Hconf & Hpath) Hfail.
  rewrite (handler_admitted e c st req Hget Hadm). simpl.
  unfold try_body. rewrite Hconf. simpl.
  destruct Hpath as [(Hlist & Hmiss & ->)|(Hnolist & sheet & Hsheet & Hmiss & ->)].
  - rewrite bool_decide_eq_true_2 by done.
    unfold Http.bind, getCacheM, fetchM. simpl.
    change (getCacheKey None (Some "list")) with "list".
    destruct (getCache (cache st) "list" (at_lookup c)) as [v c'] eqn:E.
    simpl in Hmiss. rewrite Hmiss. simpl. by rewrite Hfail.
  - rewrite bool_decide_eq_false_2 by done. rewrite Hsheet.
    unfold Http.bind, getCacheM, fetchM. simpl.
    change (getCacheKey (Some sheet) None) with ("sheet:" +:+ sheet).
    destruct (getCache (cache st) ("sheet:" +:+ sheet) (at_lookup c)) as [v c'] eqn:E.
    simpl in Hmiss. rewrite Hmiss. simpl. by rewrite Hfail.
Qed.

End ConsolidatedHandler.

(** ** What the [catch] block of the consolidated handler answers *)
Section Classification.

Import Http SheetsConsolidated.

Lemma classify_status (e : env) (message : string) :
  status (classify e message)
  = if Js.includes message "404" then 404
    else if Js.includes message "403" || Js.includes message "401" then 403
    else if Js.includes message "ECONNREFUSED" || Js.includes message "ETIMEDOUT"
    then 503
    else 500.
Proof.
  unfold classify.
  destruct (Js.includes message "404"); [done|].
  destruct (Js.includes message "403" || Js.includes message "401"); [done|].
  by destruct (Js.includes message "ECONNREFUSED" || Js.includes message "ETIMEDOUT").
Qed.

(** The message [fetchFromGoogleSheets] throws for an upstream status. *)
Lemma upstream_message (r : upstream_response) :
  ok r = false →
  fetchFromGoogleSheets (Resolved r)
  = Js.Throw ("Google Sheets API error: " +:+ Js.of_Z (up_status r)
              +:+ " - " +:+ up_text r).
Proof. intros Hok. unfold fetchFromGoogleSheets. by rewrite Hok. Qed.

Lemma message_404 (text : string) :
  Js.includes ("Google Sheets API error: " +:+ Js.of_Z 404 +:+ " - " +:+ text) "404"
  = true.
Proof. change (Js.of_Z 404) with "404". reflexivity. Qed.

Lemma message_403 (text : string) :
  let message := "Google Sheets API error: " +:+ Js.of_Z 403 +:+ " - " +:+ text in
  Js.includes message "404" = Js.includes text "404" ∧
  Js.includes message "403" = true.
Proof. change (Js.of_Z 403) with "403". split; reflexivity. Qed.

Lemma message_401 (text : string) :
  let message := "Google Sheets API error: " +:+ Js.of_Z 401 +:+ " - " +:+ text in
  Js.includes message "404" = Js.includes text "404" ∧
  Js.includes message "401" = true.
Proof. change (Js.of_Z 401) with "401". split; reflexivity. Qed.

End Classification.

(** ** The handler of api/sheets.js *)
Section SheetsHandler.

Import Http Sheets.

Lemma legacy_rejected (e : env) (c : clock) (st : state) (req : request) :
  method req ≠ "OPTIONS" →
  (checkRateLimit (rateLimitMap st) (ip_of req) (at_limit c)).1 = false →
  let o := handler e c st req in
  status (response_of o) = 429 ∧
  retry_after (response_of o) = None ∧
  effects_of o = [RateCheck (ip_of req)] ∧
  serverCache (state_of o) = serverCache st.
Proof.
  intros Hm Hrej o. subst o. unfold handler.
  rewrite (proj2 (String.eqb_neq _ _) Hm).
  destruct (checkRateLimit _ _ _) as [a rl'] eqn:E. simpl in Hrej. by subst a.
Qed.

Lemma legacy_admitted (e : env) (c : clock) (st : state) (req : request) :
  method req ≠ "OPTIONS" →
  (checkRateLimit (rateLimitMap st) (ip_of req) (at_limit c)).1 = true →
  let body := try_body e c req (mkWorld (serverCache st) [RateCheck (ip_of req)]) in
  handler e c st req
  = mkOutcome
      (match body.1 with
       | Js.Return resp => resp
       | Js.Throw message =>
           mkResponse 500 None None
             (Some (Js.JObj [("error", Js.JStr "មិនអាចទាញយកទិន្នន័យបានទេ");
                             ("details", Js.JStr message)]))
       end)
      (mkState (w_cache body.2)
               (checkRateLimit (rateLimitMap st) (ip_of req) (at_limit c)).2)
      (w_log body.2).
Proof.
  intros Hm Hadm body. unfold handler.
  rewrite (proj2 (String.eqb_neq _ _) Hm).
  destruct (checkRateLimit _ _ _) as [a rl'] eqn:E. simpl in Hadm. subst a. simpl.
  subst body. by destruct (try_body _ _ _ _) as [r w].
Qed.

(** Whatever is thrown inside [try], the answer is the generic 500. *)
Lemma legacy_failure (e : env) (c : clock) (st : state) (req : request)
    (message : string) :
  method req ≠ "OPTIONS" →
  (checkRateLimit (rateLimitMap st) (ip_of req) (at_limit c)).1 = true →
  (try_body e c req (mkWorld (serverCache st) [RateCheck (ip_of req)])).1
    = Js.Throw message →
  status (response_of (handler e c st req)) = 500.
Proof.
  intros Hm Hadm Hthrow. rewrite (legacy_admitted e c st req Hm Hadm). simpl.
  by rewrite Hthrow.
Qed.

Lemma legacy_missing_parameters (e : env) (c : clock) (st : state) (req : request) :
  method req ≠ "OPTIONS" →
  (checkRateLimit (rateLimitMap st) (ip_of req) (at_limit c)).1 = true →
  query_action req ≠ Some "list" →
  Js.nonempty (query_sheet req) = None →
  let o := handler e c st req in
  status (response_of o) = 400 ∧
  effects_of o = [RateCheck (ip_of req); CacheSweep] ∧
  serverCache (state_of o) = cleanExpiredCache (serverCache st) (at_sweep c).
Proof.
  intros Hm Hadm Hnolist Hnosheet o. subst o.
  rewrite (legacy_admitted e c st req Hm Hadm). simpl.
  unfold try_body, Http.bind, sweepM. simpl.
  rewrite bool_decide_eq_false_2 by done. by rewrite Hnosheet.
Qed.

End SheetsHandler.

Section RouterProperties.

Import Http.

(** C4, as the code has it.  A request that the limiter rejects (a GET, in
    the consolidated handler, which answers other methods before it asks
    the limiter; any method but OPTIONS in api/sheets.js) is answered 429,
    and nothing but the limiter was consulted: no cache read, no cache
    write, no upstream fetch, the cache as it was.  The consolidated
    handler sends Retry-After: 60, the length of the window in seconds;
    api/sheets.js sends no retry-after; the endpoint of api/rate-limit.js,
    which has no cache and no upstream, reports the seconds from its
    second clock reading to the limiter's [resetAt]. *)
Theorem rate_limited_request_answer
    (e : env) (req : request)
    (c : SheetsConsolidated.clock) (st : SheetsConsolidated.state)
    (c1 : Sheets.clock) (st1 : Sheets.state)
    (rl : RateLimiter.t) (now now' : Z) :
  (method req = "GET" →
   (SheetsConsolidated.checkRateLimit (SheetsConsolidated.rateLimits st)
      (SheetsConsolidated.ip_of req) (SheetsConsolidated.at_limit c)).1 = false →
   let o := SheetsConsolidated.handler e c st req in
   status (SheetsConsolidated.response_of o) = 429 ∧
   retry_after (SheetsConsolidated.response_of o)
     = Some (Js.ceil_div SheetsConsolidated.RATE_WINDOW 1000) ∧
   Js.ceil_div SheetsConsolidated.RATE_WINDOW 1000 = 60 ∧
   SheetsConsolidated.effects_of o = [RateCheck (SheetsConsolidated.ip_of req)] ∧
   SheetsConsolidated.state_of o = st) ∧
  (method req ≠ "OPTIONS" →
   (Sheets.checkRateLimit (Sheets.rateLimitMap st1) (Sheets.ip_of req)
      (Sheets.at_limit c1)).1 = false →
   let o := Sheets.handler e c1 st1 req in
   status (Sheets.response_of o) = 429 ∧
   retry_after (Sheets.response_of o) = None ∧
   Sheets.effects_of o = [RateCheck (Sheets.ip_of req)] ∧
   Sheets.serverCache (Sheets.state_of o) = Sheets.serverCache st1) ∧
  (RateLimiter.allowed
     (RateLimiter.check rl (RateLimiter.identifier_of req) now).1 = false →
   let a := (RateLimiter.handler rl req now now').1 in
   RateLimiter.status a = 429 ∧
   RateLimiter.retryAfter a
     = Some (Js.Math_ceil_div
               (Js.minus
                  (RateLimiter.resetAt
                     (RateLimiter.check rl (RateLimiter.identifier_of req) now).1)
                  now') 1000)).
Proof.
  split; [|split].
  - intros Hget Hrej o. subst o. by rewrite handler_rejected.
  - apply legacy_rejected.
  - intros Hrej a. subst a. unfold RateLimiter.handler.
    destruct (RateLimiter.check _ _ _) as [r rl'] eqn:E. simpl in *.
    by rewrite Hrej.
Qed.

(** The thirty-first request of an address, 59 seconds after its thirty
    requests: the three handlers answer 429; the consolidated one says to
    retry after 60 seconds, api/sheets.js says nothing, and
    api/rate-limit.js says 1 second. *)
Lemma rate_limited_request_answer_witness :
  status (SheetsConsolidated.response_of
            (SheetsConsolidated.handler Scenario.unconfigured (Scenario.at_time 59000)
               Scenario.exhausted Scenario.roster_request)) = 429 ∧
  SheetsConsolidated.effects_of
    (SheetsConsolidated.handler Scenario.unconfigured (Scenario.at_time 59000)
       Scenario.exhausted Scenario.roster_request) = [RateCheck "203.0.113.7"] ∧
  status (Sheets.response_of
            (Sheets.handler Scenario.unconfigured (Scenario.at_time_legacy 59000)
               Scenario.exhausted_legacy Scenario.roster_request)) = 429 ∧
  RateLimiter.retryAfter
    (RateLimiter.handler Scenario.exhausted_limiter Scenario.roster_request
       59000 59000).1 = Some (Js.Num 1).
Proof.
  pose proof (rate_limited_request_answer Scenario.unconfigured Scenario.roster_request
                (Scenario.at_time 59000) Scenario.exhausted
                (Scenario.at_time_legacy 59000) Scenario.exhausted_legacy
                Scenario.exhausted_limiter 59000 59000) as (H1 & H2 & H3).
  destruct H1 as (Hs & _ & _ & He & _); [reflexivity | vm_compute; reflexivity |].
  destruct H2 as (Hs2 & _); [discriminate | vm_compute; reflexivity |].
  destruct H3 as (_ & Hr); [vm_compute; reflexivity |].
  split; [exact Hs|]. split; [exact He|]. split; [exact Hs2|].
  rewrite Hr. vm_compute. reflexivity.
Defined.

(** C4 as stated fails on the retry-after: for the request above the
    limiter's [resetAt] is 60000, one second away, and the endpoint that
    derives the delay from it says 1; the consolidated handler says 60,
    and api/sheets.js sends no retry-after at all. *)
Lemma rate_limited_retry_after_counterexample :
  RateLimiter.resetAt
    (RateLimiter.check Scenario.exhausted_limiter "203.0.113.7" 59000).1
    = Js.Num 60000 ∧
  RateLimiter.retryAfter
    (RateLimiter.handler Scenario.exhausted_limiter Scenario.roster_request
       59000 59000).1 = Some (Js.Num 1) ∧
  retry_after
    (SheetsConsolidated.response_of
       (SheetsConsolidated.handler Scenario.unconfigured (Scenario.at_time 59000)
          Scenario.exhausted Scenario.roster_request)) = Some 60 ∧
  retry_after
    (Sheets.response_of
       (Sheets.handler Scenario.unconfigured (Scenario.at_time_legacy 59000)
          Scenario.exhausted_legacy Scenario.roster_request)) = None ∧
  Js.Num <$> retry_after
    (SheetsConsolidated.response_of
       (SheetsConsolidated.handler Scenario.unconfigured (Scenario.at_time 59000)
          Scenario.exhausted Scenario.roster_request))
  ≠ RateLimiter.retryAfter
      (RateLimiter.handler Scenario.exhausted_limiter Scenario.roster_request
         59000 59000).1.
Proof.
  split; [vm_compute; reflexivity|]. split; [vm_compute; reflexivity|].
  split; [vm_compute; reflexivity|]. split; [vm_compute; reflexivity|].
  vm_compute. discriminate.
Qed.

(** C8, as the code has it.  A request that passes the limiter and names
    neither [action=list] nor a sheet is answered 400 without a cache read,
    a cache write or an upstream fetch: in the consolidated handler when
    the request is a GET and the credentials are configured; in
    api/sheets.js for every method but OPTIONS, after the sweep of the
    expired entries that opens its [try]. *)
Theorem missing_parameters_answer
    (e : env) (req : request)
    (c : SheetsConsolidated.clock) (st : SheetsConsolidated.state)
    (c1 : Sheets.clock) (st1 : Sheets.state) :
  query_action req ≠ Some "list" →
  Js.nonempty (query_sheet req) = None →
  (method req = "GET" →
   (SheetsConsolidated.checkRateLimit (SheetsConsolidated.rateLimits st)
      (SheetsConsolidated.ip_of req) (SheetsConsolidated.at_limit c)).1 = true →
   SheetsConsolidated.configured e = true →
   let o := SheetsConsolidated.handler e c st req in
   status (SheetsConsolidated.response_of o) = 400 ∧
   SheetsConsolidated.effects_of o = [RateCheck (SheetsConsolidated.ip_of req)] ∧
   SheetsConsolidated.cache (SheetsConsolidated.state_of o)
     = SheetsConsolidated.cache st) ∧
  (method req ≠ "OPTIONS" →
   (Sheets.checkRateLimit (Sheets.rateLimitMap st1) (Sheets.ip_of req)
      (Sheets.at_limit c1)).1 = true →
   let o := Sheets.handler e c1 st1 req in
   status (Sheets.response_of o) = 400 ∧
   Sheets.effects_of o = [RateCheck (Sheets.ip_of req); CacheSweep] ∧
   Sheets.serverCache (Sheets.state_of o)
     = Sheets.cleanExpiredCache (Sheets.serverCache st1) (Sheets.at_sweep c1)).
Proof.
  intros Hnolist Hnosheet. split.
  - intros Hget Hadm Hconf o. subst o.
    rewrite (handler_admitted e c st req Hget Hadm). simpl.
    unfold SheetsConsolidated.try_body. rewrite Hconf. simpl.
    rewrite bool_decide_eq_false_2 by done. by rewrite Hnosheet.
  - intros Hm Hadm. by apply legacy_missing_parameters.
Qed.

(** A first request that names no sheet, on a configured server: 400 from
    both handlers. *)
Lemma missing_parameters_answer_witness :
  status (SheetsConsolidated.response_of
            (SheetsConsolidated.handler (Scenario.server Scenario.denied)
               (Scenario.at_time 0) SheetsConsolidated.initial
               Scenario.bare_request)) = 400 ∧
  status (Sheets.response_of
            (Sheets.handler (Scenario.server Scenario.denied)
               (Scenario.at_time_legacy 0) Sheets.initial
               Scenario.bare_request)) = 400.
Proof.
  pose proof (missing_parameters_answer (Scenario.server Scenario.denied)
                Scenario.bare_request (Scenario.at_time 0) SheetsConsolidated.initial
                (Scenario.at_time_legacy 0) Sheets.initial) as H.
  destruct H as [H1 H2]; [discriminate | reflexivity |].
  destruct H1 as (Hs & _); [reflexivity | vm_compute; reflexivity | reflexivity |].
  destruct H2 as (Hs2 & _); [discriminate | vm_compute; reflexivity |].
  split; [exact Hs | exact Hs2].
Defined.

(** C8 as stated fails in the consolidated handler when the server lacks
    its credentials: the same request is answered 500, since the check of
    the environment comes before the check of the parameters. *)
Lemma missing_parameters_counterexample :
  method Scenario.bare_request ≠ "OPTIONS" ∧
  (SheetsConsolidated.checkRateLimit
     (SheetsConsolidated.rateLimits SheetsConsolidated.initial)
     (SheetsConsolidated.ip_of Scenario.bare_request) 0).1 = true ∧
  query_action Scenario.bare_request = None ∧
  query_sheet Scenario.bare_request = None ∧
  status (SheetsConsolidated.response_of
            (SheetsConsolidated.handler Scenario.unconfigured (Scenario.at_time 0)
               SheetsConsolidated.initial Scenario.bare_request)) = 500 ∧
  body (SheetsConsolidated.response_of
          (SheetsConsolidated.handler Scenario.unconfigured (Scenario.at_time 0)
             SheetsConsolidated.initial Scenario.bare_request))
    = Some (Js.JObj [("error", Js.JStr "Server configuration error")]).
Proof.
  split; [discriminate|]. split; [vm_compute; reflexivity|].
  split; [reflexivity|]. split; [reflexivity|].
  split; vm_compute; reflexivity.
Qed.

(** C5, as the code has it.  When the consolidated handler asks the
    upstream and the fetcher fails, the [catch] block answers by the text
    of the error message: an upstream 404 is answered 404; an upstream 401
    or 403 whose error text does not contain 404 is answered 403; a
    transport failure whose message names ECONNREFUSED or ETIMEDOUT, and
    contains none of 404, 403 and 401, is answered 503; and the answer is
    the generic 500 exactly when the message contains none of the five
    markers.  The handler of api/sheets.js answers 500 to whatever is
    thrown. *)
Theorem upstream_failure_answer
    (e : env) (req : request)
    (c : SheetsConsolidated.clock) (st : SheetsConsolidated.state) (url : string)
    (c1 : Sheets.clock) (st1 : Sheets.state) :
  SheetsConsolidated.asks_upstream e c st req url →
  let resp := SheetsConsolidated.response_of (SheetsConsolidated.handler e c st req) in
  (∀ r, fetch e url = Resolved r → up_status r = 404 → status resp = 404) ∧
  (∀ r, fetch e url = Resolved r →
        up_status r = 401 ∨ up_status r = 403 →
        Js.includes (up_text r) "404" = false →
        status resp = 403) ∧
  (∀ m, fetch e url = Rejected m →
        Js.includes m "ECONNREFUSED" = true ∨ Js.includes m "ETIMEDOUT" = true →
        Js.includes m "404" = false →
        Js.includes m "403" = false →
        Js.includes m "401" = false →
        status resp = 503) ∧
  (∀ m, SheetsConsolidated.fetchFromGoogleSheets (fetch e url) = Js.Throw m →
        (status resp = 500 ↔ SheetsConsolidated.unclassified m)) ∧
  (∀ m, method req ≠ "OPTIONS" →
        (Sheets.checkRateLimit (Sheets.rateLimitMap st1) (Sheets.ip_of req)
           (Sheets.at_limit c1)).1 = true →
        (Sheets.try_body e c1 req
           (Sheets.mkWorld (Sheets.serverCache st1) [RateCheck (Sheets.ip_of req)])).1
          = Js.Throw m →
        status (Sheets.response_of (Sheets.handler e c1 st1 req)) = 500).
Proof.
  intros Hasks resp.
  assert (Hclass : ∀ m,
    SheetsConsolidated.fetchFromGoogleSheets (fetch e url) = Js.Throw m →
    status resp
    = if Js.includes m "404" then 404
      else if Js.includes m "403" || Js.includes m "401" then 403
      else if Js.includes m "ECONNREFUSED" || Js.includes m "ETIMEDOUT" then 503
      else 500).
  { intros m Hm. subst resp.
    rewrite (handler_upstream_failure e c st req url m Hasks Hm).
    apply classify_status. }
  split; [|split; [|split; [|split]]].
  - intros r Hr H404.
    rewrite (Hclass _ (eq_trans (f_equal _ Hr)
               (upstream_message r ltac:(unfold ok; rewrite H404; reflexivity)))).
    rewrite H404. by rewrite message_404.
  - intros r Hr Hdenied Hclean.
    assert (Hok : ok r = false) by (unfold ok; destruct Hdenied as [-> | ->]; reflexivity).
    rewrite (Hclass _ (eq_trans (f_equal _ Hr) (upstream_message r Hok))).
    destruct Hdenied as [H | H]; rewrite H.
    + destruct (message_401 (up_text r)) as [-> ->]. rewrite Hclean.
      by rewrite orb_true_r.
    + destruct (message_403 (up_text r)) as [-> ->]. by rewrite Hclean.
  - intros m Hm Hnet H404 H403 H401.
    rewrite (Hclass m) by (by rewrite Hm).
    rewrite H404, H403, H401. simpl.
    by destruct Hnet as [-> | ->]; rewrite ?orb_true_r.
  - intros m Hm. rewrite (Hclass m Hm). unfold SheetsConsolidated.unclassified.
    destruct (Js.includes m "404"), (Js.includes m "403"), (Js.includes m "401"),
      (Js.includes m "ECONNREFUSED"), (Js.includes m "ETIMEDOUT"); simpl;
      split; (done || (by intros (? & ? & ? & ? & ?))).
  - intros m. apply legacy_failure.
Qed.

(** The scenario of the specification: a request for [?sheet=Roster] that
    the upstream answers with 404 is answered 404. *)
Lemma upstream_failure_answer_witness :
  status (SheetsConsolidated.response_of
            (SheetsConsolidated.handler (Scenario.server Scenario.not_found)
               (Scenario.at_time 0) SheetsConsolidated.initial
               Scenario.roster_request)) = 404.
Proof.
  pose proof (upstream_failure_answer (Scenario.server Scenario.not_found)
                Scenario.roster_request (Scenario.at_time 0)
                SheetsConsolidated.initial
                (SheetsConsolidated.values_url
                   (Scenario.server Scenario.not_found) "Roster")
                (Scenario.at_time_legacy 0) Sheets.initial) as H.
  destruct H as (H404 & _).
  - split; [reflexivity|]. split; [vm_compute; reflexivity|].
    split; [reflexivity|]. right. split; [discriminate|].
    exists "Roster". repeat split; reflexivity.
  - eapply H404; reflexivity.
Defined.

(** C5 as stated fails in three ways.  The upstream denies access (403)
    with an error text that holds the digits 404: the consolidated handler
    answers 404.  The transport fails with the message of the runtime's
    [fetch], which names no error code: it answers 500.  And the handler
    of api/sheets.js answers an upstream 404 with 500. *)
Lemma upstream_failure_counterexample :
  (∃ r, Scenario.denied = Resolved r ∧ up_status r = 403) ∧
  status (SheetsConsolidated.response_of
            (SheetsConsolidated.handler (Scenario.server Scenario.denied)
               (Scenario.at_time 0) SheetsConsolidated.initial
               Scenario.roster_request)) = 404 ∧
  status (SheetsConsolidated.response_of
            (SheetsConsolidated.handler (Scenario.server (Rejected "fetch failed"))
               (Scenario.at_time 0) SheetsConsolidated.initial
               Scenario.roster_request)) = 500 ∧
  status (Sheets.response_of
            (Sheets.handler (Scenario.server Scenario.not_found)
               (Scenario.at_time_legacy 0) Sheets.initial
               Scenario.roster_request)) = 500.
Proof.
  split; [eexists; split; reflexivity|].
  split; [vm_compute; reflexivity|].
  split; vm_compute; reflexivity.
Qed.

End RouterProperties.

(** ** Named cache stores *)
Section CacheStores.

Import Worker.

Lemma store_of_set (cs : caches) (name name' : string) (st : gmap string response) :
  store_of (JsMap.set cs name st) name'
  = if bool_decide (name = name') then st else store_of cs name'.
Proof.
  unfold store_of. case_bool_decide as Hn.
  - subst. by rewrite get_set_eq.
  - by rewrite get_set_ne.
Qed.

(** Opening a store changes the content of none. *)
Lemma cache_match_open (cs : caches) (name name' u : string) :
  cache_match (caches_open cs name) name' u = cache_match cs name' u.
Proof.
  unfold cache_match, caches_open, JsMap.has.
  case_bool_decide as Hhas; [done|].
  rewrite store_of_set. case_bool_decide as Hn; [|done].
  subst. unfold store_of.
  destruct (JsMap.get cs name') as [st|] eqn:E; [|done].
  exfalso. apply Hhas. by exists st.
Qed.

Lemma cache_match_put (cs : caches) (name u name' u' : string) (r : response) :
  cache_match (cache_put cs name u r) name' u'
  = if bool_decide (name = name' ∧ u = u') then Some r else cache_match cs name' u'.
Proof.
  unfold cache_match, cache_put. rewrite store_of_set.
  case_bool_decide as Hn.
  - subst. destruct (decide (u = u')) as [->|Hu].
    + rewrite lookup_insert_eq. by rewrite bool_decide_eq_true_2.
    + rewrite lookup_insert_ne by done.
      by rewrite bool_decide_eq_false_2 by (intros [_ ?]; done).
  - by rewrite bool_decide_eq_false_2 by (intros [? _]; done).
Qed.

(** What a store holds is found by [caches.match]. *)
Lemma caches_match_finds (cs : caches) (name u : string) (r : response) :
  cache_match cs name u = Some r → is_Some (caches_match cs u).
Proof.
  unfold cache_match, store_of.
  induction cs as [|[k st] cs IH]; simpl; [done|].
  destruct (st !! u) as [r'|] eqn:E; [by eexists|].
  destruct (String.eqb_spec k name) as [->|Hne]; simpl.
  - by rewrite E.
  - apply IH.
Qed.

Lemma put_if_200_spec (cs : caches) (name : string) (req : request) (r : response) :
  put_if_200 cs name req r
  = if bool_decide (status r = 200)
    then (if cacheable req
          then Some (cache_put cs name (url req) r, [(name, url req, r)])
          else None)
    else Some (cs, []).
Proof.
  unfold put_if_200. destruct (Z.eqb_spec (status r) 200).
  - by rewrite bool_decide_eq_true_2.
  - by rewrite bool_decide_eq_false_2.
Qed.

(** [headers.set] and [headers.get]. *)
Lemma same_name_trans (a b c : string) :
  same_name a b = true → same_name a c = false → same_name b c = false.
Proof.
  unfold same_name. intros Hab%String.eqb_eq Hac. by rewrite <- Hab.
Qed.




(** A lookup for a request, through the opening of a store. *)
Lemma cache_match_request_open (cs : caches) (name name' : string) (req : request) :
  cache_match_request (caches_open cs name) name' req = cache_match_request cs name' req.
Proof. unfold cache_match_request. by rewrite cache_match_open. Qed.

End CacheStores.

(** ** The fetch strategies of sw.js *)
Section WorkerStrategies.

Import Worker SW.

Lemma handleAPIRequest_writes (cs : caches) (req : request) (n : net) :
  puts (handleAPIRequest cs req n) = writes_of CACHE_API req n ∧
  caches_after (handleAPIRequest cs req n)
  = apply_puts (caches_open cs CACHE_API) (writes_of CACHE_API req n).
Proof.
  unfold handleAPIRequest, writes_of. cbv zeta. destruct n as [r|].
  - rewrite put_if_200_spec. case_bool_decide; [|done].
    destruct (cacheable req); [done|]. by destruct (cache_match_request _ _ _).
  - by destruct (cache_match_request _ _ _).
Qed.

Lemma cache_first_writes (name text : string) (cs : caches) (req : request) (n : net) :
  puts (cache_first name text cs req n) = writes_of name req n ∧
  caches_after (cache_first name text cs req n)
  = apply_puts (caches_open cs name) (writes_of name req n).
Proof.
  unfold cache_first, writes_of. cbv zeta.
  destruct (cache_match_request _ _ _) as [cached|], n as [r|]; try done;
    rewrite put_if_200_spec; (case_bool_decide; [|done]);
    by destruct (cacheable req).
Qed.

Lemma handleDocumentRequest_writes (self_origin : string) (cs : caches)
    (req : request) (n : net) :
  puts (handleDocumentRequest self_origin cs req n) = writes_of CACHE_DYNAMIC req n ∧
  caches_after (handleDocumentRequest self_origin cs req n)
  = apply_puts (caches_open cs CACHE_DYNAMIC) (writes_of CACHE_DYNAMIC req n).
Proof.
  unfold handleDocumentRequest, writes_of. cbv zeta. destruct n as [r|].
  - rewrite put_if_200_spec. case_bool_decide; [|done].
    destruct (cacheable req); [done|]. by destruct (cache_match_request _ _ _).
  - by destruct (cache_match_request _ _ _).
Qed.

Lemma on_fetch_writes (self_origin : string) (cs : caches) (req : request) (n : net)
    (res : result) :
  on_fetch self_origin cs req n = Some res →
  let name := store_name (route self_origin req) in
  puts res = writes_of name req n ∧
  caches_after res = apply_puts (caches_open cs name) (writes_of name req n).
Proof.
  unfold on_fetch. destruct (route self_origin req); intros [= <-]; simpl.
  - apply handleAPIRequest_writes.
  - apply cache_first_writes.
  - apply handleDocumentRequest_writes.
  - apply cache_first_writes.
Qed.

(** C9. Whatever strategy the fetch listener of sw.js picks, every write
    it makes into a cache store is of a response with status 200: the
    stores afterwards are the stores before, opened, with exactly the
    recorded writes applied; each recorded write has status 200; a fetch
    that failed, or resolved with another status, leaves no write; so
    every response found in a store afterwards was there before or has
    status 200.  A response with another status is handed to the page,
    unless a cached copy is served in its place. *)
Theorem only_status_200_is_cached (self_origin : string) (cs : caches)
    (req : request) (n : net) (res : result) :
  on_fetch self_origin cs req n = Some res →
  Forall (λ p, status p.2 = 200) (puts res) ∧
  (∃ name, caches_after res = apply_puts (caches_open cs name) (puts res)) ∧
  (n = Failed → puts res = []) ∧
  (∀ r, n = Resolved r → status r ≠ 200 →
        puts res = [] ∧
        (answer res = Some r ∨
         ∃ name, answer res = cache_match cs name (url req) ∧ is_Some (answer res))) ∧
  (∀ name u r, cache_match (caches_after res) name u = Some r →
               cache_match cs name u = Some r ∨ status r = 200).
Proof.
  intros Hres.
  pose proof (on_fetch_writes self_origin cs req n res Hres) as [Hputs Hafter].
  simpl in Hputs, Hafter.
  set (nm := store_name (route self_origin req)) in *.
  assert (H200 : Forall (λ p, status p.2 = 200) (writes_of nm req n)).
  { unfold writes_of. destruct n as [r|]; [|constructor].
    case_bool_decide; [|constructor].
    destruct (cacheable req); [|constructor]. by repeat constructor. }
  split; [by rewrite Hputs|].
  split; [exists nm; by rewrite Hputs|].
  split; [intros ->; by rewrite Hputs|].
  split.
  - intros r -> Hne. split.
    { rewrite Hputs. unfold writes_of. by rewrite bool_decide_eq_false_2. }
    assert (Hfirst : ∀ name text,
              answer (cache_first name text cs req (Resolved r)) = Some r ∨
              ∃ name', answer (cache_first name text cs req (Resolved r))
                       = cache_match cs name' (url req) ∧
                       is_Some (answer (cache_first name text cs req (Resolved r)))).
    { intros name text. unfold cache_first. cbv zeta.
      rewrite put_if_200_spec, bool_decide_eq_false_2 by done.
      rewrite cache_match_request_open.
      destruct (cache_match_request cs name req) as [cached|] eqn:E; [|by left].
      right. exists name. unfold cache_match_request in E.
      destruct (cacheable req); [|done]. by rewrite E. }
    unfold on_fetch in Hres.
    destruct (route self_origin req); try done; injection Hres as <-.
    + left. unfold handleAPIRequest. cbv zeta.
      by rewrite put_if_200_spec, bool_decide_eq_false_2.
    + apply Hfirst.
    + left. unfold handleDocumentRequest. cbv zeta.
      by rewrite put_if_200_spec, bool_decide_eq_false_2.
    + apply Hfirst.
  - intros name u r. rewrite Hafter. unfold writes_of.
    destruct n as [nr|]; simpl; [|rewrite cache_match_open; by left].
    case_bool_decide as Hst; simpl; [|rewrite cache_match_open; by left].
    destruct (cacheable req); simpl; [|rewrite cache_match_open; by left].
    rewrite cache_match_put. case_bool_decide.
    + intros [= <-]. by right.
    + rewrite cache_match_open. by left.
Qed.

(** The installed worker is online for an API call that the server answers
    with 200: the answer is stored in the API store, with status 200. *)
Lemma only_status_200_is_cached_witness :
  Forall (λ p, status p.2 = 200)
    (puts (handleAPIRequest Scenario.installed Scenario.api_call
             (Resolved (mkResponse 200 "OK" [] (Text "{}"))))) ∧
  puts (handleAPIRequest Scenario.installed Scenario.api_call
          (Resolved (mkResponse 200 "OK" [] (Text "{}")))) ≠ [].
Proof.
  pose proof (only_status_200_is_cached Scenario.app_origin Scenario.installed
                Scenario.api_call (Resolved (mkResponse 200 "OK" [] (Text "{}")))
                (handleAPIRequest Scenario.installed Scenario.api_call
                   (Resolved (mkResponse 200 "OK" [] (Text "{}"))))) as H.
  destruct H as (H200 & _); [reflexivity|].
  split; [exact H200|]. vm_compute. discriminate.
Defined.





(** C6, where the code departs from it.  A navigation whose fetch fails,
    with no copy of the page and no copy of [/index.html] in the dynamic
    store, is answered with [undefined], which fails the navigation:
    however the static store, where the install event put the root
    document, is never looked at. *)
Theorem document_fallback_ignores_static_store (self_origin : string)
    (cs : caches) (req : request) (root : response) :
  route self_origin req = Document →
  cache_match cs CACHE_STATIC (self_origin +:+ "/index.html") = Some root →
  cache_match cs CACHE_DYNAMIC (url req) = None →
  cache_match cs CACHE_DYNAMIC (self_origin +:+ "/index.html") = None →
  ∃ res, on_fetch self_origin cs req Failed = Some res ∧ answer res = None.
Proof.
  intros Hroute Hroot Hpage Hindex. unfold on_fetch. rewrite Hroute.
  eexists. split; [done|]. unfold handleDocumentRequest. cbv zeta.
  rewrite cache_match_request_open, cache_match_open.
  unfold cache_match_request. rewrite Hpage.
  destruct (cacheable req); simpl; by rewrite Hindex.
Qed.

(** The worker is freshly installed, so that the static store holds the
    root document; the first navigation to a page happens offline. *)
Lemma document_fallback_ignores_static_store_witness :
  is_Some (cache_match Scenario.installed CACHE_STATIC
             (Scenario.app_origin +:+ "/index.html")) ∧
  ∃ res, on_fetch Scenario.app_origin Scenario.installed Scenario.reports_page Failed
         = Some res ∧ answer res = None.
Proof.
  split; [vm_compute; by eexists|].
  apply (document_fallback_ignores_static_store Scenario.app_origin Scenario.installed
           Scenario.reports_page
           (Scenario.asset (Scenario.app_origin +:+ "/index.html"))).
  - reflexivity.
  - vm_compute. reflexivity.
  - vm_compute. reflexivity.
  - vm_compute. reflexivity.
Defined.

(** The fallback works when the dynamic store holds [/index.html], that is
    after that very page was once fetched as a document with status 200. *)
Lemma document_fallback_from_dynamic_store (self_origin : string) (cs : caches)
    (req : request) :
  route self_origin req = Document →
  ∃ res,
    on_fetch self_origin cs req Failed = Some res ∧
    answer res
    = match cache_match_request cs CACHE_DYNAMIC req with
      | Some cachedResponse => Some cachedResponse
      | None => cache_match cs CACHE_DYNAMIC (self_origin +:+ "/index.html")
      end.
Proof.
  intros Hroute. unfold on_fetch. rewrite Hroute.
  eexists. split; [done|]. unfold handleDocumentRequest. cbv zeta.
  rewrite cache_match_request_open, cache_match_open.
  by destruct (cache_match_request cs CACHE_DYNAMIC req).
Qed.

End WorkerStrategies.

(** ** The fetch listener of the first version of sw.js *)
Section WorkerV1.

Import Worker.

(** Version 1.0.0 falls back with [caches.match], which looks in every
    store: a navigation that fails offline is answered as soon as any
    store holds the page or [/index.html]. *)
Lemma v1_document_fallback (self_origin : string) (cs : caches) (req : request)
    (name : string) (root : response) :
  Js.startsWith (pathname req) "/api/" = false →
  destination req = "document" →
  cache_match cs name (self_origin +:+ "/index.html") = Some root →
  is_Some (answer (SWv1.on_fetch self_origin cs req Failed)).
Proof.
  intros Hapi Hdoc Hroot. unfold SWv1.on_fetch. rewrite Hapi.
  destruct (caches_match_request cs req) as [cached|]; simpl; [by eexists|].
  rewrite Hdoc. simpl. by eapply caches_match_finds.
Qed.

(** Version 1.0.0 never caches an API response: the network's answer is
    passed on, and a failed fetch is answered with a 503 whose JSON body
    says [offline: true]. *)
Lemma v1_api_request (self_origin : string) (cs : caches) (req : request) (n : net) :
  Js.startsWith (pathname req) "/api/" = true →
  let res := SWv1.on_fetch self_origin cs req n in
  puts res = [] ∧ caches_after res = cs ∧
  match n with
  | Resolved r => answer res = Some r
  | Failed =>
      ∃ r, answer res = Some r ∧ status r = 503 ∧
           ∃ fields, content r = Stringified (Js.JObj fields) ∧
                     Js.field fields "offline" = Js.JBool true
  end.
Proof.
  intros Hapi res. subst res. unfold SWv1.on_fetch. rewrite Hapi.
  destruct n as [r|]; simpl; [done|].
  split; [done|]. split; [done|].
  eexists. split; [done|]. split; [done|]. eexists. split; [done|]. reflexivity.
Qed.

End WorkerV1.

(** ** More on the rate limiter of api/rate-limit.js *)
Section RateLimiterGuarantees.

Import RateLimiter.

(** The result of [check], read off the pruned window. *)
Lemma check_result (rl : t) (id : string) (now : Z) :
  (check rl id now).1
  = let w := prune (now - windowMs rl) (window rl id) in
    if bool_decide (maxRequests rl ≤ Z.of_nat (length w))
    then mkResult false 0 (Js.plus (Js.Math_min w) (windowMs rl))
    else mkResult true (maxRequests rl - Z.of_nat (length (w ++ [now])))
           (Js.Num (now + windowMs rl)).
Proof.
  unfold check. rewrite check_pruned_window. simpl. by case_bool_decide.
Qed.

(** The window [check] leaves for the identifier it was called for. *)
Lemma check_window_after (rl : t) (id : string) (now : Z) :
  window (check rl id now).2 id
  = let w := prune (now - windowMs rl) (window rl id) in
    if bool_decide (maxRequests rl ≤ Z.of_nat (length w)) then w else w ++ [now].
Proof.
  unfold check. rewrite check_pruned_window. simpl. case_bool_decide.
  - unfold window. simpl. destruct (requests rl !! id) as [ts|] eqn:E.
    + by rewrite lookup_insert_eq.
    + by rewrite E.
  - unfold window at 1. simpl. by rewrite lookup_insert_eq.
Qed.

Lemma prune_all (a : Z) (ts : list Z) :
  Forall (λ t, a < t) ts → prune a ts = ts.
Proof.
  unfold prune. induction 1 as [|x l Hx Hl IH]; [done|].
  rewrite filter_cons_True by done. by rewrite IH.
Qed.

Lemma check_keeps_quota (rl : t) (id : string) (now : Z) :
  (∀ id', (length (window rl id') ≤ Z.to_nat (maxRequests rl))%nat) →
  ∀ id', (length (window (check rl id now).2 id')
          ≤ Z.to_nat (maxRequests (check rl id now).2))%nat.
Proof.
  intros Hq id'. rewrite (proj1 (check_config rl id now)).
  destruct (decide (id = id')) as [<-|Hne].
  - rewrite check_window_after. simpl.
    pose proof (length_filter (λ t, now - windowMs rl < t) (window rl id)) as Hle.
    specialize (Hq id). unfold prune. case_bool_decide as Hfull.
    + lia.
    + rewrite length_app. simpl. lia.
  - rewrite check_other by done. apply Hq.
Qed.

Lemma cleanup_keeps_quota (rl : t) (now : Z) :
  (∀ id', (length (window rl id') ≤ Z.to_nat (maxRequests rl))%nat) →
  ∀ id', (length (window (cleanup rl now) id')
          ≤ Z.to_nat (maxRequests (cleanup rl now)))%nat.
Proof.
  intros Hq id'. rewrite cleanup_window. simpl.
  pose proof (length_filter (λ t, now - windowMs rl < t) (window rl id')).
  specialize (Hq id'). unfold prune. lia.
Qed.

(** However a limiter is used, no window grows beyond the quota. *)
Lemma run_keeps_quota (rl : t) (es : list event) :
  (∀ id', (length (window rl id') ≤ Z.to_nat (maxRequests rl))%nat) →
  ∀ id', (length (window (run rl es).1 id')
          ≤ Z.to_nat (maxRequests (run rl es).1))%nat.
Proof.
  revert rl. induction es as [|[id now|now] es IH]; intros rl Hq; simpl; [done|..].
  - pose proof (check_keeps_quota rl id now Hq) as Hq'.
    destruct (check rl id now) as [r rl']. simpl in Hq'.
    specialize (IH rl' Hq'). by destruct (run rl' es).
  - apply IH. by apply cleanup_keeps_quota.
Qed.

Lemma fresh_run_quota (M W : Z) (es : list event) (id : string) :
  (length (window (run (new M W) es).1 id) ≤ Z.to_nat M)%nat.
Proof.
  pose proof (run_keeps_quota (new M W) es) as H.
  rewrite (proj1 (run_config (new M W) es)) in H. apply H.
  intros id'. unfold window, new. simpl. rewrite lookup_empty. simpl. lia.
Qed.

(** X1. The guarantee of the limiter: at any moment of a history, of
    [check] calls and cleanups in the order of their clock readings, no
    identifier has more than [maxRequests] admitted calls in the trailing
    window; and no identifier's stored window is ever longer than
    [maxRequests]. *)
Theorem admitted_calls_within_quota (M W : Z) (es : list event) (id : string)
    (now : Z) :
  StronglySorted Z.le (map event_time es) →
  Forall (λ e, event_time e ≤ now) es →
  (length (prune (now - W) (admitted id (run (new M W) es).2)) ≤ Z.to_nat M)%nat ∧
  (length (window (run (new M W) es).1 id) ≤ Z.to_nat M)%nat.
Proof.
  intros Hsorted Hnow. split; [|apply fresh_run_quota].
  rewrite <- (window_is_admitted M W es id now Hsorted Hnow).
  pose proof (fresh_run_quota M W es id).
  pose proof (length_filter (λ t, now - W < t) (window (run (new M W) es).1 id)).
  unfold prune. lia.
Qed.

Lemma admitted_calls_within_quota_witness :
  (length (prune (1001 - 1000)
     (admitted "a" (run (new 3 1000)
        [Check "a" 0; Check "a" 0; Check "a" 0; Check "a" 100; Check "a" 1001]).2))
   ≤ Z.to_nat 3)%nat.
Proof.
  apply (admitted_calls_within_quota 3 1000
           [Check "a" 0; Check "a" 0; Check "a" 0; Check "a" 100; Check "a" 1001]
           "a" 1001).
  - simpl. repeat constructor; lia.
  - repeat constructor; simpl; lia.
Defined.

(** X2. [resetAt] is exact: once a [check] of an identifier is rejected
    with [resetAt = r], a further [check] of it is rejected at every
    moment before [r] and admitted at every moment from [r] on. *)
Theorem rejected_until_resetAt (M W : Z) (es : list event) (id : string)
    (now r t : Z) :
  let rl := (run (new M W) es).1 in
  allowed (check rl id now).1 = false →
  resetAt (check rl id now).1 = Js.Num r →
  allowed (check (check rl id now).2 id t).1 = bool_decide (r ≤ t).
Proof.
  intros rl Hrej Hreset.
  pose proof (fresh_run_quota M W es id) as Hq. fold rl in Hq.
  pose proof (run_config (new M W) es) as [HM HW]. simpl in HM, HW. fold rl in HM, HW.
  pose proof (check_window_after rl id now) as Hwin.
  rewrite check_result in Hrej, Hreset. rewrite HM, HW in *. simpl in *.
  set (w := prune (now - W) (window rl id)) in *.
  case_bool_decide as Hfull; [|done]. simpl in Hreset.
  destruct (Js.Math_min w) as [m|] eqn:Emin; [|done].
  injection Hreset as <-.
  apply Math_min_least in Emin as [Hin Hall].
  assert (Hlen : (length w ≤ length (window rl id))%nat)
    by apply (length_filter (λ x, now - W < x)).
  clearbody w.
  assert (HMpos : 0 < M).
  { destruct w; [by apply elem_of_nil in Hin|]. simpl in *. lia. }
  rewrite check_result.
  rewrite (proj1 (check_config rl id now)), (proj2 (check_config rl id now)).
  rewrite Hwin, HM, HW. simpl.
  destruct (decide (m + W ≤ t)) as [Hlate|Hearly].
  - assert (Hshort : (length (prune (t - W) w) < length w)%nat).
    { apply (length_filter_lt (λ x, t - W < x) w m); [done|simpl; lia]. }
    rewrite (bool_decide_eq_true_2 (m + W ≤ t)) by done.
    by rewrite bool_decide_eq_false_2 by lia.
  - rewrite (bool_decide_eq_false_2 (m + W ≤ t)) by done.
    rewrite prune_all.
    + by rewrite bool_decide_eq_true_2.
    + eapply Forall_impl; [exact Hall|]. simpl. lia.
Qed.

Lemma rejected_until_resetAt_witness :
  allowed (check
             (check (run (new 3 1000) [Check "a" 0; Check "a" 0; Check "a" 0]).1
                "a" 100).2 "a" 999).1 = bool_decide (1000 ≤ 999) ∧
  allowed (check
             (check (run (new 3 1000) [Check "a" 0; Check "a" 0; Check "a" 0]).1
                "a" 100).2 "a" 1000).1 = bool_decide (1000 ≤ 1000).
Proof.
  split.
  - apply (rejected_until_resetAt 3 1000 [Check "a" 0; Check "a" 0; Check "a" 0]
             "a" 100 1000 999); vm_compute; reflexivity.
  - apply (rejected_until_resetAt 3 1000 [Check "a" 0; Check "a" 0; Check "a" 0]
             "a" 100 1000 1000); vm_compute; reflexivity.
Defined.

(** X3. The periodic [cleanup] is invisible to [check]: a cleanup that
    ran no later than a call changes neither what the call returns nor
    the window it leaves; and a cleanup leaves no identifier with an empty
    window. *)
Theorem cleanup_keeps_decisions (rl : t) (id : string) (swept now : Z) :
  swept ≤ now →
  (check (cleanup rl swept) id now).1 = (check rl id now).1 ∧
  window (check (cleanup rl swept) id now).2 id = window (check rl id now).2 id ∧
  (∀ id', requests (cleanup rl swept) !! id' ≠ Some []).
Proof.
  intros Hle.
  assert (Hw : prune (now - windowMs rl) (window (cleanup rl swept) id)
               = prune (now - windowMs rl) (window rl id)).
  { rewrite cleanup_window. apply prune_prune. lia. }
  split; [|split].
  - rewrite !check_result.
    change (windowMs (cleanup rl swept)) with (windowMs rl).
    change (maxRequests (cleanup rl swept)) with (maxRequests rl).
    cbv zeta. by rewrite Hw.
  - rewrite !check_window_after.
    change (windowMs (cleanup rl swept)) with (windowMs rl).
    change (maxRequests (cleanup rl swept)) with (maxRequests rl).
    cbv zeta. by rewrite Hw.
  - intros id'. unfold cleanup. simpl. rewrite lookup_omap.
    destruct (requests rl !! id') as [ts|]; simpl; [|done].
    by destruct (prune (swept - windowMs rl) ts).
Qed.

Lemma cleanup_keeps_decisions_witness :
  (check (cleanup (run (new 3 1000) [Check "a" 0; Check "a" 900]).1 1500) "a" 1600).1
  = (check (run (new 3 1000) [Check "a" 0; Check "a" 900]).1 "a" 1600).1.
Proof.
  apply (cleanup_keeps_decisions
           (run (new 3 1000) [Check "a" 0; Check "a" 900]).1 "a" 1500 1600).
  lia.
Defined.

(** X4. [reset] gives an identifier its whole quota back and touches no
    other identifier. *)
Theorem reset_restores_quota (rl : t) (id : string) (now : Z) :
  0 < maxRequests rl →
  (check (reset rl id) id now).1
    = mkResult true (maxRequests rl - 1) (Js.Num (now + windowMs rl)) ∧
  window (reset rl id) id = [] ∧
  (∀ id', id' ≠ id → window (reset rl id) id' = window rl id').
Proof.
  intros Hpos.
  assert (Hempty : window (reset rl id) id = []).
  { unfold window, reset. simpl. by rewrite lookup_delete_eq. }
  split; [|split; [done|]].
  - rewrite check_result. rewrite Hempty. simpl.
    by rewrite bool_decide_eq_false_2 by lia.
  - intros id' Hne. unfold window, reset. simpl. by rewrite lookup_delete_ne.
Qed.

Lemma reset_restores_quota_witness :
  (check (reset (run (new 3 1000) [Check "a" 0; Check "a" 0; Check "a" 0]).1 "a")
     "a" 100).1
  = mkResult true (3 - 1) (Js.Num (100 + 1000)).
Proof.
  apply (reset_restores_quota
           (run (new 3 1000) [Check "a" 0; Check "a" 0; Check "a" 0]).1 "a" 100).
  reflexivity.
Defined.

End RateLimiterGuarantees.

(** ** The endpoint of api/rate-limit.js and the client's identity *)
Section RateLimitEndpoint.

Import RateLimiter.

Lemma check_keeps_times (rl : t) (id : string) (now T : Z) :
  now ≤ T →
  (∀ id', Forall (λ x, x ≤ T) (window rl id')) →
  ∀ id', Forall (λ x, x ≤ T) (window (check rl id now).2 id').
Proof.
  intros Hnow Hinv id'. destruct (decide (id = id')) as [<-|Hne].
  - rewrite check_window_after. simpl.
    assert (Hw : Forall (λ x, x ≤ T) (prune (now - windowMs rl) (window rl id))).
    { apply Forall_forall. intros x Hx. unfold prune in Hx.
      apply list_elem_of_filter in Hx as [_ Hx].
      specialize (Hinv id). rewrite Forall_forall in Hinv. by apply Hinv. }
    case_bool_decide; [done|]. apply Forall_app. split; [done|].
    by apply Forall_singleton.
  - rewrite check_other by done. apply Hinv.
Qed.

Lemma run_keeps_times (rl : t) (es : list event) (T : Z) :
  Forall (λ e, event_time e ≤ T) es →
  (∀ id', Forall (λ x, x ≤ T) (window rl id')) →
  ∀ id', Forall (λ x, x ≤ T) (window (run rl es).1 id').
Proof.
  revert rl. induction es as [|[id now|now] es IH]; intros rl Hes Hinv; simpl; [done|..].
  - apply Forall_cons in Hes as [Hnow Hes]. simpl in Hnow.
    pose proof (check_keeps_times rl id now T Hnow Hinv) as Hinv'.
    destruct (check rl id now) as [r rl']. simpl in Hinv'.
    specialize (IH rl' Hes Hinv'). by destruct (run rl' es).
  - apply Forall_cons in Hes as [_ Hes]. apply IH; [done|].
    intros id'. rewrite cleanup_window. apply Forall_forall. intros x Hx.
    unfold prune in Hx. apply list_elem_of_filter in Hx as [_ Hx].
    specialize (Hinv id'). rewrite Forall_forall in Hinv. by apply Hinv.
Qed.

Lemma ceil_div_mono (x y : Z) : x ≤ y → Js.ceil_div x 1000 ≤ Js.ceil_div y 1000.
Proof.
  intros Hxy. unfold Js.ceil_div.
  pose proof (Z.div_le_mono (- y) (- x) 1000 ltac:(lia) ltac:(lia)). lia.
Qed.

Lemma ceil_div_pos (x : Z) : 0 < x → 1 ≤ Js.ceil_div x 1000.
Proof.
  intros Hx. unfold Js.ceil_div.
  pose proof (Z.div_lt_upper_bound (- x) 1000 0 ltac:(lia) ltac:(lia)). lia.
Qed.

(** X5. The 429 of the endpoint: on a limiter with a positive quota,
    used in the order of the clock, a rejected request is answered 429
    with X-RateLimit-Remaining 0, and its [retryAfter] is a number of
    seconds no larger than the window, and at least one when the two
    readings of the clock agree. *)
Theorem retry_after_bounded (M W : Z) (es : list event) (req : Http.request)
    (now now' : Z) :
  let rl := (run (new M W) es).1 in
  0 < M →
  Forall (λ e, event_time e ≤ now) es →
  now ≤ now' →
  allowed (check rl (identifier_of req) now).1 = false →
  ∃ k,
    status (handler rl req now now').1 = 429 ∧
    X_RateLimit_Remaining (handler rl req now now').1 = 0 ∧
    retryAfter (handler rl req now now').1 = Some (Js.Num k) ∧
    k ≤ Js.ceil_div W 1000 ∧
    (now' = now → 1 ≤ k).
Proof.
  intros rl HM Hes Hclock Hrej.
  pose proof (run_config (new M W) es) as [HcM HcW]. simpl in HcM, HcW.
  fold rl in HcM, HcW.
  assert (Htimes : Forall (λ x, x ≤ now) (window rl (identifier_of req))).
  { apply run_keeps_times; [done|]. intros id'. unfold window, new. simpl.
    rewrite lookup_empty. constructor. }
  unfold handler.
  destruct (check rl (identifier_of req) now) as [res rl'] eqn:Echk.
  pose proof (check_result rl (identifier_of req) now) as Hres.
  rewrite Echk, HcM, HcW in Hres. simpl in Hres, Hrej.
  set (w := prune (now - W) (window rl (identifier_of req))) in *.
  case_bool_decide as Hfull; [|subst res; done].
  destruct (Js.Math_min w) as [m|] eqn:Emin.
  2:{ assert (w = []) as Hw by (destruct w as [|x l]; [done|]; simpl in Emin;
        destruct (Js.Math_min l); done).
      rewrite Hw in Hfull. simpl in Hfull. lia. }
  apply Math_min_least in Emin as [Hin _].
  assert (Hm : now - W < m ∧ m ≤ now).
  { subst w. unfold prune in Hin. apply list_elem_of_filter in Hin as [Hlo Hin].
    rewrite Forall_forall in Htimes. split; [done|by apply Htimes]. }
  subst res. simpl. exists (Js.ceil_div (m + W - now') 1000).
  split; [done|]. split; [done|]. split; [done|]. split.
  - apply ceil_div_mono. lia.
  - intros ->. apply ceil_div_pos. lia.
Qed.

Lemma retry_after_bounded_witness :
  ∃ k,
    status (handler (run (new 30 60000) (replicate 30 (Check "203.0.113.7" 0))).1
              Scenario.roster_request 59000 59000).1 = 429 ∧
    X_RateLimit_Remaining
      (handler (run (new 30 60000) (replicate 30 (Check "203.0.113.7" 0))).1
         Scenario.roster_request 59000 59000).1 = 0 ∧
    retryAfter
      (handler (run (new 30 60000) (replicate 30 (Check "203.0.113.7" 0))).1
         Scenario.roster_request 59000 59000).1 = Some (Js.Num k) ∧
    k ≤ Js.ceil_div 60000 1000 ∧
    (59000 = 59000 → 1 ≤ k).
Proof.
  apply (retry_after_bounded 30 60000 (replicate 30 (Check "203.0.113.7" 0))
           Scenario.roster_request 59000 59000).
  - lia.
  - apply Forall_forall. intros e He. apply elem_of_replicate in He as [-> _].
    simpl. lia.
  - lia.
  - vm_compute. reflexivity.
Defined.

Lemma nonempty_not_empty (o : option string) (s : string) :
  Js.nonempty o = Some s → s ≠ "".
Proof.
  unfold Js.nonempty. destruct o as [x|]; [|done].
  destruct (String.eqb_spec x ""); [done|]. by intros [= <-].
Qed.

Lemma or_else_not_empty (a b : option string) (s : string) :
  (∀ x, b = Some x → x ≠ "") → Js.or_else a b = Some s → s ≠ "".
Proof.
  intros Hb. unfold Js.or_else. destruct (Js.nonempty a) as [x|] eqn:E.
  - intros [= <-]. by eapply nonempty_not_empty.
  - apply Hb.
Qed.

(** X6. The identifier a request is counted under is never the empty
    string, whichever of the three handlers resolves it: an empty or
    missing header falls through to the next source, and at last to
    [unknown]. *)
Theorem identifier_never_empty (req : Http.request) :
  identifier_of req ≠ "" ∧
  Sheets.ip_of req ≠ "" ∧
  SheetsConsolidated.ip_of req ≠ "".
Proof.
  assert (Hdef : ∀ o : option string,
            (∀ x, o = Some x → x ≠ "") → default "unknown" o ≠ "").
  { intros [x|] Ho; simpl; [by apply Ho | done]. }
  split; [|split].
  - apply Hdef. intros x. apply or_else_not_empty. intros y. apply nonempty_not_empty.
  - apply Hdef. intros x. apply or_else_not_empty. intros y.
    apply or_else_not_empty. intros z. apply nonempty_not_empty.
  - apply Hdef. intros x. apply or_else_not_empty. intros y.
    apply or_else_not_empty. intros z. apply nonempty_not_empty.
Qed.

End RateLimitEndpoint.

(** ** The three limiters side by side *)
Section LimitersAgree.

(** X7. The limiter written into api/sheets.js is the [RateLimiter] class
    at 30 requests a minute: the same decision and the same map
    afterwards.  The limiter of the consolidated handler takes the
    decision the class takes on the window of the identifier. *)
Theorem inline_limiters_follow_the_class (m : gmap string (list Z))
    (rl : JsMap.t (list Z)) (ip : string) (now : Z) :
  Sheets.checkRateLimit m ip now
  = (RateLimiter.allowed (RateLimiter.check (RateLimiter.mk 30 60000 m) ip now).1,
     RateLimiter.requests (RateLimiter.check (RateLimiter.mk 30 60000 m) ip now).2) ∧
  (SheetsConsolidated.checkRateLimit rl ip now).1
  = RateLimiter.allowed
      (RateLimiter.check
         (RateLimiter.mk 30 60000 {[ ip := default [] (JsMap.get rl ip) ]}) ip now).1.
Proof.
  assert (Hf : ∀ ws ts, filter (λ time, time > ws) ts = RateLimiter.prune ws ts).
  { intros ws ts. unfold RateLimiter.prune. apply list_filter_iff. intros x. lia. }
  split.
  - unfold Sheets.checkRateLimit, RateLimiter.check,
      Sheets.RATE_LIMIT_WINDOW, Sheets.MAX_REQUESTS_PER_MINUTE. simpl.
    destruct (m !! ip) as [ts|] eqn:E.
    + rewrite (bool_decide_eq_true_2 (is_Some (Some ts))) by (by eexists).
      rewrite E. simpl. rewrite Hf, lookup_insert_eq. simpl.
      set (w := RateLimiter.prune (now - 60000) ts).
      destruct (decide (30 ≤ Z.of_nat (length w))) as [Hfull|Hroom].
      * rewrite (bool_decide_eq_true_2 (Z.of_nat (length w) >= 30)) by lia.
        by rewrite (bool_decide_eq_true_2 (30 ≤ Z.of_nat (length w))).
      * rewrite (bool_decide_eq_false_2 (Z.of_nat (length w) >= 30)) by lia.
        by rewrite (bool_decide_eq_false_2 (30 ≤ Z.of_nat (length w))).
    + rewrite (bool_decide_eq_false_2 (is_Some None)) by (by intros [? ?]).
      rewrite lookup_insert_eq, E. simpl. rewrite filter_nil. simpl.
      by rewrite !insert_insert_eq.
  - rewrite check_result. unfold RateLimiter.window. simpl.
    rewrite lookup_singleton_eq. simpl.
    unfold SheetsConsolidated.checkRateLimit, SheetsConsolidated.RATE_WINDOW,
      SheetsConsolidated.MAX_REQUESTS.
    assert (Hg : filter (λ t, now - t < 60000) (default [] (JsMap.get rl ip))
                 = RateLimiter.prune (now - 60000) (default [] (JsMap.get rl ip))).
    { unfold RateLimiter.prune. apply list_filter_iff. intros x. lia. }
    rewrite Hg.
    set (w := RateLimiter.prune (now - 60000) (default [] (JsMap.get rl ip))).
    destruct (decide (30 ≤ Z.of_nat (length w))) as [Hfull|Hroom].
    + rewrite (bool_decide_eq_true_2 (Z.of_nat (length w) >= 30)) by lia.
      by rewrite (bool_decide_eq_true_2 (30 ≤ Z.of_nat (length w))).
    + rewrite (bool_decide_eq_false_2 (Z.of_nat (length w) >= 30)) by lia.
      by rewrite (bool_decide_eq_false_2 (30 ≤ Z.of_nat (length w))).
Qed.

End LimitersAgree.

(** ** The cache of the consolidated handler, between requests *)
Section ConsolidatedCacheInvariant.

Import Http SheetsConsolidated.

Lemma keys_delete_sublist {V} (m : JsMap.t V) (k : string) :
  JsMap.keys (JsMap.delete m k) `sublist_of` JsMap.keys m.
Proof.
  unfold JsMap.keys. induction m as [|[k' v'] m IH]; simpl; [done|].
  destruct (String.eqb k' k); simpl.
  - by apply sublist_cons.
  - by apply sublist_skip.
Qed.

Lemma cache_ok_sublist (c c' : JsMap.t entry) :
  JsMap.keys c' `sublist_of` JsMap.keys c → cache_ok c → cache_ok c'.
Proof.
  intros Hsub [Hnd Hsize]. split.
  - by eapply sublist_NoDup.
  - apply sublist_length in Hsub. unfold JsMap.keys in Hsub.
    rewrite !length_map in Hsub. unfold JsMap.size in *. lia.
Qed.

Lemma cache_ok_getCache (c : JsMap.t entry) (key : string) (now : Z) :
  cache_ok c → cache_ok (getCache c key now).2.
Proof.
  intros Hok. unfold getCache. destruct (JsMap.get c key) as [en|]; [|done].
  case_bool_decide; [|done]. simpl.
  eapply cache_ok_sublist; [apply keys_delete_sublist | done].
Qed.

Lemma cache_ok_setCache (c : JsMap.t entry) (key : string) (d : Js.json) (now : Z) :
  cache_ok c → cache_ok (setCache c key d now).
Proof.
  intros [Hnd Hsize]. unfold setCache, cache_ok, MAX_CACHE_SIZE in *.
  case_bool_decide as Hfull.
  - split; [by apply NoDup_keys_set, NoDup_keys_delete_first|].
    destruct c as [|[k0 e0] rest]; [unfold JsMap.size in Hfull; simpl in Hfull; lia|].
    rewrite delete_first_cons. unfold JsMap.size in *. rewrite length_set.
    simpl length in *. destruct (JsMap.get rest key); lia.
  - split; [by apply NoDup_keys_set|].
    unfold JsMap.size in *. rewrite length_set. destruct (JsMap.get c key); lia.
Qed.

Lemma cache_ok_cleanCache (c : JsMap.t entry) (now : Z) :
  cache_ok c → cache_ok (cleanCache c now).
Proof.
  apply cache_ok_sublist. unfold cleanCache, JsMap.keys.
  apply (fmap_sublist fst), sublist_filter.
Qed.

Lemma keeps_bind {A B} (m : M A) (k : A → M B) :
  keeps_cache m → (∀ a, keeps_cache (k a)) → keeps_cache (Http.bind m k).
Proof.
  intros Hm Hk w Hw. unfold Http.bind. specialize (Hm w Hw).
  destruct (m w) as [[a|msg] w']; simpl in *; [by apply Hk | done].
Qed.

Lemma keeps_getCacheM key now : keeps_cache (getCacheM key now).
Proof.
  intros w Hw. unfold getCacheM.
  pose proof (cache_ok_getCache (w_cache w) key now Hw).
  by destruct (getCache (w_cache w) key now).
Qed.

Lemma keeps_try_body (e : env) (c : clock) (req : request) :
  keeps_cache (try_body e c req).
Proof.
  assert (Hret : ∀ A (a : A), keeps_cache (Http.ret (W:=world) a)) by (by intros A a w Hw).
  assert (Hlift : ∀ A (x : Js.completion A), keeps_cache (Http.lift (W:=world) x))
    by (by intros A x w Hw).
  assert (Hset : ∀ key d now, keeps_cache (setCacheM key d now)).
  { intros key d now w Hw. simpl. by apply cache_ok_setCache. }
  assert (Hfetch : ∀ url, keeps_cache (fetchM e url)) by (by intros url w Hw).
  unfold try_body. destruct (negb (configured e)); [apply Hret|].
  case_bool_decide.
  - apply keeps_bind; [apply keeps_getCacheM|]. intros cached.
    apply keeps_bind.
    { destruct (Js.truthy cached); [apply Hret|].
      apply keeps_bind; [apply Hfetch|]. intros d.
      apply keeps_bind; [apply Hlift|]. intros titles.
      apply keeps_bind; [apply Hset|]. intros _. apply Hret. }
    intros sheets. apply keeps_bind; [apply keeps_getCacheM|]. intros again.
    apply Hret.
  - destruct (Js.nonempty (query_sheet req)) as [sheet|]; [|apply Hret].
    apply keeps_bind; [apply keeps_getCacheM|]. intros cached.
    apply keeps_bind.
    { destruct (Js.truthy cached); [apply Hret|].
      apply keeps_bind; [apply Hfetch|]. intros d.
      apply keeps_bind; [apply Hlift|]. intros values.
      apply keeps_bind; [apply Hset|]. intros _. apply Hret. }
    intros d. apply keeps_bind; [apply keeps_getCacheM|]. intros again.
    apply keeps_bind; [apply Hlift|]. intros _. apply Hret.
Qed.

Lemma handler_keeps_maps (e : env) (c : clock) (st : state) (req : request) :
  cache_ok (cache st) → bounded (rateLimits st) →
  cache_ok (cache (state_of (handler e c st req))) ∧
  bounded (rateLimits (state_of (handler e c st req))).
Proof.
  intros Hc Hr. unfold handler.
  destruct (String.eqb (method req) "OPTIONS"); [done|].
  destruct (negb (String.eqb (method req) "GET")); [done|].
  pose proof (checkRateLimit_bounded (rateLimits st) (ip_of req) (at_limit c) Hr) as Hr'.
  destruct (checkRateLimit _ _ _) as [a rl']. simpl in Hr'.
  destruct (negb a); [done|].
  pose proof (keeps_try_body e c req (mkWorld (cache st) [RateCheck (ip_of req)]) Hc)
    as Hc'.
  by destruct (try_body _ _ _ _) as [r w].
Qed.

(** X8. Whatever requests the consolidated handler serves, on whatever
    environment and clock, the cache never holds more than
    [MAX_CACHE_SIZE] entries nor the same key twice, and the map of
    windows never more than 1000 identifiers. *)
Theorem served_maps_stay_bounded (calls : list (env * clock * request)) :
  cache_ok (cache (serve initial calls)) ∧
  bounded (rateLimits (serve initial calls)).
Proof.
  assert (Hgen : ∀ st, cache_ok (cache st) → bounded (rateLimits st) →
            cache_ok (cache (serve st calls)) ∧ bounded (rateLimits (serve st calls))).
  { induction calls as [|[[e c] req] calls IH]; intros st Hc Hr; [done|].
    simpl. destruct (handler_keeps_maps e c st req Hc Hr). by apply IH. }
  apply Hgen.
  - split; [apply NoDup_nil_2|]. unfold JsMap.size, MAX_CACHE_SIZE. simpl. lia.
  - split; [apply NoDup_nil_2|]. unfold JsMap.size. simpl. lia.
Qed.

End ConsolidatedCacheInvariant.

(** ** What the sheets handlers can answer *)
Section AnswerSets.

Import Http.

Lemma consolidated_try_status (e : env) (c : SheetsConsolidated.clock)
    (req : request) (w : SheetsConsolidated.world) (r : response) :
  (SheetsConsolidated.try_body e c req w).1 = Js.Return r →
  status r ∈ [200; 400; 500].
Proof.
  unfold SheetsConsolidated.try_body, Http.bind, Http.ret, Http.lift,
    SheetsConsolidated.getCacheM, SheetsConsolidated.setCacheM,
    SheetsConsolidated.fetchM, SheetsConsolidated.json_error.
  repeat (case_match; simpl in *; simplify_eq/=); intros; simplify_eq/=; in_list.
Qed.

Lemma legacy_try_status (e : env) (c : Sheets.clock) (req : request)
    (w : Sheets.world) (r : response) :
  (Sheets.try_body e c req w).1 = Js.Return r →
  status r ∈ [200; 400].
Proof.
  unfold Sheets.try_body, Sheets.getCachedData, Sheets.sweepM, Sheets.log,
    Sheets.fetch_names, Sheets.fetch_sheet, Http.bind, Http.ret, Http.lift.
  repeat (case_match; simpl in *; simplify_eq/=); intros; simplify_eq/=; in_list.
Qed.

(** X9. The statuses the two sheets handlers can answer.  The
    consolidated handler answers 200, 400, 403, 404, 405, 429, 500 or 503
    and nothing else; api/sheets.js answers 200, 400, 429 or 500 and
    nothing else: it never reports a missing sheet, a denied access or an
    unreachable upstream as such. *)
Theorem handler_status_sets (e : env) (req : request)
    (c : SheetsConsolidated.clock) (st : SheetsConsolidated.state)
    (c1 : Sheets.clock) (st1 : Sheets.state) :
  status (SheetsConsolidated.response_of (SheetsConsolidated.handler e c st req))
    ∈ [200; 400; 403; 404; 405; 429; 500; 503] ∧
  status (Sheets.response_of (Sheets.handler e c1 st1 req)) ∈ [200; 400; 429; 500].
Proof.
  split.
  - unfold SheetsConsolidated.handler.
    destruct (String.eqb (method req) "OPTIONS"); [simpl; in_list|].
    destruct (negb (String.eqb (method req) "GET")); [simpl; in_list|].
    destruct (SheetsConsolidated.checkRateLimit _ _ _) as [a rl'].
    destruct (negb a); [simpl; in_list|].
    destruct (SheetsConsolidated.try_body _ _ _ _) as [[r|msg] w] eqn:E; simpl.
    + pose proof (consolidated_try_status e c req _ r ltac:(by rewrite E)) as H.
      repeat (apply elem_of_cons in H as [->|H]); [in_list..|].
      by apply elem_of_nil in H.
    + rewrite classify_status.
      repeat case_match; in_list.
  - unfold Sheets.handler.
    destruct (String.eqb (method req) "OPTIONS"); [simpl; in_list|].
    destruct (Sheets.checkRateLimit _ _ _) as [a rl'].
    destruct (negb a); [simpl; in_list|].
    destruct (Sheets.try_body _ _ _ _) as [[r|msg] w] eqn:E; simpl; [|in_list].
    pose proof (legacy_try_status e c1 req _ r ltac:(by rewrite E)) as H.
    repeat (apply elem_of_cons in H as [->|H]); [in_list..|].
    by apply elem_of_nil in H.
Qed.

End AnswerSets.

(** ** Reading, sweeping and filling the cache of the consolidated handler *)
Section ConsolidatedCacheUse.

Import Http SheetsConsolidated.

Lemma get_filter {V} (P : string * V → Prop) `{!∀ x, Decision (P x)}
    (m : list (string * V)) (k : string) :
  NoDup (JsMap.keys m) →
  JsMap.get (filter P m) k
  = match JsMap.get m k with
    | Some v => if decide (P (k, v)) then Some v else None
    | None => None
    end.
Proof.
  unfold JsMap.t in *. induction m as [|[k' v'] m IH]; [done|].
  intros Hnd. unfold JsMap.keys in Hnd, IH. cbn [map fst] in Hnd.
  apply NoDup_cons in Hnd as [Hnotin Hnd]. specialize (IH Hnd).
  rewrite filter_cons. cbn [JsMap.get].
  destruct (String.eqb_spec k' k) as [->|Hne].
  - destruct (decide (P (k, v'))) as [HP|HP].
    + cbn [JsMap.get]. by rewrite String.eqb_refl.
    + rewrite IH. by rewrite (proj2 (get_None_keys m k) Hnotin).
  - destruct (decide (P (k', v'))) as [HP|HP]; [|done].
    cbn [JsMap.get]. by rewrite (proj2 (String.eqb_neq k' k) Hne).
Qed.

(** X10. [cleanCache] removes exactly the entries older than the TTL and
    keeps the others as they are; a read right after the sweep returns
    what it would have returned without it, and deletes nothing. *)
Theorem cleanCache_sweeps (c : JsMap.t entry) (now : Z) (key : string) :
  NoDup (JsMap.keys c) →
  JsMap.get (cleanCache c now) key
  = match JsMap.get c key with
    | Some en => if bool_decide (now - timestamp en > CACHE_TTL) then None else Some en
    | None => None
    end ∧
  (getCache (cleanCache c now) key now).1 = (getCache c key now).1 ∧
  (getCache (cleanCache c now) key now).2 = cleanCache c now.
Proof.
  intros Hnd.
  assert (Hget : JsMap.get (cleanCache c now) key
    = match JsMap.get c key with
      | Some en => if bool_decide (now - timestamp en > CACHE_TTL) then None else Some en
      | None => None
      end).
  { unfold cleanCache, JsMap.t in *. rewrite get_filter by done.
    destruct (JsMap.get c key) as [en|]; [|done]. simpl.
    case_bool_decide; [by rewrite decide_False by tauto | by rewrite decide_True]. }
  split; [done|]. unfold getCache. rewrite Hget.
  destruct (JsMap.get c key) as [en|]; [|done].
  case_bool_decide as Hold; [done|]. by rewrite bool_decide_eq_false_2.
Qed.

Lemma cleanCache_sweeps_witness :
  JsMap.get (cleanCache [("list", mkEntry (Js.JArr []) 0);
                         ("sheet:Roster", mkEntry (Js.JArr []) 200000)] 300001)
            "sheet:Roster"
  = match JsMap.get [("list", mkEntry (Js.JArr []) 0);
                     ("sheet:Roster", mkEntry (Js.JArr []) 200000)] "sheet:Roster" with
    | Some en => if bool_decide (300001 - timestamp en > CACHE_TTL) then None else Some en
    | None => None
    end.
Proof.
  apply (cleanCache_sweeps [("list", mkEntry (Js.JArr []) 0);
                            ("sheet:Roster", mkEntry (Js.JArr []) 200000)]
           300001 "sheet:Roster").
  apply (bool_decide_unpack _). vm_compute. reflexivity.
Defined.

Lemma getCache_setCache_pair (c : JsMap.t entry) (key : string) (v : Js.json)
    (t0 t1 : Z) :
  t1 - t0 ≤ CACHE_TTL →
  getCache (setCache c key v t0) key t1 = (v, setCache c key v t0).
Proof.
  intros Hfresh. unfold getCache at 1.
  assert (Hget : JsMap.get (setCache c key v t0) key = Some (mkEntry v t0))
    by (unfold setCache; apply get_set_eq).
  rewrite Hget. simpl. by rewrite bool_decide_eq_false_2 by lia.
Qed.

Lemma sheet_values_truthy (result values : Js.json) :
  sheet_values result = Js.Return values → Js.truthy values = true.
Proof.
  unfold sheet_values, Js.bind. destruct (Js.prop result "values") as [v|]; [|done].
  intros [= <-]. by destruct (Js.truthy v) eqn:E.
Qed.

Lemma truthy_hit (v : Js.json) : Js.truthy v = true → hit_or_miss v = "HIT".
Proof. by destruct v. Qed.

(** The body of [try] for a sheet that the cache does not hold. *)
Lemma try_body_sheet_miss (e : env) (c : clock) (req : request) (sheet : string)
    (cch : JsMap.t entry) (lg : list effect) (r : upstream_response)
    (result values : Js.json) :
  configured e = true →
  query_action req ≠ Some "list" →
  Js.nonempty (query_sheet req) = Some sheet →
  Js.truthy (getCache cch ("sheet:" +:+ sheet) (at_lookup c)).1 = false →
  fetch e (values_url e sheet) = Resolved r →
  ok r = true →
  up_json r = Js.Return result →
  sheet_values result = Js.Return values →
  Js.stringifies values = true →
  at_header c - at_store c ≤ CACHE_TTL →
  try_body e c req (mkWorld cch lg)
  = (Js.Return
       (mkResponse 200 None (Some "HIT")
          (Some (Js.JObj [("values", values); ("range", Js.JStr sheet);
                          ("cached", Js.JBool true)]))),
     mkWorld
       (setCache (getCache cch ("sheet:" +:+ sheet) (at_lookup c)).2
          ("sheet:" +:+ sheet) values (at_store c))
       (lg ++ [CacheGet ("sheet:" +:+ sheet); Fetch (values_url e sheet);
               CacheSet ("sheet:" +:+ sheet); CacheGet ("sheet:" +:+ sheet)])).
Proof.
  intros Hconf Hnolist Hsheet Hmiss Hfetch Hok Hjson Hvalues Htext Hfresh.
  unfold try_body. rewrite Hconf. simpl.
  rewrite bool_decide_eq_false_2 by done. rewrite Hsheet.
  change (getCacheKey (Some sheet) None) with ("sheet:" +:+ sheet).
  unfold Http.bind, getCacheM, fetchM, setCacheM, Http.lift, Http.ret, shouldCompress.
  simpl.
  destruct (getCache cch ("sheet:" +:+ sheet) (at_lookup c)) as [v c1] eqn:E.
  simpl in Hmiss |- *. rewrite Hmiss. simpl.
  rewrite Hfetch. unfold fetchFromGoogleSheets. rewrite Hok. simpl.
  rewrite Hjson, Hvalues. simpl.
  rewrite getCache_setCache_pair by done. rewrite Htext.
  rewrite (truthy_hit values) by (by eapply sheet_values_truthy).
  by rewrite <- !app_assoc.
Qed.

(** The body of [try] for a sheet that the cache holds, fresh. *)
Lemma try_body_sheet_hit (e : env) (c : clock) (req : request) (sheet : string)
    (cch : JsMap.t entry) (lg : list effect) (v : Js.json) :
  configured e = true →
  query_action req ≠ Some "list" →
  Js.nonempty (query_sheet req) = Some sheet →
  Js.truthy v = true →
  Js.stringifies v = true →
  getCache cch ("sheet:" +:+ sheet) (at_lookup c) = (v, cch) →
  getCache cch ("sheet:" +:+ sheet) (at_header c) = (v, cch) →
  try_body e c req (mkWorld cch lg)
  = (Js.Return
       (mkResponse 200 None (Some "HIT")
          (Some (Js.JObj [("values", v); ("range", Js.JStr sheet);
                          ("cached", Js.JBool true)]))),
     mkWorld cch
       (lg ++ [CacheGet ("sheet:" +:+ sheet); CacheGet ("sheet:" +:+ sheet)])).
Proof.
  intros Hconf Hnolist Hsheet Htruthy Htext Hlook Hhead.
  unfold try_body. rewrite Hconf. simpl.
  rewrite bool_decide_eq_false_2 by done. rewrite Hsheet.
  change (getCacheKey (Some sheet) None) with ("sheet:" +:+ sheet).
  unfold Http.bind, getCacheM, Http.ret, Http.lift, shouldCompress. simpl.
  rewrite Hlook. simpl. rewrite Htruthy. simpl. rewrite Hhead, Htext.
  rewrite (truthy_hit v) by done. by rewrite <- !app_assoc.
Qed.

(** X11. A sheet fetched once is served from the cache afterwards.  A
    request for a sheet that misses the cache fetches it, stores what
    [result.values || []] gives and, when that has a JSON text (as it has
    unless the upstream body is an array, whose [values] is a method),
    answers 200; the same request again, while the entry is no older than
    the TTL, gets the same answer with two cache reads and no upstream
    fetch.  Both answers carry X-Cache: HIT and [cached: true], the one
    that was just fetched included. *)
Theorem repeated_request_served_from_cache
    (e e' : env) (c c' : clock) (st : state) (req : request) (sheet : string)
    (r : upstream_response) (result values : Js.json) :
  let key := "sheet:" +:+ sheet in
  let o1 := handler e c st req in
  let o2 := handler e' c' (state_of o1) req in
  method req = "GET" →
  query_action req ≠ Some "list" →
  Js.nonempty (query_sheet req) = Some sheet →
  configured e = true →
  configured e' = true →
  (checkRateLimit (rateLimits st) (ip_of req) (at_limit c)).1 = true →
  Js.truthy (getCache (cache st) key (at_lookup c)).1 = false →
  fetch e (values_url e sheet) = Resolved r →
  ok r = true →
  up_json r = Js.Return result →
  sheet_values result = Js.Return values →
  Js.stringifies values = true →
  at_header c - at_store c ≤ CACHE_TTL →
  (checkRateLimit (rateLimits (state_of o1)) (ip_of req) (at_limit c')).1 = true →
  at_lookup c' - at_store c ≤ CACHE_TTL →
  at_header c' - at_store c ≤ CACHE_TTL →
  response_of o1
    = mkResponse 200 None (Some "HIT")
        (Some (Js.JObj [("values", values); ("range", Js.JStr sheet);
                        ("cached", Js.JBool true)])) ∧
  effects_of o1
    = [RateCheck (ip_of req); CacheGet key; Fetch (values_url e sheet);
       CacheSet key; CacheGet key] ∧
  response_of o2 = response_of o1 ∧
  effects_of o2 = [RateCheck (ip_of req); CacheGet key; CacheGet key].
Proof.
  intros key o1 o2 Hget Hnolist Hsheet Hconf Hconf' Hadm Hmiss Hfetch Hok Hjson
    Hvalues Htext Hfresh Hadm' Hlook' Hhead'.
  assert (Htruthy : Js.truthy values = true) by (by eapply sheet_values_truthy).
  assert (H1 : o1 = mkOutcome
            (mkResponse 200 None (Some "HIT")
               (Some (Js.JObj [("values", values); ("range", Js.JStr sheet);
                               ("cached", Js.JBool true)])))
            (mkState
               (setCache (getCache (cache st) key (at_lookup c)).2 key values
                  (at_store c))
               (checkRateLimit (rateLimits st) (ip_of req) (at_limit c)).2)
            ([RateCheck (ip_of req)] ++
             [CacheGet key; Fetch (values_url e sheet); CacheSet key; CacheGet key])).
  { subst o1. rewrite (handler_admitted e c st req Hget Hadm). cbv zeta.
    rewrite (try_body_sheet_miss e c req sheet (cache st) [RateCheck (ip_of req)]
               r result values Hconf Hnolist Hsheet Hmiss Hfetch Hok Hjson Hvalues
               Htext Hfresh).
    reflexivity. }
  clearbody o1. subst o1. subst o2.
  cbn [response_of effects_of state_of] in Hadm' |- *.
  split; [reflexivity|]. split; [reflexivity|].
  set (st2 := mkState _ _) in *.
  rewrite (handler_admitted e' c' st2 req Hget Hadm'). cbv zeta.
  subst st2. cbn [cache response_of effects_of].
  rewrite (try_body_sheet_hit e' c' req sheet _ [RateCheck (ip_of req)] values
             Hconf' Hnolist Hsheet Htruthy Htext
             (getCache_setCache_pair _ key values _ _ Hlook')
             (getCache_setCache_pair _ key values _ _ Hhead')).
  split; reflexivity.
Qed.

Lemma repeated_request_served_from_cache_witness :
  status (response_of
            (handler (Scenario.server Scenario.roster) (Scenario.at_time 0) initial
               Scenario.roster_request)) = 200 ∧
  response_of
    (handler (Scenario.server Scenario.roster) (Scenario.at_time 300000)
       (state_of (handler (Scenario.server Scenario.roster) (Scenario.at_time 0)
                    initial Scenario.roster_request))
       Scenario.roster_request)
  = response_of
      (handler (Scenario.server Scenario.roster) (Scenario.at_time 0) initial
         Scenario.roster_request) ∧
  effects_of
    (handler (Scenario.server Scenario.roster) (Scenario.at_time 300000)
       (state_of (handler (Scenario.server Scenario.roster) (Scenario.at_time 0)
                    initial Scenario.roster_request))
       Scenario.roster_request)
  = [RateCheck "203.0.113.7"; CacheGet "sheet:Roster"; CacheGet "sheet:Roster"].
Proof.
  destruct (repeated_request_served_from_cache
              (Scenario.server Scenario.roster) (Scenario.server Scenario.roster)
              (Scenario.at_time 0) (Scenario.at_time 300000) initial
              Scenario.roster_request "Roster"
              (mkUpstream 200 "unused"
                 (Js.Return (Js.JObj [("range", Js.JStr "Roster!A1:B2");
                                      ("majorDimension", Js.JStr "ROWS");
                                      ("values", Scenario.roster_rows)])))
              (Js.JObj [("range", Js.JStr "Roster!A1:B2");
                        ("majorDimension", Js.JStr "ROWS");
                        ("values", Scenario.roster_rows)])
              Scenario.roster_rows)
    as (H1 & _ & H2 & H3);
    try reflexivity; try discriminate; try (vm_compute; discriminate).
  split; [by rewrite H1|]. split; [exact H2 | exact H3].
Defined.

(** An upstream body that is an array: [result.values] is then the
    method [values] of arrays, which is stored as the sheet's data, and
    [shouldCompress] throws on it inside [try]; the request is answered
    500, and so is the next one, served from the cache. *)
Lemma array_body_is_answered_500 :
  status (response_of
            (handler (Scenario.server Scenario.bare_array) (Scenario.at_time 0)
               initial Scenario.roster_request)) = 500 ∧
  JsMap.get
    (cache (state_of
              (handler (Scenario.server Scenario.bare_array) (Scenario.at_time 0)
                 initial Scenario.roster_request))) "sheet:Roster"
  = Some (mkEntry (Js.JFun "values") 0) ∧
  status (response_of
            (handler (Scenario.server Scenario.roster) (Scenario.at_time 1000)
               (state_of
                  (handler (Scenario.server Scenario.bare_array) (Scenario.at_time 0)
                     initial Scenario.roster_request))
               Scenario.roster_request)) = 500.
Proof. repeat split; vm_compute; reflexivity. Qed.

End ConsolidatedCacheUse.

(** ** The 200 answers of api/sheets.js, and api/SheetNames.js *)
Section LegacyAnswers.

Import Http.

Lemma field_set_eq (fs : list (string * Js.json)) (k : string) (v : Js.json) :
  Js.field (JsMap.set fs k v) k = v.
Proof.
  induction fs as [|[k' v'] fs IH]; simpl.
  - by rewrite String.eqb_refl.
  - destruct (String.eqb_spec k' k) as [->|Hne]; simpl.
    + by rewrite String.eqb_refl.
    + by rewrite (proj2 (String.eqb_neq k' k) Hne).
Qed.

Lemma field_set_ne (fs : list (string * Js.json)) (k k' : string) (v : Js.json) :
  k ≠ k' → Js.field (JsMap.set fs k v) k' = Js.field fs k'.
Proof.
  intros Hne. induction fs as [|[k0 v0] fs IH]; simpl.
  - by rewrite (proj2 (String.eqb_neq k k') Hne).
  - destruct (String.eqb_spec k0 k) as [->|Hne0]; simpl.
    + by rewrite (proj2 (String.eqb_neq k k') Hne).
    + by rewrite IH.
Qed.

(** Whatever the fetch function is, when [getCachedData] returns, the
    cache holds the key. *)
Lemma getCachedData_leaves_entry (key : string) (now : Z) (f : Sheets.M Js.json)
    (w w' : Sheets.world) (d : Js.json) :
  Sheets.getCachedData key now f w = (Js.Return d, w') →
  is_Some (Sheets.w_cache w' !! key).
Proof.
  unfold Sheets.getCachedData, Http.bind, Sheets.log. simpl.
  destruct (Sheets.w_cache w !! key) as [en|] eqn:E.
  - case_bool_decide.
    + intros [= <- <-]. simpl. by rewrite E.
    + destruct (f _) as [[x|msg] wf]; [|done]. intros [= <- <-]. simpl.
      rewrite lookup_insert_eq. by eexists.
  - destruct (f _) as [[x|msg] wf]; [|done]. intros [= <- <-]. simpl.
    rewrite lookup_insert_eq. by eexists.
Qed.

Lemma cache_fields_cached (c : gmap string entry) (key : string) (now : Z)
    (fields : list (string * Js.json)) :
  is_Some (c !! key) →
  Js.field (Sheets.cache_fields c key now fields) "cached" = Js.JBool true.
Proof.
  intros Hsome. unfold Sheets.cache_fields.
  rewrite field_set_ne by done. rewrite field_set_eq.
  by rewrite bool_decide_eq_true_2.
Qed.

(** X12. In api/sheets.js the [cached] field of a 200 body does not tell
    a cache hit from a miss: every 200 answer to a request other than
    OPTIONS has a JSON object as body whose [cached] is [true], whether
    the data came from the cache or was just fetched. *)
Theorem legacy_cached_flag_always_true (e : env) (c : Sheets.clock)
    (st : Sheets.state) (req : request) :
  method req ≠ "OPTIONS" →
  status (Sheets.response_of (Sheets.handler e c st req)) = 200 →
  ∃ fields,
    body (Sheets.response_of (Sheets.handler e c st req)) = Some (Js.JObj fields) ∧
    Js.field fields "cached" = Js.JBool true.
Proof.
  intros Hm. unfold Sheets.handler.
  rewrite (proj2 (String.eqb_neq _ _) Hm).
  destruct (Sheets.checkRateLimit _ _ _) as [a rl'].
  destruct (negb a); [done|].
  unfold Sheets.try_body, Http.bind at 1, Sheets.sweepM. simpl.
  case_bool_decide.
  - unfold Http.bind.
    destruct (Sheets.getCachedData _ _ _ _) as [[d|msg] w'] eqn:E; simpl; [|done].
    intros _. eexists. split; [done|].
    apply cache_fields_cached. by eapply getCachedData_leaves_entry.
  - destruct (Js.nonempty (query_sheet req)) as [sheet|]; [|done].
    unfold Http.bind.
    destruct (Sheets.getCachedData _ _ _ _) as [[d|msg] w'] eqn:E; simpl; [|done].
    intros _. eexists. split; [done|].
    apply cache_fields_cached. by eapply getCachedData_leaves_entry.
Qed.

Lemma legacy_cached_flag_always_true_witness :
  ∃ fields,
    body (Sheets.response_of
            (Sheets.handler (Scenario.server Scenario.roster)
               (Scenario.at_time_legacy 0) Sheets.initial Scenario.roster_request))
    = Some (Js.JObj fields) ∧
    Js.field fields "cached" = Js.JBool true.
Proof.
  apply legacy_cached_flag_always_true; [discriminate | vm_compute; reflexivity].
Defined.

(** X13. api/SheetNames.js answers 200 or 500 and nothing else.  Without
    its two credentials it answers 500 and never contacts the upstream;
    it answers 200 only when the upstream responded with an ok status and
    a body that parses, and then with exactly that body, after one
    fetch. *)
Theorem sheet_names_answer (e : SheetNames.env) :
  status (SheetNames.handler e).1 ∈ [200; 500] ∧
  (Js.nonempty (SheetNames.API_KEY e) = None ∨
   Js.nonempty (SheetNames.SPREADSHEET_ID e) = None →
   (SheetNames.handler e).2 = [] ∧
   (SheetNames.handler e).1
   = mkResponse 500 None None
       (Some (Js.JObj [("error", Js.JStr "មិនអាចទាញយកឈ្មោះស៊ីតបានទេ");
                       ("details",
                        Js.JStr "API key or Spreadsheet ID not configured")]))) ∧
  (status (SheetNames.handler e).1 = 200 →
   ∃ r statusText d,
     SheetNames.fetch e (SheetNames.url_of e) = SheetNames.Answered r statusText ∧
     ok r = true ∧
     up_json r = Js.Return d ∧
     body (SheetNames.handler e).1 = Some d ∧
     (SheetNames.handler e).2 = [Fetch (SheetNames.url_of e)]).
Proof.
  unfold SheetNames.handler, SheetNames.try_body.
  split; [|split].
  - repeat case_match; simplify_eq/=;
      repeat first [apply list_elem_of_here | apply list_elem_of_further].
  - intros [-> | Hid].
    + done.
    + rewrite Hid. by destruct (Js.nonempty (SheetNames.API_KEY e)).
  - destruct (Js.nonempty (SheetNames.API_KEY e)); [|done].
    destruct (Js.nonempty (SheetNames.SPREADSHEET_ID e)); [|done].
    destruct (SheetNames.fetch e (SheetNames.url_of e)) as [r st|msg]; [|done].
    destruct (ok r) eqn:Hok; simpl; [|done].
    destruct (up_json r) as [d|msg] eqn:Hjson; simpl; [|done].
    intros _. by exists r, st, d.
Qed.

End LegacyAnswers.

(** ** What the strategies of sw.js answer, one request after another *)
Section WorkerAnswers.

Import Worker SW.












(** X25. A request that is not a GET and that the network answers with
    status 200 is handled by sw.js as if the network had failed: the
    awaited [cache.put] rejects, the [catch] block runs, and the page
    gets what it would get offline, a 503 (or, for a document, whatever
    [/index.html] the dynamic store holds) in place of the network's
    response; nothing is written.  Version 1.0.0, which does not wait
    for its [cache.put], hands on the network's response. *)
Theorem non_get_success_handled_as_failure (self_origin : string) (cs : caches)
    (req : request) (r : response) :
  method req ≠ "GET" →
  status r = 200 →
  on_fetch self_origin cs req (Resolved r) = on_fetch self_origin cs req Failed ∧
  match route self_origin req with
  | NotIntercepted => on_fetch self_origin cs req (Resolved r) = None
  | Document =>
      ∃ res,
        on_fetch self_origin cs req (Resolved r) = Some res ∧ puts res = [] ∧
        answer res = cache_match cs CACHE_DYNAMIC (self_origin +:+ "/index.html")
  | _ =>
      ∃ res a,
        on_fetch self_origin cs req (Resolved r) = Some res ∧ puts res = [] ∧
        answer res = Some a ∧ status a = 503
  end ∧
  answer (SWv1.on_fetch self_origin cs req (Resolved r)) = Some r.
Proof.
  intros Hmethod H200.
  assert (Hget : cacheable req = false).
  { unfold cacheable. by apply String.eqb_neq. }
  assert (Hmiss : ∀ cs' name, cache_match_request cs' name req = None).
  { intros cs' name. unfold cache_match_request. by rewrite Hget. }
  assert (Hput : ∀ cs' name, put_if_200 cs' name req r = None).
  { intros cs' name. rewrite put_if_200_spec, bool_decide_eq_true_2 by done.
    by rewrite Hget. }
  split_and!.
  - unfold on_fetch, handleAPIRequest, handleStaticRequest, handleDynamicRequest,
      handleDocumentRequest, cache_first. cbv zeta.
    destruct (route self_origin req); rewrite ?Hput, ?Hmiss; reflexivity.
  - unfold on_fetch, handleAPIRequest, handleStaticRequest, handleDynamicRequest,
      handleDocumentRequest, cache_first. cbv zeta.
    destruct (route self_origin req); rewrite ?Hput, ?Hmiss; [done|..].
    + by eexists _, _.
    + by eexists _, _.
    + eexists. split; [done|]. split; [done|]. cbn. apply cache_match_open.
    + by eexists _, _.
  - unfold SWv1.on_fetch, caches_match_request, SWv1.put_dynamic.
    rewrite Hget. apply Z.eqb_eq in H200. rewrite H200.
    by destruct (Js.startsWith (pathname req) "/api/").
Qed.

Lemma non_get_success_handled_as_failure_witness :
  ∃ res a,
    on_fetch Scenario.app_origin Scenario.installed Scenario.api_post
      (Resolved (mkResponse 200 "OK" [] (Stringified (Js.JObj [("ok", Js.JBool true)]))))
    = Some res ∧
    puts res = [] ∧ answer res = Some a ∧ status a = 503.
Proof.
  destruct (non_get_success_handled_as_failure Scenario.app_origin Scenario.installed
              Scenario.api_post
              (mkResponse 200 "OK" [] (Stringified (Js.JObj [("ok", Js.JBool true)]))))
    as (_ & H & _); [discriminate | reflexivity |].
  exact H.
Defined.

End WorkerAnswers.

(** ** Routing, installation and activation of the service worker *)
Section WorkerLifecycle.

Import Worker SW.

(** X17. How the fetch listener of sw.js routes.  A same-origin request
    is always intercepted.  A cross-origin request is intercepted exactly
    when its host name contains one of the four allow-listed hosts, and
    then it is an API call or a static asset: the document and the
    dynamic strategies only ever see same-origin requests.  A path under
    [/api/] goes to the API strategy whenever the request is
    intercepted at all, whatever its extension or destination. *)
Theorem cross_origin_routes (self_origin : string) (req : request) :
  (origin req = self_origin → route self_origin req ≠ NotIntercepted) ∧
  (origin req ≠ self_origin →
   (route self_origin req = NotIntercepted ↔
    existsb (λ host, Js.includes (hostname req) host) staticHosts = false) ∧
   route self_origin req ∈ [NotIntercepted; Api; Static]) ∧
  (Js.startsWith (pathname req) "/api/" = true →
   route self_origin req ∈ [NotIntercepted; Api]).
Proof.
  unfold route, isStaticAsset.
  set (ext := existsb _ staticExtensions).
  unfold staticHosts. cbn [existsb].
  destruct (String.eqb_spec (origin req) self_origin) as [He|He];
    destruct (Js.includes (hostname req) "cdn.jsdelivr.net"),
             (Js.includes (hostname req) "cdnjs.cloudflare.com"),
             (Js.includes (hostname req) "fonts.googleapis.com"),
             (Js.includes (hostname req) "fonts.gstatic.com"),
             (Js.startsWith (pathname req) "/api/"), ext,
             (String.eqb (destination req) "document"); cbn;
    (split; [|split]); intros; try done;
    try (split; [done|]);
    repeat first [apply list_elem_of_here | apply list_elem_of_further].
Qed.

(** Looking a key up after a filter that looks at keys only. *)
Lemma get_filter_by_key {V} (P : string * V → Prop) `{!∀ x, Decision (P x)}
    (m : list (string * V)) (k : string) :
  (∀ k v v', P (k, v) → P (k, v')) →
  JsMap.get (filter P m) k
  = match JsMap.get m k with
    | Some v => if decide (P (k, v)) then Some v else None
    | None => None
    end.
Proof.
  intros Hkey. induction m as [|[k' v'] m IH]; [done|].
  rewrite filter_cons. cbn [JsMap.get].
  destruct (decide (P (k', v'))) as [HP|HP]; cbn [JsMap.get];
    destruct (String.eqb_spec k' k) as [->|Hne]; try done.
  - by rewrite decide_True.
  - rewrite (decide_False (P := P (k, v'))) by done.
    rewrite IH. destruct (JsMap.get m k) as [v|]; [|done].
    rewrite decide_False; [done|]. intros HP'. apply HP. by eapply Hkey.
Qed.

Lemma filter_idemp {A} (P : A → Prop) `{!∀ x, Decision (P x)} (l : list A) :
  filter P (filter P l) = filter P l.
Proof.
  induction l as [|x l IH]; [done|].
  rewrite filter_cons. destruct (decide (P x)) as [HP|HP]; [|done].
  rewrite filter_cons, decide_True by done. by rewrite IH.
Qed.

End WorkerLifecycle.

(** ** Installation, messages and the periodic cleanup *)
Section WorkerMaintenance.

Import Worker SW.



(** X20. After the message CLEAR_CACHE no store is left, in either
    version of the worker, and any other message leaves the stores as
    they are.  With the network down, sw.js then answers an intercepted
    request with a synthesized 503, except a document, which gets
    [undefined]; version 1.0.0 answers 503 likewise and hands
    [undefined] to a document that is not an API call. *)
Theorem clear_cache_then_offline (self_origin : string) (cs : caches)
    (type : option string) (req : request) :
  (type ≠ Some "CLEAR_CACHE" →
   stores (on_message type cs) = cs ∧ (SWv1.on_message type cs).2 = cs) ∧
  stores (on_message (Some "CLEAR_CACHE") cs) = [] ∧
  (SWv1.on_message (Some "CLEAR_CACHE") cs).2 = [] ∧
  match route self_origin req with
  | NotIntercepted =>
      on_fetch self_origin (stores (on_message (Some "CLEAR_CACHE") cs)) req Failed
      = None
  | Document =>
      ∃ res,
        on_fetch self_origin (stores (on_message (Some "CLEAR_CACHE") cs)) req Failed
        = Some res ∧
        answer res = None
  | _ =>
      ∃ res a,
        on_fetch self_origin (stores (on_message (Some "CLEAR_CACHE") cs)) req Failed
        = Some res ∧
        answer res = Some a ∧ status a = 503
  end ∧
  (if negb (Js.startsWith (pathname req) "/api/") &&
      String.eqb (destination req) "document"
   then answer (SWv1.on_fetch self_origin
                  (SWv1.on_message (Some "CLEAR_CACHE") cs).2 req Failed) = None
   else ∃ a, answer (SWv1.on_fetch self_origin
                       (SWv1.on_message (Some "CLEAR_CACHE") cs).2 req Failed)
             = Some a ∧ status a = 503).
Proof.
  split_and!; [|done|done|..].
  - intros Htype. unfold on_message, SWv1.on_message. cbn.
    by rewrite bool_decide_eq_false_2.
  - change (stores (on_message (Some "CLEAR_CACHE") cs)) with ([] : caches).
    unfold on_fetch.
    destruct (route self_origin req);
      [done | eexists _, _ | eexists _, _ | eexists _ | eexists _, _];
      (split; [reflexivity|]);
      unfold handleAPIRequest, handleStaticRequest, handleDynamicRequest,
        handleDocumentRequest, cache_first, cache_match_request; cbv zeta;
      destruct (cacheable req); by cbn.
  - change ((SWv1.on_message (Some "CLEAR_CACHE") cs).2) with ([] : caches).
    unfold SWv1.on_fetch, caches_match_request.
    destruct (Js.startsWith (pathname req) "/api/"); cbn; [by eexists|].
    destruct (cacheable req); cbn;
      (destruct (String.eqb (destination req) "document"); [done|by eexists]).
Qed.

End WorkerMaintenance.

(** ** The cleanup of old entries, and version 1.0.0 of the worker *)
Section WorkerCleanup.

Import Worker SW.

Lemma get_cleanupOldCaches (parse : string → option Z) (clock : string → string → Z)
    (cs : caches) (name : string) :
  JsMap.get (cleanupOldCaches parse clock cs) name
  = (λ st : gmap string response,
       if Js.startsWith name "samaki-"
       then filter (λ ur : string * response,
                      too_old parse (clock name ur.1) name ur.2 = false) st
       else st) <$> JsMap.get cs name.
Proof.
  unfold cleanupOldCaches.
  induction cs as [|[k st] cs IH]; [done|].
  cbn [map fst snd]. destruct (Js.startsWith k "samaki-") eqn:Hk; cbn [JsMap.get];
    destruct (String.eqb_spec k name) as [->|Hne]; try done; cbn;
    by rewrite Hk.
Qed.

Lemma maxAge_of_bounds (cacheName : string) :
  EXPIRY_api ≤ maxAge_of cacheName ≤ EXPIRY_static.
Proof.
  unfold maxAge_of, EXPIRY_api, EXPIRY_static, EXPIRY_dynamic. cbv zeta.
  destruct (Js.includes cacheName "api"), (Js.includes cacheName "static"); lia.
Qed.

Lemma cache_match_cleanupOldCaches (parse : string → option Z)
    (clock : string → string → Z) (cs : caches) (name u : string) :
  cache_match (cleanupOldCaches parse clock cs) name u
  = match cache_match cs name u with
    | Some r =>
        if Js.startsWith name "samaki-" && too_old parse (clock name u) name r
        then None else Some r
    | None => None
    end.
Proof.
  unfold cache_match, store_of. rewrite get_cleanupOldCaches.
  destruct (JsMap.get cs name) as [st|]; cbn; [|done].
  destruct (Js.startsWith name "samaki-"); cbn; [|by destruct (st !! u)].
  destruct (st !! u) as [r|] eqn:Hu.
  - destruct (too_old parse (clock name u) name r) eqn:Hold.
    + apply map_lookup_filter_None. right. intros r' Hr'. cbn.
      rewrite Hu in Hr'. injection Hr' as <-. by rewrite Hold.
    + apply map_lookup_filter_Some. by split.
  - apply map_lookup_filter_None. by left.
Qed.

(** X21. [cleanupOldCaches] deletes entries and nothing else: every
    store keeps its name and place; a store whose name does not start
    with [samaki-] keeps every entry; in the others an entry is gone
    afterwards exactly when it was too old at the moment it was looked
    at, and every other entry is found as before.  Running it again with
    the same readings of the clock removes nothing more. *)
Theorem cleanupOldCaches_removes_expired (parse : string → option Z)
    (clock : string → string → Z) (cs : caches) (name u : string) :
  cache_match (cleanupOldCaches parse clock cs) name u
  = match cache_match cs name u with
    | Some r =>
        if Js.startsWith name "samaki-" && too_old parse (clock name u) name r
        then None else Some r
    | None => None
    end ∧
  JsMap.keys (cleanupOldCaches parse clock cs) = JsMap.keys cs ∧
  cache_match (cleanupOldCaches parse clock (cleanupOldCaches parse clock cs)) name u
  = cache_match (cleanupOldCaches parse clock cs) name u.
Proof.
  split; [apply cache_match_cleanupOldCaches|]. split.
  - unfold cleanupOldCaches, JsMap.keys. rewrite map_map. apply map_ext.
    intros [k st]. cbn [fst snd]. by destruct (Js.startsWith k "samaki-").
  - rewrite !cache_match_cleanupOldCaches.
    destruct (cache_match cs name u) as [r|]; [|done].
    destruct (Js.startsWith name "samaki-" && too_old parse (clock name u) name r)
      eqn:E; [done|]. by rewrite E.
Qed.

(** X22. What the age test of [cleanupOldCaches] does with the Date
    header of a stored response, in a store of the worker.  A response
    without the header is dated to the epoch and is removed as soon as
    the clock is past seven days; one whose header does not parse has no
    age that compares, and is never removed; one whose date is at most
    five minutes back is kept in every store. *)
Theorem cleanup_by_date_header (parse : string → option Z)
    (clock : string → string → Z) (cs : caches) (name u : string) (r : response) :
  Js.startsWith name "samaki-" = true →
  cache_match cs name u = Some r →
  (headers_get (headers r) "date" = None →
   EXPIRY_static < clock name u →
   cache_match (cleanupOldCaches parse clock cs) name u = None) ∧
  (∀ text,
     headers_get (headers r) "date" = Some text →
     parse text = None →
     cache_match (cleanupOldCaches parse clock cs) name u = Some r) ∧
  (∀ text date,
     headers_get (headers r) "date" = Some text →
     parse text = Some date →
     clock name u - date ≤ EXPIRY_api →
     cache_match (cleanupOldCaches parse clock cs) name u = Some r).
Proof.
  intros Hname Hmatch.
  rewrite cache_match_cleanupOldCaches, Hmatch, Hname. cbn [andb].
  pose proof (maxAge_of_bounds name) as [Hlo Hhi].
  unfold too_old, cacheDate. split; [|split].
  - intros -> Hnow. rewrite bool_decide_eq_true_2; [done|]. lia.
  - by intros text -> ->.
  - intros text date -> -> Hyoung. rewrite bool_decide_eq_false_2; [done|]. lia.
Qed.

Lemma cleanup_by_date_header_witness :
  cache_match
    (cleanupOldCaches Scenario.Date_parse (λ _ _, 1793606460000) Scenario.undated)
    CACHE_STATIC (Scenario.app_origin +:+ "/index.html") = None.
Proof.
  eapply (cleanup_by_date_header Scenario.Date_parse (λ _ _, 1793606460000)
            Scenario.undated CACHE_STATIC (Scenario.app_origin +:+ "/index.html"));
    [reflexivity | vm_compute; reflexivity | reflexivity | reflexivity].
Defined.

Lemma get_app {V} (m1 m2 : list (string * V)) (k : string) :
  JsMap.get (m1 ++ m2) k
  = match JsMap.get m1 k with
    | Some v => Some v
    | None => JsMap.get m2 k
    end.
Proof.
  induction m1 as [|[k' v'] m1 IH]; [done|]. cbn [app JsMap.get].
  by destruct (String.eqb k' k).
Qed.

Lemma get_emptied (l : caches) (k : string) :
  JsMap.get (map (λ kv : string * gmap string response, (kv.1, (∅ : gmap string response))) l) k
  = (λ _, ∅) <$> JsMap.get l k.
Proof.
  induction l as [|[k' st] l IH]; [done|]. cbn [map fst JsMap.get].
  by destruct (String.eqb k' k).
Qed.

Lemma get_activate (cs : caches) (name : string) :
  JsMap.get (activate cs) name
  = if old_version name then None else JsMap.get cs name.
Proof.
  unfold activate, old_version, caches. unfold JsMap.t.
  rewrite get_filter_by_key by (intros ? ? ? H; exact H).
  destruct (JsMap.get cs name) as [st|] eqn:E.
  - cbn [fst]. destruct (Js.startsWith name "samaki-"), (Js.includes name VERSION);
      cbn; [rewrite decide_True | rewrite decide_False | rewrite decide_True
           | rewrite decide_True]; try done; try (by intros [? ?]).
    intros H; apply H; done.
  - by destruct (_ && _).
Qed.

Lemma get_v1_activate (cs : caches) (name : string) :
  JsMap.get (SWv1.activate cs) name
  = if bool_decide (name = SWv1.STATIC_CACHE ∨ name = SWv1.DYNAMIC_CACHE)
    then JsMap.get cs name else None.
Proof.
  unfold SWv1.activate, caches. unfold JsMap.t.
  rewrite get_filter_by_key by (intros ? ? ? H; exact H).
  destruct (JsMap.get cs name) as [st|] eqn:E; [|by case_bool_decide].
  cbn [fst]. case_bool_decide as Hk.
  - rewrite decide_True; [done|]. intros [? ?]. by destruct Hk.
  - rewrite decide_False; [done|]. intros H. apply H. split; intros ->;
      apply Hk; auto.
Qed.

(** X18. The activate event.  In sw.js, where two listeners answer it,
    no entry of a store of another version is left afterwards (the store
    is gone, or was created again, empty, by the cleanup that runs
    beside the deletion); every other store is still there, and holds
    each of its entries but those that [cleanupOldCaches] finds too old
    in a [samaki-] store; a store that is not named [samaki-] keeps
    every entry.  So the three stores of this version survive and those
    of version 1.0.0 are emptied.  In version 1.0.0, which has the one
    listener, exactly its own two stores survive, with every entry,
    whatever the others are called, and activating twice changes nothing
    more. *)
Theorem activate_keeps_this_version (parse : string → option Z)
    (clock : string → string → Z) (reopened : string → bool) (cs : caches)
    (name u : string) :
  cache_match (on_activate parse clock reopened cs) name u
  = (if old_version name then None
     else match cache_match cs name u with
          | Some r =>
              if Js.startsWith name "samaki-" && too_old parse (clock name u) name r
              then None else Some r
          | None => None
          end) ∧
  (Js.startsWith name "samaki-" = false →
   cache_match (on_activate parse clock reopened cs) name u = cache_match cs name u) ∧
  (old_version name = false →
   is_Some (JsMap.get cs name) →
   is_Some (JsMap.get (on_activate parse clock reopened cs) name)) ∧
  (name ∈ [CACHE_STATIC; CACHE_DYNAMIC; CACHE_API] →
   old_version name = false ∧ JsMap.get (SWv1.activate cs) name = None) ∧
  (name ∈ [SWv1.STATIC_CACHE; SWv1.DYNAMIC_CACHE] → old_version name = true) ∧
  cache_match (SWv1.activate cs) name u
  = (if bool_decide (name = SWv1.STATIC_CACHE ∨ name = SWv1.DYNAMIC_CACHE)
     then cache_match cs name u else None) ∧
  SWv1.activate (SWv1.activate cs) = SWv1.activate cs.
Proof.
  assert (Hmatch :
    cache_match (on_activate parse clock reopened cs) name u
    = (if old_version name then None
       else cache_match (cleanupOldCaches parse clock cs) name u)).
  { unfold on_activate, cache_match, store_of, caches. unfold JsMap.t.
    rewrite get_app, get_activate, get_emptied.
    assert (Hempty : ∀ o : option (gmap string response),
              default (∅ : gmap string response)
                ((λ _ : gmap string response, (∅ : gmap string response)) <$> o) !! u
              = None)
      by (intros [st|]; cbn; apply lookup_empty).
    destruct (old_version name); [apply Hempty|].
    destruct (JsMap.get (cleanupOldCaches parse clock cs) name); [done|].
    apply Hempty. }
  split_and!.
  - rewrite Hmatch. by rewrite cache_match_cleanupOldCaches.
  - intros Hname. rewrite Hmatch, cache_match_cleanupOldCaches.
    unfold old_version. rewrite Hname. cbn [andb].
    by destruct (cache_match cs name u).
  - intros Hold [st Hst]. unfold on_activate, caches. unfold JsMap.t.
    rewrite get_app, get_activate, Hold, get_cleanupOldCaches, Hst. by eexists.
  - intros Hin. rewrite get_v1_activate.
    rewrite !elem_of_cons, elem_of_nil in Hin.
    by destruct Hin as [-> | [-> | [-> | []]]].
  - intros Hin. rewrite !elem_of_cons, elem_of_nil in Hin.
    by destruct Hin as [-> | [-> | []]].
  - unfold cache_match, store_of. rewrite get_v1_activate. by case_bool_decide.
  - apply filter_idemp.
Qed.

End WorkerCleanup.

(** ** Version 1.0.0 of the worker *)
Section WorkerV1Stores.

Import Worker.

Lemma set_cons_ne {V} (k k' : string) (v v' : V) (m : list (string * V)) :
  k ≠ k' → JsMap.set ((k, v) :: m) k' v' = (k, v) :: JsMap.set m k' v'.
Proof. intros Hne. cbn. by rewrite (proj2 (String.eqb_neq k k') Hne). Qed.

(** A write into another store leaves the first store where it is. *)
Lemma put_keeps_first_store (name store u : string) (st : gmap string response)
    (rest : caches) (r : response) :
  name ≠ store →
  ∃ rest',
    cache_put (caches_open ((name, st) :: rest) store) store u r = (name, st) :: rest'.
Proof.
  intros Hne. unfold cache_put, caches_open.
  destruct (JsMap.has _ _).
  - rewrite set_cons_ne by done. by eexists.
  - rewrite !set_cons_ne by done. by eexists.
Qed.

(** X23. Version 1.0.0 never replaces a copy that an earlier store
    holds.  When the first store, which is not the dynamic one (the
    static store after an installation), has a copy for a GET request
    outside [/api/], every such request is answered with that copy,
    whatever the network returns; a fresh response goes to the dynamic
    store, behind the first in the search order of [caches.match], so
    the next request gets the old copy again. *)
Theorem v1_first_copy_is_never_replaced (self_origin name : string)
    (st : gmap string response) (rest : caches) (req : request) (c : response)
    (n n' : net) :
  Js.startsWith (pathname req) "/api/" = false →
  name ≠ SWv1.DYNAMIC_CACHE →
  method req = "GET" →
  st !! url req = Some c →
  answer (SWv1.on_fetch self_origin ((name, st) :: rest) req n) = Some c ∧
  (∃ rest',
     caches_after (SWv1.on_fetch self_origin ((name, st) :: rest) req n)
     = (name, st) :: rest') ∧
  answer (SWv1.on_fetch self_origin
            (caches_after (SWv1.on_fetch self_origin ((name, st) :: rest) req n))
            req n') = Some c.
Proof.
  intros Hapi Hname Hmethod Hcopy.
  assert (Hget : cacheable req = true) by (unfold cacheable; by rewrite Hmethod).
  assert (Hstep : ∀ rest0 n0,
            answer (SWv1.on_fetch self_origin ((name, st) :: rest0) req n0) = Some c ∧
            ∃ rest',
              caches_after (SWv1.on_fetch self_origin ((name, st) :: rest0) req n0)
              = (name, st) :: rest').
  { intros rest0 n0. unfold SWv1.on_fetch, caches_match_request, SWv1.put_dynamic.
    rewrite Hapi, Hget. cbn [caches_match]. rewrite Hcopy.
    destruct n0 as [r|]; [|split; [done|by eexists]].
    destruct (status r =? 200); cbn [answer caches_after]; (split; [done|]).
    - by apply put_keeps_first_store.
    - by eexists. }
  destruct (Hstep rest n) as [Hans [rest' Hafter]].
  split; [done|]. split; [by eexists|].
  rewrite Hafter. apply Hstep.
Qed.

Lemma v1_first_copy_is_never_replaced_witness :
  answer
    (SWv1.on_fetch Scenario.app_origin
       (caches_after
          (SWv1.on_fetch Scenario.app_origin
             [(SWv1.STATIC_CACHE,
               {[ url Scenario.stylesheet
                  := mkResponse 200 "OK" [] (Text "body { color: black }") ]})]
             Scenario.stylesheet
             (Resolved (mkResponse 200 "OK" [] (Text "body { color: navy }")))))
       Scenario.stylesheet Failed)
  = Some (mkResponse 200 "OK" [] (Text "body { color: black }")).
Proof.
  apply (v1_first_copy_is_never_replaced Scenario.app_origin SWv1.STATIC_CACHE);
    [reflexivity | discriminate | reflexivity | reflexivity].
Defined.


End WorkerV1Stores.
